(** * Consultation coordinator of medconsult (backend/server.py)

    A shallow embedding of the queue and call-session handlers of
    [backend/server.py] and the properties of its record store.

    Modelling choices, all read off the source:
    - a MongoDB collection is the list of its documents in insertion order;
      [find_one] returns the first match, [update_one] patches the first
      match, [update_many] patches every match, [insert_one] appends;
    - the status strings of [ScheduleStatus], [QueueStatus] and
      [CallSessionStatus] are enumerations, the only values the handlers
      ever write;
    - [datetime.now(timezone.utc).isoformat()] is a number of microseconds
      ([Z]); the ISO strings the server stores all carry the same UTC offset
      and are ordered by [$lt] exactly as the instants they denote;
    - [uuid.uuid4()] and the clock are inputs of a request ([Env]): the k-th
      identifier drawn and the k-th reading of the clock;
    - a handler is a coroutine ([coro]): every [await db....] is one atomic
      step on the store, [raise HTTPException(...)] stops the handler and
      keeps whatever the store holds at that point;
    - the handler bodies take the user that [Depends(require_doctor)] or
      [Depends(require_patient)] resolved; Socket.IO emissions and the
      read-only look-ups of user names do not touch the four collections and
      are left out. *)

From Stdlib Require Import List String ZArith Bool Lia Sorted.
Import ListNotations.

Local Open Scope string_scope.
Local Open Scope Z_scope.

(** ** Models *)

Inductive ScheduleStatus := UPCOMING | ONLINE | COMPLETED.
Inductive QueueStatus := WAITING | READY | IN_CALL | DONE.
Inductive CallSessionStatus :=
  INVITED | CONFIRMED | ACTIVE | ENDED | DECLINED | EXPIRED.

Definition ScheduleStatus_eqb (a b : ScheduleStatus) : bool :=
  match a, b with
  | UPCOMING, UPCOMING | ONLINE, ONLINE | COMPLETED, COMPLETED => true
  | _, _ => false
  end.

Definition QueueStatus_eqb (a b : QueueStatus) : bool :=
  match a, b with
  | WAITING, WAITING | READY, READY | IN_CALL, IN_CALL | DONE, DONE => true
  | _, _ => false
  end.

Definition CallSessionStatus_eqb (a b : CallSessionStatus) : bool :=
  match a, b with
  | INVITED, INVITED | CONFIRMED, CONFIRMED | ACTIVE, ACTIVE
  | ENDED, ENDED | DECLINED, DECLINED | EXPIRED, EXPIRED => true
  | _, _ => false
  end.

(** The string a status is stored and printed as. *)
Definition CallSessionStatus_str (s : CallSessionStatus) : string :=
  match s with
  | INVITED => "INVITED" | CONFIRMED => "CONFIRMED" | ACTIVE => "ACTIVE"
  | ENDED => "ENDED" | DECLINED => "DECLINED" | EXPIRED => "EXPIRED"
  end.

(** [{"$in": [INVITED, CONFIRMED, ACTIVE]}] *)
Definition in_active_set (s : CallSessionStatus) : bool :=
  match s with
  | INVITED | CONFIRMED | ACTIVE => true
  | _ => false
  end.

Record User := { u_id : string; u_name : string }.

Record schedule := {
  sch_id : string;
  sch_doctorId : string;
  sch_date : string;
  sch_startTime : string;
  sch_endTime : string;
  sch_status : ScheduleStatus
}.

Record queue_entry := {
  qe_id : string;
  qe_scheduleId : string;
  qe_patientId : string;
  qe_queueNumber : Z;
  qe_status : QueueStatus;
  qe_isReady : bool;
  qe_joinedAt : Z
}.

Record call_session := {
  cs_id : string;
  cs_scheduleId : string;
  cs_doctorId : string;
  cs_patientId : string;
  cs_status : CallSessionStatus;
  cs_createdAt : Z;
  cs_confirmedAt : option Z;
  cs_endedAt : option Z;
  cs_doctorPeerId : option string;
  cs_patientPeerId : option string
}.

Record audit_log := {
  al_id : string;
  al_actorUserId : string;
  al_actionType : string;
  al_scheduleId : option string;
  al_patientId : option string;
  al_callSessionId : option string;
  al_timestamp : Z;
  al_metadata : list (string * bool)
}.

(** The four collections of [db] the coordinator reads and writes. *)
Record store := {
  schedules : list schedule;
  queue_entries : list queue_entry;
  call_sessions : list call_session;
  audit_logs : list audit_log
}.

Definition with_schedules (l : list schedule) (st : store) : store :=
  {| schedules := l; queue_entries := queue_entries st;
     call_sessions := call_sessions st; audit_logs := audit_logs st |}.

Definition with_queue_entries (l : list queue_entry) (st : store) : store :=
  {| schedules := schedules st; queue_entries := l;
     call_sessions := call_sessions st; audit_logs := audit_logs st |}.

Definition with_call_sessions (l : list call_session) (st : store) : store :=
  {| schedules := schedules st; queue_entries := queue_entries st;
     call_sessions := l; audit_logs := audit_logs st |}.

Definition with_audit_logs (l : list audit_log) (st : store) : store :=
  {| schedules := schedules st; queue_entries := queue_entries st;
     call_sessions := call_sessions st; audit_logs := l |}.

(** Request bodies. *)
Record ToggleReadyRequest := { isReady : bool }.
Record StartCallRequest := { patientId : string }.
Record SetPeerIdRequest := { peerId : string }.
Record DoctorScheduleCreate :=
  { date : string; startTime : string; endTime : string }.

(** [HTTPException(status_code=..., detail=...)] *)
Record HTTPException := { status_code : Z; detail : string }.

(** The JSON bodies the handlers return. *)
Inductive Response :=
| RespMessage (message : string)
| RespPractice (message : string) (status : ScheduleStatus)
| RespSchedule (s : schedule) (doctorName : string)
| RespInvitation (message callSessionId : string) (status : CallSessionStatus)
| RespJoined (message : string) (queueNumber : Z) (entryId : string)
| RespReady (message : string) (is_ready : bool) (status : QueueStatus)
| RespConfirmed (message callSessionId : string).

(** What a request draws from outside the store: [uuid4 k] is the k-th
    identifier generated while it runs, [now k] the k-th clock reading. *)
Record Env := { now : nat -> Z; uuid4 : nat -> string }.

(** [timedelta(seconds=60)], in microseconds. *)
Definition sixty_seconds : Z := 60 * 1000000.

(** ** Collections *)

Section Collection.
Context {D : Type}.

Definition find_one (flt : D -> bool) (coll : list D) : option D :=
  find flt coll.

Fixpoint update_one (flt : D -> bool) (patch : D -> D) (coll : list D)
  : list D :=
  match coll with
  | [] => []
  | d :: rest =>
      if flt d then patch d :: rest else d :: update_one flt patch rest
  end.

Definition update_many (flt : D -> bool) (patch : D -> D) (coll : list D)
  : list D :=
  map (fun d => if flt d then patch d else d) coll.

Definition insert_one (d : D) (coll : list D) : list D := coll ++ [d].

(** [find_one(flt, sort=[(key, -1)])]: a match whose key is largest. *)
Fixpoint find_one_desc (key : D -> Z) (flt : D -> bool) (coll : list D)
  : option D :=
  match coll with
  | [] => None
  | d :: rest =>
      let best := find_one_desc key flt rest in
      if flt d then
        match best with
        | Some b => if key d <? key b then Some b else Some d
        | None => Some d
        end
      else best
  end.
End Collection.

(** ** Coroutines over the store *)

Inductive coro (A : Type) : Type :=
| Return (a : A)
| Raise (e : HTTPException)
| Await (X : Type) (q : store -> store * X) (k : X -> coro A).

Arguments Return {A} a.
Arguments Raise {A} e.
Arguments Await {A X} q k.

Fixpoint bind {A B : Type} (m : coro A) (f : A -> coro B) : coro B :=
  match m with
  | Return a => f a
  | Raise e => Raise e
  | Await q k => Await q (fun x => bind (k x) f)
  end.

Definition await {X : Type} (q : store -> store * X) : coro X :=
  Await q Return.

Declare Scope coro_scope.
Delimit Scope coro_scope with coro.
Notation "x <- m ;; k" := (bind m (fun x => k))
  (at level 61, m at next level, right associativity) : coro_scope.
Notation "m ;; k" := (bind m (fun _ => k))
  (at level 61, right associativity) : coro_scope.
Local Open Scope coro_scope.

(** [if not doc: raise e] *)
Definition or_raise {X : Type} (doc : option X) (e : HTTPException) : coro X :=
  match doc with
  | Some d => Return d
  | None => Raise e
  end.

(** [if cond: raise e] *)
Definition raise_if (cond : bool) (e : HTTPException) : coro unit :=
  if cond then Raise e else Return tt.

(** Running a handler alone, to completion. *)
Fixpoint run {A : Type} (m : coro A) (st : store)
  : store * (HTTPException + A) :=
  match m with
  | Return a => (st, inr a)
  | Raise e => (st, inl e)
  | Await q k => run (k (snd (q st))) (fst (q st))
  end.

(** One step of a handler: the database call it is waiting on. *)
Definition step {A : Type} (m : coro A) (st : store) : store * coro A :=
  match m with
  | Await q k => (fst (q st), k (snd (q st)))
  | _ => (st, m)
  end.

(** Two requests served by the event loop: [true] lets the first one take
    its next step, [false] the second. *)
Fixpoint run_interleaved {A B : Type} (turns : list bool)
  (p : coro A) (q : coro B) (st : store) : store * coro A * coro B :=
  match turns with
  | [] => (st, p, q)
  | true :: rest =>
      run_interleaved rest (snd (step p st)) q (fst (step p st))
  | false :: rest =>
      run_interleaved rest p (snd (step q st)) (fst (step q st))
  end.

(** ** Database calls *)

Definition db_schedules_find_one (flt : schedule -> bool)
  : store -> store * option schedule :=
  fun st => (st, find_one flt (schedules st)).

Definition db_schedules_update_one (flt : schedule -> bool)
  (patch : schedule -> schedule) : store -> store * unit :=
  fun st => (with_schedules (update_one flt patch (schedules st)) st, tt).

Definition db_schedules_insert_one (d : schedule) : store -> store * unit :=
  fun st => (with_schedules (insert_one d (schedules st)) st, tt).

Definition db_queue_entries_find_one (flt : queue_entry -> bool)
  : store -> store * option queue_entry :=
  fun st => (st, find_one flt (queue_entries st)).

Definition db_queue_entries_find_one_desc (key : queue_entry -> Z)
  (flt : queue_entry -> bool) : store -> store * option queue_entry :=
  fun st => (st, find_one_desc key flt (queue_entries st)).

Definition db_queue_entries_update_one (flt : queue_entry -> bool)
  (patch : queue_entry -> queue_entry) : store -> store * unit :=
  fun st =>
    (with_queue_entries (update_one flt patch (queue_entries st)) st, tt).

Definition db_queue_entries_insert_one (d : queue_entry)
  : store -> store * unit :=
  fun st => (with_queue_entries (insert_one d (queue_entries st)) st, tt).

Definition db_call_sessions_find_one (flt : call_session -> bool)
  : store -> store * option call_session :=
  fun st => (st, find_one flt (call_sessions st)).

Definition db_call_sessions_update_one (flt : call_session -> bool)
  (patch : call_session -> call_session) : store -> store * unit :=
  fun st =>
    (with_call_sessions (update_one flt patch (call_sessions st)) st, tt).

Definition db_call_sessions_update_many (flt : call_session -> bool)
  (patch : call_session -> call_session) : store -> store * unit :=
  fun st =>
    (with_call_sessions (update_many flt patch (call_sessions st)) st, tt).

Definition db_call_sessions_insert_one (d : call_session)
  : store -> store * unit :=
  fun st => (with_call_sessions (insert_one d (call_sessions st)) st, tt).

Definition db_audit_logs_insert_one (d : audit_log) : store -> store * unit :=
  fun st => (with_audit_logs (insert_one d (audit_logs st)) st, tt).

(** ** [$set] patches *)

Definition set_sch_status (s : ScheduleStatus) (d : schedule) : schedule :=
  {| sch_id := sch_id d; sch_doctorId := sch_doctorId d;
     sch_date := sch_date d; sch_startTime := sch_startTime d;
     sch_endTime := sch_endTime d; sch_status := s |}.

Definition set_qe_status (s : QueueStatus) (d : queue_entry) : queue_entry :=
  {| qe_id := qe_id d; qe_scheduleId := qe_scheduleId d;
     qe_patientId := qe_patientId d; qe_queueNumber := qe_queueNumber d;
     qe_status := s; qe_isReady := qe_isReady d;
     qe_joinedAt := qe_joinedAt d |}.

Definition set_qe_status_isReady (s : QueueStatus) (r : bool)
  (d : queue_entry) : queue_entry :=
  {| qe_id := qe_id d; qe_scheduleId := qe_scheduleId d;
     qe_patientId := qe_patientId d; qe_queueNumber := qe_queueNumber d;
     qe_status := s; qe_isReady := r; qe_joinedAt := qe_joinedAt d |}.

Definition set_cs_status (s : CallSessionStatus) (d : call_session)
  : call_session :=
  {| cs_id := cs_id d; cs_scheduleId := cs_scheduleId d;
     cs_doctorId := cs_doctorId d; cs_patientId := cs_patientId d;
     cs_status := s; cs_createdAt := cs_createdAt d;
     cs_confirmedAt := cs_confirmedAt d; cs_endedAt := cs_endedAt d;
     cs_doctorPeerId := cs_doctorPeerId d;
     cs_patientPeerId := cs_patientPeerId d |}.

Definition set_cs_status_endedAt (s : CallSessionStatus) (t : Z)
  (d : call_session) : call_session :=
  {| cs_id := cs_id d; cs_scheduleId := cs_scheduleId d;
     cs_doctorId := cs_doctorId d; cs_patientId := cs_patientId d;
     cs_status := s; cs_createdAt := cs_createdAt d;
     cs_confirmedAt := cs_confirmedAt d; cs_endedAt := Some t;
     cs_doctorPeerId := cs_doctorPeerId d;
     cs_patientPeerId := cs_patientPeerId d |}.

Definition set_cs_status_confirmedAt (s : CallSessionStatus) (t : Z)
  (d : call_session) : call_session :=
  {| cs_id := cs_id d; cs_scheduleId := cs_scheduleId d;
     cs_doctorId := cs_doctorId d; cs_patientId := cs_patientId d;
     cs_status := s; cs_createdAt := cs_createdAt d;
     cs_confirmedAt := Some t; cs_endedAt := cs_endedAt d;
     cs_doctorPeerId := cs_doctorPeerId d;
     cs_patientPeerId := cs_patientPeerId d |}.

Definition set_cs_doctorPeerId (p : string) (d : call_session)
  : call_session :=
  {| cs_id := cs_id d; cs_scheduleId := cs_scheduleId d;
     cs_doctorId := cs_doctorId d; cs_patientId := cs_patientId d;
     cs_status := cs_status d; cs_createdAt := cs_createdAt d;
     cs_confirmedAt := cs_confirmedAt d; cs_endedAt := cs_endedAt d;
     cs_doctorPeerId := Some p;
     cs_patientPeerId := cs_patientPeerId d |}.

Definition set_cs_patientPeerId (p : string) (d : call_session)
  : call_session :=
  {| cs_id := cs_id d; cs_scheduleId := cs_scheduleId d;
     cs_doctorId := cs_doctorId d; cs_patientId := cs_patientId d;
     cs_status := cs_status d; cs_createdAt := cs_createdAt d;
     cs_confirmedAt := cs_confirmedAt d; cs_endedAt := cs_endedAt d;
     cs_doctorPeerId := cs_doctorPeerId d;
     cs_patientPeerId := Some p |}.

(** ** Handlers *)

Definition HTTP (code : Z) (msg : string) : HTTPException :=
  {| status_code := code; detail := msg |}.

(** [log_audit]: the [iu]-th identifier and the [it]-th clock reading of the
    request go into the audit document. *)
Definition log_audit (env : Env) (iu it : nat) (actor_id action_type : string)
  (schedule_id patient_id call_session_id : option string)
  (metadata : list (string * bool)) : coro unit :=
  await (db_audit_logs_insert_one
    {| al_id := uuid4 env iu; al_actorUserId := actor_id;
       al_actionType := action_type; al_scheduleId := schedule_id;
       al_patientId := patient_id; al_callSessionId := call_session_id;
       al_timestamp := now env it; al_metadata := metadata |}).

Definition is_some {X : Type} (o : option X) : bool :=
  match o with Some _ => true | None => false end.

(** Filters of the queries, as predicates on documents. *)
Definition schedule_of_doctor (schedule_id doctor_id : string) (s : schedule)
  : bool :=
  String.eqb (sch_id s) schedule_id && String.eqb (sch_doctorId s) doctor_id.

Definition schedule_by_id (schedule_id : string) (s : schedule) : bool :=
  String.eqb (sch_id s) schedule_id.

Definition entry_of (schedule_id patient_id : string) (q : queue_entry)
  : bool :=
  String.eqb (qe_scheduleId q) schedule_id
  && String.eqb (qe_patientId q) patient_id.

Definition entry_in_schedule (schedule_id : string) (q : queue_entry) : bool :=
  String.eqb (qe_scheduleId q) schedule_id.

Definition call_by_id (call_session_id : string) (c : call_session) : bool :=
  String.eqb (cs_id c) call_session_id.

Definition call_of_doctor (call_session_id doctor_id : string)
  (c : call_session) : bool :=
  String.eqb (cs_id c) call_session_id && String.eqb (cs_doctorId c) doctor_id.

Definition call_of_patient (call_session_id patient_id : string)
  (c : call_session) : bool :=
  String.eqb (cs_id c) call_session_id
  && String.eqb (cs_patientId c) patient_id.

(** [{"scheduleId": .., "status": INVITED, "createdAt": {"$lt": t}}] *)
Definition stale_invitation (schedule_id : string) (t : Z) (c : call_session)
  : bool :=
  String.eqb (cs_scheduleId c) schedule_id
  && CallSessionStatus_eqb (cs_status c) INVITED
  && (cs_createdAt c <? t).

(** [{"scheduleId": .., "status": {"$in": [INVITED, CONFIRMED, ACTIVE]}}] *)
Definition active_in_schedule (schedule_id : string) (c : call_session)
  : bool :=
  String.eqb (cs_scheduleId c) schedule_id && in_active_set (cs_status c).

Definition create_schedule (schedule_data : DoctorScheduleCreate)
  (user : User) (env : Env) : coro Response :=
  let schedule_id := uuid4 env 0 in
  let schedule :=
    {| sch_id := schedule_id; sch_doctorId := u_id user;
       sch_date := date schedule_data;
       sch_startTime := startTime schedule_data;
       sch_endTime := endTime schedule_data; sch_status := UPCOMING |} in
  await (db_schedules_insert_one schedule) ;;
  log_audit env 1 0 (u_id user) "SCHEDULE_CREATED" (Some schedule_id)
    None None [] ;;
  Return (RespSchedule schedule (u_name user)).

Definition start_practice (schedule_id : string) (user : User) (env : Env)
  : coro Response :=
  schedule <- await (db_schedules_find_one
                       (schedule_of_doctor schedule_id (u_id user))) ;;
  schedule <- or_raise schedule (HTTP 404 "Schedule not found") ;;
  raise_if (ScheduleStatus_eqb (sch_status schedule) ONLINE)
    (HTTP 400 "Practice already started") ;;
  raise_if (ScheduleStatus_eqb (sch_status schedule) COMPLETED)
    (HTTP 400 "Practice already completed") ;;
  await (db_schedules_update_one (schedule_by_id schedule_id)
           (set_sch_status ONLINE)) ;;
  log_audit env 0 0 (u_id user) "PRACTICE_STARTED" (Some schedule_id)
    None None [] ;;
  Return (RespPractice "Practice started" ONLINE).

Definition end_practice (schedule_id : string) (user : User) (env : Env)
  : coro Response :=
  schedule <- await (db_schedules_find_one
                       (schedule_of_doctor schedule_id (u_id user))) ;;
  _ <- or_raise schedule (HTTP 404 "Schedule not found") ;;
  await (db_schedules_update_one (schedule_by_id schedule_id)
           (set_sch_status COMPLETED)) ;;
  (* End any active calls *)
  await (db_call_sessions_update_many (active_in_schedule schedule_id)
           (set_cs_status_endedAt ENDED (now env 0))) ;;
  log_audit env 0 1 (u_id user) "PRACTICE_ENDED" (Some schedule_id)
    None None [] ;;
  Return (RespPractice "Practice ended" COMPLETED).

Definition start_call (schedule_id : string) (request : StartCallRequest)
  (user : User) (env : Env) : coro Response :=
  schedule <- await (db_schedules_find_one
                       (schedule_of_doctor schedule_id (u_id user))) ;;
  schedule <- or_raise schedule (HTTP 404 "Schedule not found") ;;
  raise_if (negb (ScheduleStatus_eqb (sch_status schedule) ONLINE))
    (HTTP 400 "Practice not online") ;;
  (* Auto-expire old INVITED sessions (older than 60 seconds) *)
  let sixty_seconds_ago := now env 0 - sixty_seconds in
  await (db_call_sessions_update_many
           (stale_invitation schedule_id sixty_seconds_ago)
           (set_cs_status_endedAt EXPIRED (now env 1))) ;;
  (* Check for active call *)
  active_call <- await (db_call_sessions_find_one
                          (active_in_schedule schedule_id)) ;;
  raise_if (is_some active_call) (HTTP 400 "Another call is already active") ;;
  (* Check patient is ready *)
  queue_entry <- await (db_queue_entries_find_one
                          (entry_of schedule_id (patientId request))) ;;
  queue_entry <- or_raise queue_entry (HTTP 404 "Patient not in queue") ;;
  raise_if (negb (QueueStatus_eqb (qe_status queue_entry) READY))
    (HTTP 400 "Patient is not ready") ;;
  (* Create call session *)
  let call_session_id := uuid4 env 0 in
  let call_session :=
    {| cs_id := call_session_id; cs_scheduleId := schedule_id;
       cs_doctorId := u_id user; cs_patientId := patientId request;
       cs_status := INVITED; cs_createdAt := now env 2;
       cs_confirmedAt := None; cs_endedAt := None;
       cs_doctorPeerId := None; cs_patientPeerId := None |} in
  await (db_call_sessions_insert_one call_session) ;;
  log_audit env 1 3 (u_id user) "CALL_INVITED" (Some schedule_id)
    (Some (patientId request)) (Some call_session_id) [] ;;
  Return (RespInvitation "Invitation sent" call_session_id INVITED).

Definition set_doctor_peer_id (call_session_id : string)
  (request : SetPeerIdRequest) (user : User) (env : Env) : coro Response :=
  session <- await (db_call_sessions_find_one
                      (call_of_doctor call_session_id (u_id user))) ;;
  _ <- or_raise session (HTTP 404 "Call session not found") ;;
  await (db_call_sessions_update_one (call_by_id call_session_id)
           (set_cs_doctorPeerId (peerId request))) ;;
  Return (RespMessage "Peer ID set").

Definition end_call_doctor (call_session_id : string) (user : User)
  (env : Env) : coro Response :=
  session <- await (db_call_sessions_find_one
                      (call_of_doctor call_session_id (u_id user))) ;;
  session <- or_raise session (HTTP 404 "Call session not found") ;;
  await (db_call_sessions_update_one (call_by_id call_session_id)
           (set_cs_status_endedAt ENDED (now env 0))) ;;
  (* Update queue entry *)
  await (db_queue_entries_update_one
           (entry_of (cs_scheduleId session) (cs_patientId session))
           (set_qe_status DONE)) ;;
  log_audit env 0 1 (u_id user) "CALL_ENDED" (Some (cs_scheduleId session))
    (Some (cs_patientId session)) (Some call_session_id) [] ;;
  Return (RespMessage "Call ended").

Definition join_queue (schedule_id : string) (user : User) (env : Env)
  : coro Response :=
  schedule <- await (db_schedules_find_one (schedule_by_id schedule_id)) ;;
  _ <- or_raise schedule (HTTP 404 "Schedule not found") ;;
  (* Check if already in queue *)
  existing <- await (db_queue_entries_find_one
                       (entry_of schedule_id (u_id user))) ;;
  raise_if (is_some existing) (HTTP 400 "Already in queue") ;;
  (* Get next queue number *)
  last_entry <- await (db_queue_entries_find_one_desc qe_queueNumber
                         (entry_in_schedule schedule_id)) ;;
  let queue_number :=
    match last_entry with
    | Some last => qe_queueNumber last + 1
    | None => 1
    end in
  (* Create queue entry *)
  let entry_id := uuid4 env 0 in
  let entry :=
    {| qe_id := entry_id; qe_scheduleId := schedule_id;
       qe_patientId := u_id user; qe_queueNumber := queue_number;
       qe_status := WAITING; qe_isReady := false;
       qe_joinedAt := now env 0 |} in
  await (db_queue_entries_insert_one entry) ;;
  log_audit env 1 1 (u_id user) "QUEUE_JOINED" (Some schedule_id)
    (Some (u_id user)) None [] ;;
  Return (RespJoined "Joined queue" queue_number entry_id).

Definition toggle_ready (schedule_id : string) (request : ToggleReadyRequest)
  (user : User) (env : Env) : coro Response :=
  entry <- await (db_queue_entries_find_one
                    (entry_of schedule_id (u_id user))) ;;
  entry <- or_raise entry (HTTP 404 "Not in queue") ;;
  raise_if (QueueStatus_eqb (qe_status entry) DONE)
    (HTTP 400 "Consultation already completed") ;;
  raise_if (QueueStatus_eqb (qe_status entry) IN_CALL)
    (HTTP 400 "Currently in call") ;;
  let new_status := if isReady request then READY else WAITING in
  await (db_queue_entries_update_one (entry_of schedule_id (u_id user))
           (set_qe_status_isReady new_status (isReady request))) ;;
  log_audit env 0 0 (u_id user) "READY_TOGGLED" (Some schedule_id)
    (Some (u_id user)) None [("isReady", isReady request)] ;;
  Return (RespReady "Ready status updated" (isReady request) new_status).

Definition confirm_call (call_session_id : string) (user : User) (env : Env)
  : coro Response :=
  session <- await (db_call_sessions_find_one
                      (call_of_patient call_session_id (u_id user))) ;;
  session <- or_raise session (HTTP 404 "Call session not found") ;;
  raise_if (negb (CallSessionStatus_eqb (cs_status session) INVITED))
    (HTTP 400 ("Cannot confirm call in status: "
               ++ CallSessionStatus_str (cs_status session))) ;;
  await (db_call_sessions_update_one (call_by_id call_session_id)
           (set_cs_status_confirmedAt CONFIRMED (now env 0))) ;;
  (* Update queue entry *)
  await (db_queue_entries_update_one
           (entry_of (cs_scheduleId session) (u_id user))
           (set_qe_status IN_CALL)) ;;
  log_audit env 0 1 (u_id user) "CALL_CONFIRMED"
    (Some (cs_scheduleId session)) (Some (u_id user))
    (Some call_session_id) [] ;;
  Return (RespConfirmed "Call confirmed" call_session_id).

Definition decline_call (call_session_id : string) (user : User) (env : Env)
  : coro Response :=
  session <- await (db_call_sessions_find_one
                      (call_of_patient call_session_id (u_id user))) ;;
  session <- or_raise session (HTTP 404 "Call session not found") ;;
  raise_if (negb (CallSessionStatus_eqb (cs_status session) INVITED))
    (HTTP 400 ("Cannot decline call in status: "
               ++ CallSessionStatus_str (cs_status session))) ;;
  await (db_call_sessions_update_one (call_by_id call_session_id)
           (set_cs_status_endedAt DECLINED (now env 0))) ;;
  (* Reset patient to waiting and not ready *)
  await (db_queue_entries_update_one
           (entry_of (cs_scheduleId session) (u_id user))
           (set_qe_status_isReady WAITING false)) ;;
  log_audit env 0 1 (u_id user) "CALL_DECLINED"
    (Some (cs_scheduleId session)) (Some (u_id user))
    (Some call_session_id) [] ;;
  Return (RespMessage "Call declined").

Definition set_patient_peer_id (call_session_id : string)
  (request : SetPeerIdRequest) (user : User) (env : Env) : coro Response :=
  session <- await (db_call_sessions_find_one
                      (call_of_patient call_session_id (u_id user))) ;;
  _ <- or_raise session (HTTP 404 "Call session not found") ;;
  await (db_call_sessions_update_one (call_by_id call_session_id)
           (set_cs_patientPeerId (peerId request))) ;;
  Return (RespMessage "Peer ID set").

Definition end_call_patient (call_session_id : string) (user : User)
  (env : Env) : coro Response :=
  session <- await (db_call_sessions_find_one
                      (call_of_patient call_session_id (u_id user))) ;;
  session <- or_raise session (HTTP 404 "Call session not found") ;;
  await (db_call_sessions_update_one (call_by_id call_session_id)
           (set_cs_status_endedAt ENDED (now env 0))) ;;
  (* Update queue entry *)
  await (db_queue_entries_update_one
           (entry_of (cs_scheduleId session) (u_id user))
           (set_qe_status DONE)) ;;
  log_audit env 0 1 (u_id user) "CALL_ENDED" (Some (cs_scheduleId session))
    (Some (u_id user)) (Some call_session_id) [] ;;
  Return (RespMessage "Call ended").

Definition activate_call (call_session_id : string) (user : User) (env : Env)
  : coro Response :=
  session <- await (db_call_sessions_find_one (call_by_id call_session_id)) ;;
  session <- or_raise session (HTTP 404 "Call session not found") ;;
  (* Verify user is part of this call *)
  raise_if (negb (String.eqb (u_id user) (cs_doctorId session))
            && negb (String.eqb (u_id user) (cs_patientId session)))
    (HTTP 403 "Not authorized") ;;
  raise_if (negb (CallSessionStatus_eqb (cs_status session) CONFIRMED))
    (HTTP 400 ("Cannot activate call in status: "
               ++ CallSessionStatus_str (cs_status session))) ;;
  await (db_call_sessions_update_one (call_by_id call_session_id)
           (set_cs_status ACTIVE)) ;;
  Return (RespMessage "Call activated").

(** ** The coordinator's operations *)

Inductive operation :=
| CreateSchedule (schedule_data : DoctorScheduleCreate) (user : User)
| StartPractice (schedule_id : string) (user : User)
| EndPractice (schedule_id : string) (user : User)
| StartCall (schedule_id : string) (request : StartCallRequest) (user : User)
| SetDoctorPeerId (call_session_id : string) (request : SetPeerIdRequest)
    (user : User)
| EndCallDoctor (call_session_id : string) (user : User)
| JoinQueue (schedule_id : string) (user : User)
| ToggleReady (schedule_id : string) (request : ToggleReadyRequest)
    (user : User)
| ConfirmCall (call_session_id : string) (user : User)
| DeclineCall (call_session_id : string) (user : User)
| SetPatientPeerId (call_session_id : string) (request : SetPeerIdRequest)
    (user : User)
| EndCallPatient (call_session_id : string) (user : User)
| ActivateCall (call_session_id : string) (user : User).

Definition handler (o : operation) (env : Env) : coro Response :=
  match o with
  | CreateSchedule d u => create_schedule d u env
  | StartPractice s u => start_practice s u env
  | EndPractice s u => end_practice s u env
  | StartCall s r u => start_call s r u env
  | SetDoctorPeerId c r u => set_doctor_peer_id c r u env
  | EndCallDoctor c u => end_call_doctor c u env
  | JoinQueue s u => join_queue s u env
  | ToggleReady s r u => toggle_ready s r u env
  | ConfirmCall c u => confirm_call c u env
  | DeclineCall c u => decline_call c u env
  | SetPatientPeerId c r u => set_patient_peer_id c r u env
  | EndCallPatient c u => end_call_patient c u env
  | ActivateCall c u => activate_call c u env
  end.

(** A request served alone: the store it leaves and its answer. *)
Definition serve (o : operation) (env : Env) (st : store)
  : store * (HTTPException + Response) :=
  run (handler o env) st.

(** Requests served one after another, each to completion. *)
Fixpoint serve_all (requests : list (operation * Env)) (st : store) : store :=
  match requests with
  | [] => st
  | (o, env) :: rest => serve_all rest (fst (serve o env st))
  end.

(** ** Properties of the store *)

(** How many call sessions of a schedule are INVITED, CONFIRMED or ACTIVE. *)
Definition count_active (schedule_id : string) (calls : list call_session)
  : nat :=
  List.length (filter (active_in_schedule schedule_id) calls).

(** The single active call rule. *)
Definition single_active_call (st : store) : Prop :=
  forall schedule_id,
    (count_active schedule_id (call_sessions st) <= 1)%nat.

(** [uuid4] identifiers of call sessions do not repeat. *)
Definition unique_call_ids (st : store) : Prop :=
  NoDup (map cs_id (call_sessions st)).

(** A patch that moves no session into the active set of a schedule. *)
Definition no_activation (patch : call_session -> call_session) : Prop :=
  forall sid c,
    active_in_schedule sid (patch c) = true -> active_in_schedule sid c = true.

(** The identifier a request gives to the call session it creates is new. *)
Definition draws_fresh_call_id (o : operation) (env : Env) (st : store)
  : Prop :=
  match o with
  | StartCall _ _ _ => ~ In (uuid4 env 0) (map cs_id (call_sessions st))
  | _ => True
  end.

(** The same along a sequence of requests served one after another. *)
Fixpoint fresh_call_ids (requests : list (operation * Env)) (st : store)
  : Prop :=
  match requests with
  | [] => True
  | (o, env) :: rest =>
      draws_fresh_call_id o env st
      /\ fresh_call_ids rest (fst (serve o env st))
  end.

(** [isReady] says the same as [status == READY]. *)
Definition ready_consistent (q : queue_entry) : Prop :=
  qe_isReady q = true <-> qe_status q = READY.

Definition queue_consistent (st : store) : Prop :=
  Forall ready_consistent (queue_entries st).

(** The queue numbers of a schedule, in admission order. *)
Definition queue_numbers (schedule_id : string) (entries : list queue_entry)
  : list Z :=
  map qe_queueNumber (filter (entry_in_schedule schedule_id) entries).

Definition queue_numbers_increasing (st : store) : Prop :=
  forall schedule_id,
    StronglySorted Z.lt (queue_numbers schedule_id (queue_entries st)).

(** Every queue entry belongs to a schedule of the store. *)
Definition queue_entries_have_schedules (st : store) : Prop :=
  forall q, In q (queue_entries st) ->
            find_one (schedule_by_id (qe_scheduleId q)) (schedules st)
            <> None.

(** The largest of a list of numbers, [None] for the empty list. *)
Definition max_of (l : list Z) : option Z :=
  fold_right (fun n acc => match acc with
                           | Some m => Some (Z.max n m)
                           | None => Some n
                           end) None l.

(** The largest queue number of a schedule, [None] for an empty queue. *)
Definition max_queue_number (schedule_id : string)
  (entries : list queue_entry) : option Z :=
  max_of (queue_numbers schedule_id entries).

Definition next_queue_number (schedule_id : string)
  (entries : list queue_entry) : Z :=
  match max_queue_number schedule_id entries with
  | Some m => m + 1
  | None => 1
  end.

(** The entry a patient gets on joining: next number, WAITING, not ready. *)
Definition joined_entry (sid : string) (user : User) (env : Env) (st : store)
  : queue_entry :=
  {| qe_id := uuid4 env 0; qe_scheduleId := sid; qe_patientId := u_id user;
     qe_queueNumber := next_queue_number sid (queue_entries st);
     qe_status := WAITING; qe_isReady := false; qe_joinedAt := now env 0 |}.

(** The staleness sweep of [start_call] on its own. *)
Definition expire_stale_invitations (schedule_id : string) (env : Env)
  (st : store) : store :=
  fst (db_call_sessions_update_many
         (stale_invitation schedule_id (now env 0 - sixty_seconds))
         (set_cs_status_endedAt EXPIRED (now env 1)) st).

(** The errors of [start_call] by name. *)
Definition ScheduleNotFound : HTTPException := HTTP 404 "Schedule not found".
Definition PracticeNotOnline : HTTPException := HTTP 400 "Practice not online".
Definition CallAlreadyActive : HTTPException :=
  HTTP 400 "Another call is already active".
Definition PatientNotInQueue : HTTPException :=
  HTTP 404 "Patient not in queue".
Definition PatientNotReady : HTTPException := HTTP 400 "Patient is not ready".
Definition AlreadyQueued : HTTPException := HTTP 400 "Already in queue".

(** The rejections of [start_call] that come after its staleness sweep. *)
Definition rejected_after_sweep (e : HTTPException) : Prop :=
  e = CallAlreadyActive \/ e = PatientNotInQueue \/ e = PatientNotReady.

(** A request that was answered, not rejected. *)
Definition answered_ok {A : Type} (r : HTTPException + A) : Prop :=
  exists a, r = inr a.

(** ** Scenarios *)

Definition dr_sarah : User :=
  {| u_id := "doctor-1"; u_name := "Dr. Sarah Johnson" |}.
Definition john : User := {| u_id := "patient-1"; u_name := "John Smith" |}.

Definition morning (s : ScheduleStatus) : schedule :=
  {| sch_id := "sched-1"; sch_doctorId := "doctor-1"; sch_date := "2025-06-01";
     sch_startTime := "09:00"; sch_endTime := "12:00"; sch_status := s |}.

Definition entry (id patient : string) (n : Z) (s : QueueStatus) (r : bool)
  : queue_entry :=
  {| qe_id := id; qe_scheduleId := "sched-1"; qe_patientId := patient;
     qe_queueNumber := n; qe_status := s; qe_isReady := r; qe_joinedAt := 0 |}.

Definition call (id patient : string) (s : CallSessionStatus) (created : Z)
  (ended : option Z) : call_session :=
  {| cs_id := id; cs_scheduleId := "sched-1"; cs_doctorId := "doctor-1";
     cs_patientId := patient; cs_status := s; cs_createdAt := created;
     cs_confirmedAt := None; cs_endedAt := ended;
     cs_doctorPeerId := None; cs_patientPeerId := None |}.

(** A clock that stands at [t] and identifiers [prefix0], [prefix1], ... *)
Definition env_at (t : Z) (prefix : string) : Env :=
  {| now := fun _ => t;
     uuid4 := fun k => prefix ++ String (Ascii.ascii_of_nat (48 + k)) "" |}.

Definition empty_store : store :=
  {| schedules := []; queue_entries := []; call_sessions := [];
     audit_logs := [] |}.

(** Practice online, two patients ready, no call yet. *)
Definition two_ready : store :=
  {| schedules := [morning ONLINE];
     queue_entries := [entry "q-1" "patient-1" 1 READY true;
                       entry "q-2" "patient-2" 2 READY true];
     call_sessions := []; audit_logs := [] |}.

(** John was invited at time 0 and has not answered. *)
Definition john_invited : store :=
  {| schedules := [morning ONLINE];
     queue_entries := [entry "q-1" "patient-1" 1 READY true];
     call_sessions := [call "call-1" "patient-1" INVITED 0 None];
     audit_logs := [] |}.

(** John declined at time 5000000 and is waiting again. *)
Definition john_declined : store :=
  {| schedules := [morning ONLINE];
     queue_entries := [entry "q-1" "patient-1" 1 WAITING false];
     call_sessions := [call "call-1" "patient-1" DECLINED 0 (Some 5000000)];
     audit_logs := [] |}.

(** A consultation from the empty store: the doctor creates and starts a
    schedule, John joins, says he is ready and is invited. *)
Definition consultation_until_invited : list (operation * Env) :=
  [(CreateSchedule {| date := "2025-06-01"; startTime := "09:00";
                      endTime := "12:00" |} dr_sarah, env_at 0 "s");
   (StartPractice "s0" dr_sarah, env_at 1000000 "t");
   (JoinQueue "s0" john, env_at 2000000 "q");
   (ToggleReady "s0" {| isReady := true |} john, env_at 3000000 "r");
   (StartCall "s0" {| patientId := "patient-1" |} dr_sarah,
    env_at 4000000 "c")].

(** John confirms the invitation. *)
Definition consultation_confirmed : list (operation * Env) :=
  (consultation_until_invited
   ++ [(ConfirmCall "c0" john, env_at 5000000 "k")])%list.

(** John declines the invitation, then the doctor ends that call. *)
Definition consultation_declined : list (operation * Env) :=
  (consultation_until_invited
   ++ [(DeclineCall "c0" john, env_at 5000000 "k")])%list.

Definition consultation_declined_then_ended : list (operation * Env) :=
  (consultation_declined
   ++ [(EndCallDoctor "c0" dr_sarah, env_at 9000000 "e")])%list.

(** The two invitations of the race and the order the event loop serves
    their database calls in: the first request is suspended after its
    look-up of the patient's queue entry, the second runs through, the first
    then inserts its session. *)
Definition race_first : coro Response :=
  start_call "sched-1" {| patientId := "patient-1" |} dr_sarah
    (env_at 1000000 "a").
Definition race_second : coro Response :=
  start_call "sched-1" {| patientId := "patient-2" |} dr_sarah
    (env_at 1000000 "b").
Definition race_turns : list bool :=
  [true; true; true; true; false; false; false; false; false; false;
   true; true].

From Stdlib Require Import Permutation.

(** ** Further properties of the store *)

(** [uuid4] identifiers of schedules do not repeat. *)
Definition unique_schedule_ids (st : store) : Prop :=
  NoDup (map sch_id (schedules st)).

(** The identifier [create_schedule] gives to the new schedule is new. *)
Definition draws_fresh_schedule_id (o : operation) (env : Env) (st : store)
  : Prop :=
  match o with
  | CreateSchedule _ _ => ~ In (uuid4 env 0) (map sch_id (schedules st))
  | _ => True
  end.

(** UPCOMING, then ONLINE, then COMPLETED. *)
Definition status_rank (s : ScheduleStatus) : nat :=
  match s with
  | UPCOMING => 0
  | ONLINE => 1
  | COMPLETED => 2
  end.

(** A patient has at most one entry in the queue of a schedule. *)
Definition unique_queue_pairs (st : store) : Prop :=
  NoDup (map (fun q => (qe_scheduleId q, qe_patientId q)) (queue_entries st)).

(** The numbers 1, 2, ..., n. *)
Definition first_numbers (n : nat) : list Z := map Z.of_nat (seq 1 n).

(** The queue numbers of every schedule are 1, 2, ... in admission order. *)
Definition queue_numbers_gapless (st : store) : Prop :=
  forall schedule_id,
    queue_numbers schedule_id (queue_entries st)
    = first_numbers
        (List.length (queue_numbers schedule_id (queue_entries st))).

(** The user a request is made by. *)
Definition requester (o : operation) : User :=
  match o with
  | CreateSchedule _ u | StartPractice _ u | EndPractice _ u
  | StartCall _ _ u | SetDoctorPeerId _ _ u | EndCallDoctor _ u
  | JoinQueue _ u | ToggleReady _ _ u | ConfirmCall _ u | DeclineCall _ u
  | SetPatientPeerId _ _ u | EndCallPatient _ u | ActivateCall _ u => u
  end.

(** The handlers that call [log_audit]. *)
Definition logged (o : operation) : bool :=
  match o with
  | SetDoctorPeerId _ _ _ | SetPatientPeerId _ _ _ | ActivateCall _ _ => false
  | _ => true
  end.

(** Two versions of a queue entry: same identifier, schedule, patient,
    queue number and time of joining. *)
Definition same_entry (q q' : queue_entry) : Prop :=
  qe_id q' = qe_id q /\ qe_scheduleId q' = qe_scheduleId q
  /\ qe_patientId q' = qe_patientId q
  /\ qe_queueNumber q' = qe_queueNumber q
  /\ qe_joinedAt q' = qe_joinedAt q.

(** Two versions of a call session: same identifier, schedule, doctor,
    patient and time of creation. *)
Definition same_call (c c' : call_session) : Prop :=
  cs_id c' = cs_id c /\ cs_scheduleId c' = cs_scheduleId c
  /\ cs_doctorId c' = cs_doctorId c /\ cs_patientId c' = cs_patientId c
  /\ cs_createdAt c' = cs_createdAt c.

(** Two [join_queue] requests on the event loop: the first is suspended
    after its look-up of the last queue number, the second runs through,
    the first then inserts its entry. *)
Definition join_race_turns : list bool :=
  [true; true; true; false; false; false; false; false; true; true].

(** ** Reading handlers

    The [users] collection is written by registration and seeding only; the
    handlers below read names from it, so it is a parameter. *)

Record user_doc := {
  ud_id : string;
  ud_email : string;
  ud_name : string;
  ud_passwordHash : string;
  ud_role : string;
  ud_createdAt : Z
}.

(** [db.users.find_one({"id": id})] and [doc['name'] if doc else default] *)
Definition user_name (users : list user_doc) (id default : string) : string :=
  match find_one (fun u => String.eqb (ud_id u) id) users with
  | Some u => ud_name u
  | None => default
  end.

Section Sorting.
Context {D : Type} (le : D -> D -> bool).

Fixpoint insert_sorted (x : D) (l : list D) : list D :=
  match l with
  | [] => [x]
  | y :: rest => if le x y then x :: y :: rest else y :: insert_sorted x rest
  end.

(** [.sort(...)]: documents in ascending order. Ties, which the database
    may return in any order, are kept in insertion order here; nothing
    proved below depends on that choice. *)
Fixpoint sort_by (l : list D) : list D :=
  match l with
  | [] => []
  | x :: rest => insert_sorted x (sort_by rest)
  end.
End Sorting.

(** [find(flt).sort(...).to_list(100)] *)
Definition find_sorted {D : Type} (le : D -> D -> bool) (flt : D -> bool)
  (coll : list D) : list D :=
  firstn 100 (sort_by le (filter flt coll)).

Definition by_queueNumber (a b : queue_entry) : bool :=
  qe_queueNumber a <=? qe_queueNumber b.

Definition by_date (a b : schedule) : bool :=
  String.leb (sch_date a) (sch_date b).

(** [sort([("date", 1), ("startTime", 1)])] *)
Definition by_date_startTime (a b : schedule) : bool :=
  match String.compare (sch_date a) (sch_date b) with
  | Lt => true
  | Eq => String.leb (sch_startTime a) (sch_startTime b)
  | Gt => false
  end.

Definition db_schedules_find_sorted (le : schedule -> schedule -> bool)
  (flt : schedule -> bool) : store -> store * list schedule :=
  fun st => (st, find_sorted le flt (schedules st)).

Definition db_queue_entries_find_sorted
  (le : queue_entry -> queue_entry -> bool) (flt : queue_entry -> bool)
  : store -> store * list queue_entry :=
  fun st => (st, find_sorted le flt (queue_entries st)).

Definition db_queue_entries_count_documents (flt : queue_entry -> bool)
  : store -> store * Z :=
  fun st => (st, Z.of_nat (List.length (filter flt (queue_entries st)))).

(** [DoctorScheduleResponse] *)
Record DoctorScheduleResponse := {
  dsr_schedule : schedule;
  dsr_doctorName : string
}.

(** [QueueEntryResponse] *)
Record QueueEntryResponse := {
  qer_id : string;
  qer_scheduleId : string;
  qer_patientId : string;
  qer_patientName : string;
  qer_queueNumber : Z;
  qer_status : QueueStatus;
  qer_isReady : bool
}.

Definition queue_entry_response (users : list user_doc) (e : queue_entry)
  : QueueEntryResponse :=
  {| qer_id := qe_id e; qer_scheduleId := qe_scheduleId e;
     qer_patientId := qe_patientId e;
     qer_patientName := user_name users (qe_patientId e) "Unknown";
     qer_queueNumber := qe_queueNumber e; qer_status := qe_status e;
     qer_isReady := qe_isReady e |}.

Definition get_doctor_schedules (user : User)
  : coro (list DoctorScheduleResponse) :=
  schedules <- await (db_schedules_find_sorted by_date
                        (fun s => String.eqb (sch_doctorId s) (u_id user))) ;;
  Return (map (fun s => {| dsr_schedule := s;
                           dsr_doctorName := u_name user |}) schedules).

Definition get_queue (users : list user_doc) (schedule_id : string)
  (user : User) : coro (list QueueEntryResponse) :=
  schedule <- await (db_schedules_find_one
                       (schedule_of_doctor schedule_id (u_id user))) ;;
  _ <- or_raise schedule (HTTP 404 "Schedule not found") ;;
  queue <- await (db_queue_entries_find_sorted by_queueNumber
                    (entry_in_schedule schedule_id)) ;;
  (* Get patient names *)
  Return (map (queue_entry_response users) queue).

(** [CallSessionResponse]: the response model keeps these fields of the
    document and has a [peerId] no handler fills. *)
Record CallSessionResponse := {
  resp_id : string;
  resp_scheduleId : string;
  resp_doctorId : string;
  resp_patientId : string;
  resp_status : CallSessionStatus;
  resp_createdAt : Z;
  resp_confirmedAt : option Z;
  resp_endedAt : option Z;
  resp_peerId : option string
}.

Definition call_session_response (c : call_session) : CallSessionResponse :=
  {| resp_id := cs_id c; resp_scheduleId := cs_scheduleId c;
     resp_doctorId := cs_doctorId c; resp_patientId := cs_patientId c;
     resp_status := cs_status c; resp_createdAt := cs_createdAt c;
     resp_confirmedAt := cs_confirmedAt c; resp_endedAt := cs_endedAt c;
     resp_peerId := None |}.

Definition get_call_session_doctor (call_session_id : string) (user : User)
  : coro CallSessionResponse :=
  session <- await (db_call_sessions_find_one
                      (call_of_doctor call_session_id (u_id user))) ;;
  session <- or_raise session (HTTP 404 "Call session not found") ;;
  Return (call_session_response session).

(** The answer of [get_call_session_status]. *)
Record CallStatusResponse := {
  csr_callSessionId : string;
  csr_status : CallSessionStatus;
  csr_patientId : string;
  csr_patientName : string;
  csr_scheduleId : string
}.

Definition get_call_session_status (users : list user_doc)
  (call_session_id : string) (user : User) : coro CallStatusResponse :=
  session <- await (db_call_sessions_find_one
                      (call_of_doctor call_session_id (u_id user))) ;;
  session <- or_raise session (HTTP 404 "Call session not found") ;;
  Return {| csr_callSessionId := cs_id session;
            csr_status := cs_status session;
            csr_patientId := cs_patientId session;
            csr_patientName :=
              user_name users (cs_patientId session) "Unknown";
            csr_scheduleId := cs_scheduleId session |}.

(** [today] is [datetime.now(timezone.utc).strftime("%Y-%m-%d")]. *)
Definition get_available_schedules (users : list user_doc) (today : string)
  (user : User) : coro (list DoctorScheduleResponse) :=
  schedules <- await (db_schedules_find_sorted by_date_startTime
                        (fun s => String.leb today (sch_date s))) ;;
  (* Get doctor names *)
  Return (map (fun s => {| dsr_schedule := s;
                           dsr_doctorName :=
                             user_name users (sch_doctorId s) "Unknown" |})
            schedules).

(** The answer of [get_schedule_detail]. *)
Record ScheduleDetail := {
  sd_schedule : DoctorScheduleResponse;
  sd_queueEntry : option queue_entry;
  sd_totalInQueue : Z
}.

Definition get_schedule_detail (users : list user_doc) (schedule_id : string)
  (user : User) : coro ScheduleDetail :=
  schedule <- await (db_schedules_find_one (schedule_by_id schedule_id)) ;;
  schedule <- or_raise schedule (HTTP 404 "Schedule not found") ;;
  let doctorName := user_name users (sch_doctorId schedule) "Unknown" in
  (* Get patient's queue entry *)
  queue_entry <- await (db_queue_entries_find_one
                          (entry_of schedule_id (u_id user))) ;;
  (* Get total queue count *)
  total_queue <- await (db_queue_entries_count_documents
                          (entry_in_schedule schedule_id)) ;;
  Return {| sd_schedule := {| dsr_schedule := schedule;
                              dsr_doctorName := doctorName |};
            sd_queueEntry := queue_entry;
            sd_totalInQueue := total_queue |}.

(** [{"patientId": .., "status": INVITED}] *)
Definition invited_patient (patient_id : string) (c : call_session) : bool :=
  String.eqb (cs_patientId c) patient_id
  && CallSessionStatus_eqb (cs_status c) INVITED.

(** The answer of [get_pending_invitation] when [hasInvitation] is true. *)
Record PendingInvitation := {
  pi_callSessionId : string;
  pi_scheduleId : string;
  pi_doctorId : string;
  pi_doctorName : string
}.

(** [None] is [{"hasInvitation": False}]. *)
Definition get_pending_invitation (users : list user_doc) (user : User)
  : coro (option PendingInvitation) :=
  invitation <- await (db_call_sessions_find_one
                         (invited_patient (u_id user))) ;;
  match invitation with
  | Some invitation =>
      Return (Some {| pi_callSessionId := cs_id invitation;
                      pi_scheduleId := cs_scheduleId invitation;
                      pi_doctorId := cs_doctorId invitation;
                      pi_doctorName :=
                        user_name users (cs_doctorId invitation) "Doctor" |})
  | None => Return None
  end.

Definition get_call_session_patient (call_session_id : string) (user : User)
  : coro CallSessionResponse :=
  session <- await (db_call_sessions_find_one
                      (call_of_patient call_session_id (u_id user))) ;;
  session <- or_raise session (HTTP 404 "Call session not found") ;;
  Return (call_session_response session).

(** The answer of [get_call_session]: the session and the two names. *)
Record CallSessionDetail := {
  csd_session : call_session;
  csd_doctorName : string;
  csd_patientName : string
}.

Definition get_call_session (users : list user_doc)
  (call_session_id : string) (user : User) : coro CallSessionDetail :=
  session <- await (db_call_sessions_find_one (call_by_id call_session_id)) ;;
  session <- or_raise session (HTTP 404 "Call session not found") ;;
  (* Verify user is part of this call *)
  raise_if (negb (String.eqb (u_id user) (cs_doctorId session))
            && negb (String.eqb (u_id user) (cs_patientId session)))
    (HTTP 403 "Not authorized") ;;
  Return {| csd_session := session;
            csd_doctorName := user_name users (cs_doctorId session) "Unknown";
            csd_patientName :=
              user_name users (cs_patientId session) "Unknown" |}.

(** ** Socket.IO connection registry

    The module-level dictionaries [connected_users] and [user_sids]. A Python
    [dict] is the list of its items in insertion order. *)

Section Dict.
Context {V : Type}.

(** [d.get(k)] *)
Definition dict_get (k : string) (d : list (string * V)) : option V :=
  option_map snd (find_one (fun kv => String.eqb (fst kv) k) d).

(** [k in d] *)
Definition dict_mem (k : string) (d : list (string * V)) : bool :=
  is_some (dict_get k d).

(** [d[k] = v]: an existing key keeps its place, a new one goes last. *)
Fixpoint dict_set (k : string) (v : V) (d : list (string * V))
  : list (string * V) :=
  match d with
  | [] => [(k, v)]
  | kv :: rest =>
      if String.eqb (fst kv) k then (k, v) :: rest
      else kv :: dict_set k v rest
  end.

(** [del d[k]] *)
Definition dict_del (k : string) (d : list (string * V))
  : list (string * V) :=
  filter (fun kv => negb (String.eqb (fst kv) k)) d.
End Dict.

Record registry := {
  (* {sid: {userId, role}} *)
  connected_users : list (string * (string * string));
  (* {userId: [sid1, sid2, ...]} *)
  user_sids : list (string * list string)
}.

(** [user_sids[user_id]] where the key is present, else no socket. *)
Definition sids_of (user_id : string) (reg : registry) : list string :=
  match dict_get user_id (user_sids reg) with
  | Some sids => sids
  | None => []
  end.

Definition disconnect (sid : string) (reg : registry) : registry :=
  match dict_get sid (connected_users reg) with
  | Some (user_id, _) =>
      let sids :=
        if negb (String.eqb user_id "") && dict_mem user_id (user_sids reg)
        then
          let remaining :=
            filter (fun s => negb (String.eqb s sid)) (sids_of user_id reg) in
          match remaining with
          | [] => dict_del user_id (dict_set user_id remaining (user_sids reg))
          | _ => dict_set user_id remaining (user_sids reg)
          end
        else user_sids reg in
      {| connected_users := dict_del sid (connected_users reg);
         user_sids := sids |}
  | None => reg
  end.

(** What [authenticate] emits to the socket. *)
Inductive auth_failure := NoTokenProvided | TokenRejected (e : HTTPException).
Inductive auth_emission :=
| authenticated (to user_id role : string)
| auth_error (to : string) (message : auth_failure).

(** [decode_token] stands for the JWT library: it rejects a token or yields
    the [user_id] and [role] of its payload. [token] is [data.get('token')]. *)
Definition authenticate
  (decode_token : string -> HTTPException + (string * string))
  (sid : string) (token : option string) (reg : registry)
  : registry * auth_emission :=
  match token with
  | None => (reg, auth_error sid NoTokenProvided)
  | Some token =>
      if String.eqb token "" then (reg, auth_error sid NoTokenProvided)
      else
        match decode_token token with
        | inl e => (reg, auth_error sid (TokenRejected e))
        | inr (user_id, role) =>
            let connected :=
              dict_set sid (user_id, role) (connected_users reg) in
            let sids :=
              if negb (dict_mem user_id (user_sids reg))
              then dict_set user_id [] (user_sids reg)
              else user_sids reg in
            let appended :=
              match dict_get user_id sids with
              | Some l => (l ++ [sid])%list
              | None => [sid]
              end in
            ({| connected_users := connected;
                user_sids := dict_set user_id appended sids |},
             authenticated sid user_id role)
        end
  end.

(** [emit_to_user]: one emission [(sid, event, data)] per socket of the
    user. *)
Definition emit_to_user {P : Type} (reg : registry) (user_id event : string)
  (data : P) : list (string * string * P) :=
  if dict_mem user_id (user_sids reg)
  then map (fun sid => (sid, event, data)) (sids_of user_id reg)
  else [].

(** No user is listed with an empty list of sockets. *)
Definition no_empty_sids (reg : registry) : Prop :=
  forall user_id, dict_get user_id (user_sids reg) <> Some [].

(** ** Seed data

    [seed_data] empties the five collections and fills them again. The
    database is here the [users] collection beside the store;
    [hash_password] stands for bcrypt and [strftime] for
    [datetime.strftime("%Y-%m-%d")]. *)

Record SeedAccount := { sa_email : string; sa_password : string }.

Record SeedResponse := {
  seed_message : string;
  seed_doctor : SeedAccount;
  seed_patients : list SeedAccount;
  seed_schedules : Z;
  seed_queueEntries : Z
}.

Definition patient_names : list (string * string) :=
  [("John Smith", "john@email.com");
   ("Emily Davis", "emily@email.com");
   ("Michael Brown", "michael@email.com");
   ("Jessica Wilson", "jessica@email.com");
   ("David Martinez", "david@email.com")].

Section Seed.
Variable hash_password : string -> string.
Variable strftime : Z -> string.

Definition seed_data (env : Env) (db : list user_doc * store)
  : (list user_doc * store) * SeedResponse :=
  (* Clear existing data; create doctor *)
  let doctor_id := uuid4 env 0 in
  let doctor :=
    {| ud_id := doctor_id; ud_email := "doctor@clinic.com";
       ud_name := "Dr. Sarah Johnson";
       ud_passwordHash := hash_password "doctor123";
       ud_role := "DOCTOR"; ud_createdAt := now env 0 |} in
  (* Create patients *)
  let patients :=
    map (fun '(i, (name, email)) =>
           {| ud_id := uuid4 env (1 + i); ud_email := email; ud_name := name;
              ud_passwordHash := hash_password "patient123";
              ud_role := "PATIENT"; ud_createdAt := now env (1 + i) |})
      (combine (seq 0 (List.length patient_names)) patient_names) in
  (* Create schedules for today *)
  let today := strftime (now env 6) in
  let schedules :=
    [("09:00", "12:00", UPCOMING); ("13:00", "16:00", UPCOMING);
     ("17:00", "19:00", UPCOMING)] in
  let schedule_docs :=
    map (fun '(i, (start, finish, status)) =>
           {| sch_id := uuid4 env (6 + i); sch_doctorId := doctor_id;
              sch_date := today; sch_startTime := start;
              sch_endTime := finish; sch_status := status |})
      (combine (seq 0 (List.length schedules)) schedules) in
  let schedule_ids := map sch_id schedule_docs in
  (* Add 5 patients to first schedule queue *)
  let entries :=
    map (fun '(i, patient) =>
           {| qe_id := uuid4 env (9 + i);
              qe_scheduleId := nth 0 schedule_ids "";
              qe_patientId := ud_id patient;
              qe_queueNumber := Z.of_nat i + 1;
              qe_status := WAITING; qe_isReady := false;
              qe_joinedAt := now env (7 + i) |})
      (combine (seq 0 (List.length patients)) patients) in
  ((doctor :: patients,
    {| schedules := schedule_docs; queue_entries := entries;
       call_sessions := []; audit_logs := [] |}),
   {| seed_message := "Seed data created";
      seed_doctor := {| sa_email := "doctor@clinic.com";
                        sa_password := "doctor123" |};
      seed_patients :=
        map (fun '(_, email) => {| sa_email := email;
                                   sa_password := "patient123" |})
          patient_names;
      seed_schedules := Z.of_nat (List.length schedules);
      seed_queueEntries := Z.of_nat (List.length patients) |}).
End Seed.

(** John has confirmed his invitation; an earlier call with the second
    patient has ended. *)
Definition john_confirmed : store :=
  {| schedules := [morning ONLINE];
     queue_entries := [entry "q-1" "patient-1" 1 IN_CALL true;
                       entry "q-2" "patient-2" 2 DONE false];
     call_sessions :=
       [call "call-0" "patient-2" ENDED 0 (Some 1000000);
        {| cs_id := "call-1"; cs_scheduleId := "sched-1";
           cs_doctorId := "doctor-1"; cs_patientId := "patient-1";
           cs_status := CONFIRMED; cs_createdAt := 2000000;
           cs_confirmedAt := Some 5000000; cs_endedAt := None;
           cs_doctorPeerId := None; cs_patientPeerId := None |}];
     audit_logs := [] |}.

(** ** Running handlers symbolically *)

Ltac run_step :=
  cbn [run bind await or_raise raise_if log_audit fst snd negb is_some
       db_schedules_find_one db_schedules_update_one db_schedules_insert_one
       db_queue_entries_find_one db_queue_entries_find_one_desc
       db_queue_entries_update_one db_queue_entries_insert_one
       db_call_sessions_find_one db_call_sessions_update_one
       db_call_sessions_update_many db_call_sessions_insert_one
       db_audit_logs_insert_one
       with_schedules with_queue_entries with_call_sessions with_audit_logs
       schedules queue_entries call_sessions audit_logs] in *.

Ltac run_case :=
  match goal with
  | |- context [or_raise ?o _] => destruct o eqn:?
  | |- context [raise_if ?c _] => destruct c eqn:?
  | H : context [or_raise ?o _] |- _ => destruct o eqn:?
  | H : context [raise_if ?c _] |- _ => destruct c eqn:?
  end.

Ltac run_handler :=
  unfold serve, handler, create_schedule, start_practice, end_practice,
    start_call, set_doctor_peer_id, end_call_doctor, join_queue, toggle_ready,
    confirm_call, decline_call, set_patient_peer_id, end_call_patient,
    activate_call in *;
  run_step.

Ltac run_all := run_handler; repeat (run_case; run_step).

(** ** Facts about collections *)

Section CollectionFacts.
Context {D : Type}.
Implicit Types (flt P : D -> bool) (patch : D -> D) (coll : list D).

Lemma update_one_map {K : Type} (key : D -> K) flt patch coll :
  (forall d, key (patch d) = key d) ->
  map key (update_one flt patch coll) = map key coll.
Proof.
  intros Hkey. induction coll as [|d rest IH]; cbn; [reflexivity|].
  destruct (flt d); cbn; congruence.
Qed.

Lemma update_many_map {K : Type} (key : D -> K) flt patch coll :
  (forall d, key (patch d) = key d) ->
  map key (update_many flt patch coll) = map key coll.
Proof.
  intros Hkey. unfold update_many. rewrite map_map.
  apply map_ext. intros d. destruct (flt d); auto.
Qed.


(** After [update_one], a query that used to return the patched document
    returns its patched version. *)
Lemma find_update_one flt flt' patch coll d :
  find_one flt coll = Some d ->
  find_one flt' coll = Some d ->
  flt' (patch d) = true ->
  find_one flt' (update_one flt patch coll) = Some (patch d).
Proof.
  unfold find_one. induction coll as [|x rest IH]; cbn; [discriminate|].
  intros H1 H2 Hp. destruct (flt x) eqn:Hx.
  - inversion H1; subst. cbn. now rewrite Hp.
  - cbn. destruct (flt' x) eqn:Hx'.
    + inversion H2; subst. apply find_some in H1. destruct H1; congruence.
    + now apply IH.
Qed.

Lemma filter_update_one_le P flt patch coll :
  (forall d, In d coll -> flt d = true -> P (patch d) = true -> P d = true) ->
  (List.length (filter P (update_one flt patch coll))
   <= List.length (filter P coll))%nat.
Proof.
  induction coll as [|x rest IH]; cbn; intros H; [lia|].
  destruct (flt x) eqn:Hx.
  - cbn. destruct (P (patch x)) eqn:Hp.
    + rewrite (H x) by auto. cbn. lia.
    + destruct (P x); cbn; lia.
  - cbn. assert (IH' := IH (fun d Hd => H d (or_intror Hd))).
    destruct (P x); cbn; lia.
Qed.

Lemma filter_update_many_le P flt patch coll :
  (forall d, In d coll -> flt d = true -> P (patch d) = true -> P d = true) ->
  (List.length (filter P (update_many flt patch coll))
   <= List.length (filter P coll))%nat.
Proof.
  unfold update_many.
  induction coll as [|x rest IH]; cbn; intros H; [lia|].
  assert (IH' := IH (fun d Hd => H d (or_intror Hd))).
  destruct (flt x) eqn:Hx.
  - destruct (P (patch x)) eqn:Hp.
    + rewrite (H x) by auto. cbn. lia.
    + destruct (P x); cbn; lia.
  - destruct (P x); cbn; lia.
Qed.

Lemma filter_absent P coll : find_one P coll = None -> filter P coll = [].
Proof.
  unfold find_one. induction coll as [|x rest IH]; cbn; [reflexivity|].
  destruct (P x); [discriminate | exact IH].
Qed.

Lemma nth_error_update_many flt patch coll i d :
  nth_error coll i = Some d ->
  nth_error (update_many flt patch coll) i
  = Some (if flt d then patch d else d).
Proof.
  intros H. unfold update_many.
  rewrite nth_error_map, H. reflexivity.
Qed.

Lemma nth_error_insert_one coll i d x :
  nth_error coll i = Some d -> nth_error (insert_one x coll) i = Some d.
Proof.
  intros H. unfold insert_one. rewrite nth_error_app1; [exact H|].
  apply nth_error_Some. congruence.
Qed.
End CollectionFacts.

(** Running a handler is taking its steps one after another. *)
Lemma run_step_by_step {A : Type} (m : coro A) (st : store) :
  run m st = run (snd (step m st)) (fst (step m st)).
Proof. destruct m; reflexivity. Qed.

Section CollectionPositions.
Context {D : Type}.
Implicit Types (flt : D -> bool) (patch : D -> D) (coll : list D).

(** A position of the collection holds after [update_one] what it held, or
    the patched first match. *)
Lemma nth_error_update_one flt patch coll i d :
  nth_error coll i = Some d ->
  nth_error (update_one flt patch coll) i = Some d
  \/ (find_one flt coll = Some d
      /\ nth_error (update_one flt patch coll) i = Some (patch d)).
Proof.
  unfold find_one. revert i.
  induction coll as [|x rest IH]; intros [|i]; cbn; try discriminate.
  - intros E; inversion E; subst. destruct (flt d); auto.
  - intros Hi. destruct (flt x) eqn:Hx; cbn; [now left|].
    apply IH in Hi. exact Hi.
Qed.

(** [update_one] leaves every document other than its first match alone. *)
Lemma nth_error_update_one_other flt patch coll i c d :
  find_one flt coll = Some d ->
  nth_error coll i = Some c ->
  c <> d ->
  nth_error (update_one flt patch coll) i = Some c.
Proof.
  intros Hf Hi Hne.
  destruct (nth_error_update_one flt patch coll i c Hi) as [H|[Hf' _]];
    [exact H|].
  rewrite Hf in Hf'. inversion Hf'. congruence.
Qed.

(** [update_one] leaves every document its filter rejects alone. *)
Lemma nth_error_update_one_unmatched flt patch coll i c :
  nth_error coll i = Some c ->
  flt c = false ->
  nth_error (update_one flt patch coll) i = Some c.
Proof.
  intros Hi Hc.
  destruct (nth_error_update_one flt patch coll i c Hi) as [H|[Hf _]];
    [exact H|].
  apply find_some in Hf. destruct Hf as [_ Hf]. congruence.
Qed.

Lemma length_update_one flt patch coll :
  List.length (update_one flt patch coll) = List.length coll.
Proof.
  induction coll as [|x rest IH]; cbn; [reflexivity|].
  destruct (flt x); cbn; congruence.
Qed.

Lemma length_update_many flt patch coll :
  List.length (update_many flt patch coll) = List.length coll.
Proof. unfold update_many. apply length_map. Qed.
End CollectionPositions.

Section CollectionFound.
Context {D : Type}.
Implicit Types (flt P : D -> bool) (patch : D -> D) (coll : list D).

(** [update_one] touches the first match only. *)
Lemma filter_update_one_found P flt patch coll d :
  find_one flt coll = Some d ->
  (P (patch d) = true -> P d = true) ->
  (List.length (filter P (update_one flt patch coll))
   <= List.length (filter P coll))%nat.
Proof.
  unfold find_one. induction coll as [|x rest IH]; cbn; [discriminate|].
  intros Hf Hp. destruct (flt x) eqn:Hx.
  - inversion Hf; subst. cbn. destruct (P (patch d)) eqn:E.
    + rewrite Hp by reflexivity. cbn. lia.
    + destruct (P d); cbn; lia.
  - cbn. specialize (IH Hf Hp). destruct (P x); cbn; lia.
Qed.

Lemma filter_insert_one P coll d :
  filter P (insert_one d coll)
  = (filter P coll ++ (if P d then [d] else []))%list.
Proof. unfold insert_one. rewrite filter_app. reflexivity. Qed.
End CollectionFound.

(** ** Call sessions and their identifiers *)

Lemma find_by_id_unique (flt : call_session -> bool) id calls s :
  NoDup (map cs_id calls) ->
  (forall c, flt c = true -> cs_id c = id) ->
  find_one flt calls = Some s ->
  find_one (call_by_id id) calls = Some s.
Proof.
  unfold find_one, call_by_id. intros Hnd Hid.
  induction calls as [|x rest IH]; cbn; [discriminate|].
  inversion Hnd as [|? ? Hx Hrest]; subst.
  destruct (flt x) eqn:Hfx.
  - intros E; inversion E; subst. rewrite (Hid _ Hfx), String.eqb_refl.
    reflexivity.
  - intros Hf. destruct (String.eqb_spec (cs_id x) id) as [E|E].
    + exfalso. apply Hx. apply find_some in Hf. destruct Hf as [Hin Hfs].
      rewrite E, <- (Hid _ Hfs). now apply in_map.
    + now apply IH.
Qed.

Lemma call_of_patient_id id p c : call_of_patient id p c = true -> cs_id c = id.
Proof.
  unfold call_of_patient. intros H. apply andb_prop in H.
  now apply String.eqb_eq.
Qed.

Lemma call_of_doctor_id id p c : call_of_doctor id p c = true -> cs_id c = id.
Proof.
  unfold call_of_doctor. intros H. apply andb_prop in H.
  now apply String.eqb_eq.
Qed.

Lemma CallSessionStatus_eqb_eq a b :
  CallSessionStatus_eqb a b = true <-> a = b.
Proof. destruct a, b; cbn; split; congruence. Qed.

Lemma QueueStatus_eqb_eq a b : QueueStatus_eqb a b = true <-> a = b.
Proof. destruct a, b; cbn; split; congruence. Qed.

Lemma ScheduleStatus_eqb_eq a b : ScheduleStatus_eqb a b = true <-> a = b.
Proof. destruct a, b; cbn; split; congruence. Qed.

Lemma no_activation_ended s t :
  in_active_set s = false -> no_activation (set_cs_status_endedAt s t).
Proof.
  intros Hs sid c. unfold active_in_schedule. cbn. rewrite Hs.
  rewrite andb_false_r. discriminate.
Qed.

Lemma no_activation_doctor_peer p : no_activation (set_cs_doctorPeerId p).
Proof. intros sid c H. exact H. Qed.

Lemma no_activation_patient_peer p : no_activation (set_cs_patientPeerId p).
Proof. intros sid c H. exact H. Qed.

Lemma count_active_update_one flt patch calls sid :
  no_activation patch ->
  (count_active sid (update_one flt patch calls)
   <= count_active sid calls)%nat.
Proof.
  intros H. apply filter_update_one_le. intros d _ _. apply H.
Qed.

Lemma count_active_update_many flt patch calls sid :
  no_activation patch ->
  (count_active sid (update_many flt patch calls)
   <= count_active sid calls)%nat.
Proof.
  intros H. apply filter_update_many_le. intros d _ _. apply H.
Qed.

(** Moving the session found by [call_by_id] from one active status to
    another adds no active session. *)
Lemma count_active_step id patch calls s sid :
  find_one (call_by_id id) calls = Some s ->
  in_active_set (cs_status s) = true ->
  (forall c, cs_scheduleId (patch c) = cs_scheduleId c) ->
  (count_active sid (update_one (call_by_id id) patch calls)
   <= count_active sid calls)%nat.
Proof.
  intros Hf Ha Hs. apply (filter_update_one_found _ _ _ _ s Hf).
  unfold active_in_schedule. rewrite Hs, Ha. intros H.
  apply andb_prop in H. destruct H as [H _]. now rewrite H.
Qed.

Ltac keep_ids :=
  unfold unique_call_ids in *; run_step;
  rewrite ?update_one_map, ?update_many_map by reflexivity; auto.

(** One request served alone keeps the single active call rule and the
    distinctness of call-session identifiers. *)
Lemma serve_keeps_call_invariants o env st :
  single_active_call st ->
  unique_call_ids st ->
  draws_fresh_call_id o env st ->
  single_active_call (fst (serve o env st))
  /\ unique_call_ids (fst (serve o env st)).
Proof.
  intros Hone Hids Hfresh.
  destruct o; run_all; (split; [intros sid; specialize (Hone sid) | keep_ids]);
    run_step; auto.
  all: try solve
    [ eapply Nat.le_trans; [|exact Hone];
      first [ apply count_active_update_many, no_activation_ended; reflexivity
            | apply count_active_update_one;
              first [ apply no_activation_ended; reflexivity
                    | apply no_activation_doctor_peer
                    | apply no_activation_patient_peer ] ] ].
  - (* start_call inserts only when the swept schedule has no active call *)
    unfold count_active. rewrite filter_insert_one, length_app.
    destruct (find_one _ (update_many _ _ _)) eqn:Hnone; [discriminate|].
    unfold active_in_schedule at 2. cbn [cs_scheduleId cs_status in_active_set].
    rewrite andb_true_r.
    destruct (String.eqb_spec schedule_id sid) as [->|Hne].
    + rewrite (filter_absent _ _ Hnone). cbn. lia.
    + cbn [List.length]. rewrite Nat.add_0_r.
      eapply Nat.le_trans; [|exact Hone].
      apply count_active_update_many, no_activation_ended. reflexivity.
  - (* start_call draws a fresh identifier *)
    unfold insert_one. rewrite map_app, update_many_map by reflexivity.
    cbn. apply NoDup_app. repeat split; auto.
    + constructor; [intros []|constructor].
    + intros x Hx [<-|[]]. exact (Hfresh Hx).
  - (* confirm_call: INVITED to CONFIRMED *)
    eapply Nat.le_trans; [|exact Hone].
    apply negb_false_iff, CallSessionStatus_eqb_eq in Heqb.
    eapply count_active_step; [| |reflexivity].
    + eapply find_by_id_unique; [exact Hids | | eassumption].
      intros c0. apply call_of_patient_id.
    + now rewrite Heqb.
  - (* activate_call: CONFIRMED to ACTIVE *)
    eapply Nat.le_trans; [|exact Hone].
    apply negb_false_iff, CallSessionStatus_eqb_eq in Heqb0.
    eapply count_active_step; [eassumption | | reflexivity].
    now rewrite Heqb0.
Qed.

(** [C1], as amended: requests served one at a time keep the single active
    call rule. Starting from a store where every schedule has at most one
    call session INVITED, CONFIRMED or ACTIVE and call-session identifiers
    are distinct, any sequence of coordinator requests, each served to
    completion before the next and each giving a fresh identifier to the
    session it creates, leaves a store with at most one active session per
    schedule. *)
Theorem serve_all_keeps_single_active_call requests st :
  single_active_call st ->
  unique_call_ids st ->
  fresh_call_ids requests st ->
  single_active_call (serve_all requests st)
  /\ unique_call_ids (serve_all requests st).
Proof.
  revert st. induction requests as [|[o env] rest IH]; intros st H1 H2 Hf;
    cbn [serve_all]; [now split|].
  destruct Hf as [Hf Hrest].
  destruct (serve_keeps_call_invariants o env st H1 H2 Hf) as [H1' H2'].
  now apply IH.
Qed.

Lemma serve_all_keeps_single_active_call_witness :
  let requests :=
    [(StartCall "sched-1" {| patientId := "patient-1" |} dr_sarah,
      env_at 1000000 "a");
     (StartCall "sched-1" {| patientId := "patient-2" |} dr_sarah,
      env_at 2000000 "b");
     (ConfirmCall "a0" john, env_at 3000000 "c")] in
  (single_active_call two_ready /\ unique_call_ids two_ready
   /\ fresh_call_ids requests two_ready)
  /\ single_active_call (serve_all requests two_ready)
  /\ unique_call_ids (serve_all requests two_ready).
Proof.
  assert (H1 : single_active_call two_ready) by (intros sid; cbn; lia).
  assert (H2 : unique_call_ids two_ready) by constructor.
  assert (H3 : fresh_call_ids
                 [(StartCall "sched-1" {| patientId := "patient-1" |}
                     dr_sarah, env_at 1000000 "a");
                  (StartCall "sched-1" {| patientId := "patient-2" |}
                     dr_sarah, env_at 2000000 "b");
                  (ConfirmCall "a0" john, env_at 3000000 "c")] two_ready).
  { vm_compute. repeat split; try tauto.
    intros [H|[]]. discriminate H. }
  split; [auto|].
  exact (serve_all_keeps_single_active_call _ _ H1 H2 H3).
Defined.

(** [C1], as stated, fails: two invitations for the same schedule whose
    database calls interleave (each passes the active-call check before the
    other inserts) both succeed and leave two INVITED sessions; served one
    after the other, the second is rejected. *)
Lemma concurrent_invitations_break_single_active_call :
  single_active_call two_ready
  /\ unique_call_ids two_ready
  /\ run_interleaved race_turns race_first race_second two_ready
     = (fst (fst (run_interleaved race_turns race_first race_second
                    two_ready)),
        Return (RespInvitation "Invitation sent" "a0" INVITED),
        Return (RespInvitation "Invitation sent" "b0" INVITED))
  /\ count_active "sched-1"
       (call_sessions
          (fst (fst (run_interleaved race_turns race_first race_second
                       two_ready)))) = 2%nat
  /\ ~ single_active_call
         (fst (fst (run_interleaved race_turns race_first race_second
                      two_ready)))
  /\ snd (run race_second (fst (run race_first two_ready)))
     = inl CallAlreadyActive.
Proof.
  split; [intros sid; cbn; lia|].
  split; [constructor|].
  split; [reflexivity|].
  split; [reflexivity|].
  split; [|reflexivity].
  intros H. specialize (H "sched-1"). vm_compute in H. lia.
Qed.

(** ** Failed requests *)

(** [C2], as amended: a rejected request leaves every record as it was,
    except that an invitation rejected after its staleness sweep (another
    call is active, the patient is not in the queue or is not ready) leaves
    the store the sweep produced: the stale INVITED sessions of that schedule
    are EXPIRED, nothing else has changed. *)
Theorem failed_request_leaves_store o env st st' e :
  serve o env st = (st', inl e) ->
  match o with
  | StartCall schedule_id _ _ =>
      (e = ScheduleNotFound \/ e = PracticeNotOnline) /\ st' = st
      \/ rejected_after_sweep e
         /\ st' = expire_stale_invitations schedule_id env st
  | _ => st' = st
  end.
Proof.
  intros H. destruct o; run_all;
    try (inversion H; subst; clear H; auto; fail).
  all: inversion H; subst; clear H; right;
    unfold rejected_after_sweep, expire_stale_invitations; run_step; auto.
Qed.

Lemma failed_request_leaves_store_witness :
  let o := StartCall "sched-1" {| patientId := "patient-9" |} dr_sarah in
  let env := env_at 70000000 "a" in
  serve o env john_invited
  = (expire_stale_invitations "sched-1" env john_invited,
     inl PatientNotInQueue)
  /\ ((PatientNotInQueue = ScheduleNotFound
       \/ PatientNotInQueue = PracticeNotOnline)
      /\ expire_stale_invitations "sched-1" env john_invited = john_invited
      \/ rejected_after_sweep PatientNotInQueue
         /\ expire_stale_invitations "sched-1" env john_invited
            = expire_stale_invitations "sched-1" env john_invited).
Proof.
  split; [reflexivity|].
  exact (failed_request_leaves_store
           (StartCall "sched-1" {| patientId := "patient-9" |} dr_sarah)
           (env_at 70000000 "a") john_invited _ _ eq_refl).
Defined.

(** [C2], as stated, fails: an invitation for a patient who is not in the
    queue is rejected after the sweep has already expired John's stale
    invitation. *)
Lemma failed_invitation_mutates_store :
  let o := StartCall "sched-1" {| patientId := "patient-9" |} dr_sarah in
  let env := env_at 70000000 "a" in
  snd (serve o env john_invited) = inl PatientNotInQueue
  /\ call_sessions (fst (serve o env john_invited))
     = [call "call-1" "patient-1" EXPIRED 0 (Some 70000000)]
  /\ fst (serve o env john_invited) <> john_invited.
Proof.
  split; [reflexivity|]. split; [reflexivity|].
  intros H. apply (f_equal call_sessions) in H. vm_compute in H.
  discriminate H.
Qed.

(** ** Readiness flag *)

(** [C3] fails on the code: [confirm_call] sets the entry's status to IN_CALL
    and leaves [isReady] as it was, so the entry of a patient who was READY
    is IN_CALL with [isReady] still true; [end_call_doctor] then makes it
    DONE with [isReady] true. The same store is reached from the empty one
    by create, start, join, ready, invite, confirm. *)
Theorem confirm_call_leaves_isReady :
  let env := env_at 5000000 "a" in
  let confirmed := fst (serve (ConfirmCall "call-1" john) env john_invited) in
  let ended := fst (serve (EndCallDoctor "call-1" dr_sarah) env confirmed) in
  queue_consistent john_invited
  /\ snd (serve (ConfirmCall "call-1" john) env john_invited)
     = inr (RespConfirmed "Call confirmed" "call-1")
  /\ queue_entries confirmed = [entry "q-1" "patient-1" 1 IN_CALL true]
  /\ ~ queue_consistent confirmed
  /\ queue_entries ended = [entry "q-1" "patient-1" 1 DONE true]
  /\ ~ queue_consistent ended
  /\ queue_consistent empty_store
  /\ map (fun q => (qe_status q, qe_isReady q))
       (queue_entries (serve_all consultation_confirmed empty_store))
     = [(IN_CALL, true)]
  /\ ~ queue_consistent (serve_all consultation_confirmed empty_store).
Proof.
  split.
  { repeat constructor. }
  split; [reflexivity|]. split; [reflexivity|].
  split.
  { intros H. inversion H as [|? ? [Hq _] _]. cbn in Hq.
    specialize (Hq eq_refl). discriminate Hq. }
  split; [reflexivity|].
  split.
  { intros H. inversion H as [|? ? [Hq _] _]. cbn in Hq.
    specialize (Hq eq_refl). discriminate Hq. }
  split; [constructor|]. split; [reflexivity|].
  intros H. vm_compute in H. inversion H as [|? ? [Hq _] _].
  specialize (Hq eq_refl). discriminate Hq.
Qed.

(** ** Ending a call *)

(** [end_call_doctor] does not look at the status of the session it ends. *)
Lemma end_call_doctor_any_status id user env st s :
  find_one (call_of_doctor id (u_id user)) (call_sessions st) = Some s ->
  snd (serve (EndCallDoctor id user) env st) = inr (RespMessage "Call ended")
  /\ call_sessions (fst (serve (EndCallDoctor id user) env st))
     = update_one (call_by_id id) (set_cs_status_endedAt ENDED (now env 0))
         (call_sessions st)
  /\ queue_entries (fst (serve (EndCallDoctor id user) env st))
     = update_one (entry_of (cs_scheduleId s) (cs_patientId s))
         (set_qe_status DONE) (queue_entries st).
Proof.
  intros H. run_handler. rewrite H. run_step. auto.
Qed.

Lemma end_call_patient_any_status id user env st s :
  find_one (call_of_patient id (u_id user)) (call_sessions st) = Some s ->
  snd (serve (EndCallPatient id user) env st) = inr (RespMessage "Call ended")
  /\ call_sessions (fst (serve (EndCallPatient id user) env st))
     = update_one (call_by_id id) (set_cs_status_endedAt ENDED (now env 0))
         (call_sessions st)
  /\ queue_entries (fst (serve (EndCallPatient id user) env st))
     = update_one (entry_of (cs_scheduleId s) (u_id user))
         (set_qe_status DONE) (queue_entries st).
Proof.
  intros H. run_handler. rewrite H. run_step. auto.
Qed.

(** [C5] fails on the code: ending a call that the patient had DECLINED is
    accepted, for the doctor and for the patient alike; the session becomes
    ENDED, its [endedAt] is overwritten, and the patient, who was waiting
    again, is marked DONE. The same happens at the end of the requests
    create, start, join, ready, invite, decline, end served from the empty
    store. *)
Theorem end_call_accepts_terminal_session :
  let env := env_at 9000000 "a" in
  snd (serve (EndCallDoctor "call-1" dr_sarah) env john_declined)
  = inr (RespMessage "Call ended")
  /\ call_sessions (fst (serve (EndCallDoctor "call-1" dr_sarah) env
                           john_declined))
     = [call "call-1" "patient-1" ENDED 0 (Some 9000000)]
  /\ queue_entries (fst (serve (EndCallDoctor "call-1" dr_sarah) env
                           john_declined))
     = [entry "q-1" "patient-1" 1 DONE false]
  /\ snd (serve (EndCallPatient "call-1" john) env john_declined)
     = inr (RespMessage "Call ended")
  /\ call_sessions (fst (serve (EndCallPatient "call-1" john) env
                           john_declined))
     = [call "call-1" "patient-1" ENDED 0 (Some 9000000)]
  /\ queue_entries (fst (serve (EndCallPatient "call-1" john) env
                           john_declined))
     = [entry "q-1" "patient-1" 1 DONE false]
  /\ map (fun c => (cs_status c, cs_endedAt c))
       (call_sessions (serve_all consultation_declined empty_store))
     = [(DECLINED, Some 5000000)]
  /\ map qe_status
       (queue_entries (serve_all consultation_declined empty_store))
     = [WAITING]
  /\ map (fun c => (cs_status c, cs_endedAt c))
       (call_sessions
          (serve_all consultation_declined_then_ended empty_store))
     = [(ENDED, Some 9000000)]
  /\ map qe_status
       (queue_entries
          (serve_all consultation_declined_then_ended empty_store))
     = [DONE].
Proof. repeat split; reflexivity. Qed.

(** ** Confirming an invitation *)

(** What [confirm_call] does to an INVITED session of the caller. *)
Lemma confirm_call_invited id user env st s :
  find_one (call_of_patient id (u_id user)) (call_sessions st) = Some s ->
  cs_status s = INVITED ->
  serve (ConfirmCall id user) env st
  = ({| schedules := schedules st;
        queue_entries :=
          update_one (entry_of (cs_scheduleId s) (u_id user))
            (set_qe_status IN_CALL) (queue_entries st);
        call_sessions :=
          update_one (call_by_id id)
            (set_cs_status_confirmedAt CONFIRMED (now env 0))
            (call_sessions st);
        audit_logs :=
          insert_one
            {| al_id := uuid4 env 0; al_actorUserId := u_id user;
               al_actionType := "CALL_CONFIRMED";
               al_scheduleId := Some (cs_scheduleId s);
               al_patientId := Some (u_id user);
               al_callSessionId := Some id;
               al_timestamp := now env 1; al_metadata := [] |}
            (audit_logs st) |},
     inr (RespConfirmed "Call confirmed" id)).
Proof.
  intros Hs Hinv. run_handler. rewrite Hs. run_step. rewrite Hinv.
  reflexivity.
Qed.


Lemma confirmed_session_found id user env calls s :
  NoDup (map cs_id calls) ->
  find_one (call_of_patient id (u_id user)) calls = Some s ->
  find_one (call_of_patient id (u_id user))
    (update_one (call_by_id id)
       (set_cs_status_confirmedAt CONFIRMED (now env 0)) calls)
  = Some (set_cs_status_confirmedAt CONFIRMED (now env 0) s).
Proof.
  intros Hids Hs. apply find_update_one; [|exact Hs|].
  - eapply find_by_id_unique; [exact Hids| |exact Hs].
    intros c. apply call_of_patient_id.
  - apply find_some in Hs. exact (proj2 Hs).
Qed.

Lemma cascaded_entry_found sid pid patch entries q :
  (forall d, qe_scheduleId (patch d) = qe_scheduleId d) ->
  (forall d, qe_patientId (patch d) = qe_patientId d) ->
  find_one (entry_of sid pid) entries = Some q ->
  find_one (entry_of sid pid) (update_one (entry_of sid pid) patch entries)
  = Some (patch q).
Proof.
  intros H1 H2 Hq. apply find_update_one; auto.
  apply find_some in Hq. unfold entry_of in *. rewrite H1, H2.
  exact (proj2 Hq).
Qed.

(** The fields [confirm_call] writes, and the ones it leaves. *)
Lemma confirmed_session_fields id user env calls s :
  NoDup (map cs_id calls) ->
  find_one (call_of_patient id (u_id user)) calls = Some s ->
  exists s',
    find_one (call_of_patient id (u_id user))
      (update_one (call_by_id id)
         (set_cs_status_confirmedAt CONFIRMED (now env 0)) calls) = Some s'
    /\ cs_status s' = CONFIRMED
    /\ cs_confirmedAt s' = Some (now env 0)
    /\ same_call s s'
    /\ cs_endedAt s' = cs_endedAt s
    /\ cs_doctorPeerId s' = cs_doctorPeerId s
    /\ cs_patientPeerId s' = cs_patientPeerId s.
Proof.
  intros Hids Hs.
  exists (set_cs_status_confirmedAt CONFIRMED (now env 0) s).
  split; [exact (confirmed_session_found id user env calls s Hids Hs)|].
  repeat split.
Qed.




(** [C10]: [confirm_call] never looks at [createdAt]. Whatever the age of an
    INVITED session of the patient at the time of the request, the request
    is answered "Call confirmed", the session has status CONFIRMED and
    [confirmedAt] equal to the time of the request afterwards, with
    [createdAt] as it was, and no session of the store is expired by the
    request. *)
Theorem confirm_call_ignores_age id user env st s age :
  unique_call_ids st ->
  find_one (call_of_patient id (u_id user)) (call_sessions st) = Some s ->
  cs_status s = INVITED ->
  now env 0 - cs_createdAt s = age ->
  let st' := fst (serve (ConfirmCall id user) env st) in
  snd (serve (ConfirmCall id user) env st)
  = inr (RespConfirmed "Call confirmed" id)
  /\ (exists s',
         find_one (call_of_patient id (u_id user)) (call_sessions st')
         = Some s'
         /\ cs_status s' = CONFIRMED
         /\ cs_confirmedAt s' = Some (now env 0)
         /\ cs_createdAt s' = cs_createdAt s
         /\ now env 0 - cs_createdAt s' = age)
  /\ forall c, In c (call_sessions st') -> cs_status c = EXPIRED ->
               In c (call_sessions st).
Proof.
  intros Hids Hs Hinv Hage st'. subst st'.
  rewrite (confirm_call_invited _ _ _ _ _ Hs Hinv).
  cbn [fst snd call_sessions].
  split; [reflexivity|]. split.
  { destruct (confirmed_session_fields id user env _ s Hids Hs)
      as (s' & Hf & Hst & Hat & Hsame & _).
    exists s'. destruct Hsame as (_ & _ & _ & _ & Hcr).
    repeat split; auto. now rewrite Hcr. }
  generalize (call_sessions st). intros calls.
  induction calls as [|x rest IH]; cbn; [tauto|].
  destruct (call_by_id id x).
  - intros c [<-|Hin] Hc; [discriminate Hc | now right].
  - intros c [<-|Hin] Hc; [now left | right; now apply IH].
Qed.

Lemma confirm_call_ignores_age_witness :
  let env := env_at 70000000 "a" in
  let st' := fst (serve (ConfirmCall "call-1" john) env john_invited) in
  (unique_call_ids john_invited
   /\ find_one (call_of_patient "call-1" (u_id john))
        (call_sessions john_invited)
      = Some (call "call-1" "patient-1" INVITED 0 None)
   /\ now env 0 - 0 = 70000000
   /\ sixty_seconds < 70000000)
  /\ (exists s',
         find_one (call_of_patient "call-1" (u_id john)) (call_sessions st')
         = Some s'
         /\ cs_status s' = CONFIRMED
         /\ cs_confirmedAt s' = Some 70000000)
  /\ map (fun c => (cs_id c, cs_status c, cs_createdAt c, cs_confirmedAt c))
       (call_sessions st')
     = [("call-1", CONFIRMED, 0, Some 70000000)].
Proof.
  assert (H1 : unique_call_ids john_invited)
    by (repeat constructor; intros []).
  split; [split; [exact H1 | repeat split]|].
  split; [|reflexivity].
  destruct (proj1 (proj2
    (confirm_call_ignores_age "call-1" john (env_at 70000000 "a")
       john_invited _ 70000000 H1 eq_refl eq_refl eq_refl)))
    as (s' & Hf & Hst & Hat & _).
  exists s'. repeat split; assumption.
Defined.

(** ** The staleness sweep of an invitation *)

Lemma expired_not_active sid t c :
  active_in_schedule sid (set_cs_status_endedAt EXPIRED t c) = false.
Proof. unfold active_in_schedule. cbn. apply andb_false_r. Qed.

(** After the sweep, the active-call query finds nothing exactly when every
    active session of the schedule was a stale invitation. *)
Lemma no_active_after_sweep sid t t' calls :
  find_one (active_in_schedule sid)
    (update_many (stale_invitation sid t) (set_cs_status_endedAt EXPIRED t')
       calls) = None
  <-> forall c, In c calls -> active_in_schedule sid c = true ->
                stale_invitation sid t c = true.
Proof.
  unfold find_one, update_many.
  induction calls as [|x rest IH]; cbn.
  - split; [intros _ c [] | reflexivity].
  - destruct (stale_invitation sid t x) eqn:Hst.
    + rewrite expired_not_active, IH. split.
      * intros H c [<-|Hin] Hc; [exact Hst | now apply H].
      * intros H c Hin. apply H. now right.
    + destruct (active_in_schedule sid x) eqn:Hact.
      * split; [discriminate|]. intros H.
        specialize (H x (or_introl eq_refl) Hact). congruence.
      * rewrite IH. split.
        -- intros H c [<-|Hin] Hc; [congruence | now apply H].
        -- intros H c Hin. apply H. now right.
Qed.

Lemma all_stale_or_blocking sid t calls :
  (forall c, In c calls -> active_in_schedule sid c = true ->
             stale_invitation sid t c = true)
  \/ exists c, In c calls /\ active_in_schedule sid c = true
               /\ stale_invitation sid t c = false.
Proof.
  induction calls as [|x rest [IH|(c & Hin & Hc)]].
  - left. intros c [].
  - destruct (active_in_schedule sid x) eqn:Hact.
    + destruct (stale_invitation sid t x) eqn:Hst.
      * left. intros c [<-|Hin] Hc; [exact Hst | now apply IH].
      * right. exists x. split; [now left | auto].
    + left. intros c [<-|Hin] Hc; [congruence | now apply IH].
  - right. exists c. split; [now right | exact Hc].
Qed.

Lemma start_call_online sid req user env st sch :
  find_one (schedule_of_doctor sid (u_id user)) (schedules st) = Some sch ->
  sch_status sch = ONLINE ->
  serve (StartCall sid req user) env st
  = run
      (active_call <- await (db_call_sessions_find_one
                               (active_in_schedule sid)) ;;
       raise_if (is_some active_call) CallAlreadyActive ;;
       queue_entry <- await (db_queue_entries_find_one
                               (entry_of sid (patientId req))) ;;
       queue_entry <- or_raise queue_entry PatientNotInQueue ;;
       raise_if (negb (QueueStatus_eqb (qe_status queue_entry) READY))
         PatientNotReady ;;
       let call_session :=
         {| cs_id := uuid4 env 0; cs_scheduleId := sid;
            cs_doctorId := u_id user; cs_patientId := patientId req;
            cs_status := INVITED; cs_createdAt := now env 2;
            cs_confirmedAt := None; cs_endedAt := None;
            cs_doctorPeerId := None; cs_patientPeerId := None |} in
       await (db_call_sessions_insert_one call_session) ;;
       log_audit env 1 3 (u_id user) "CALL_INVITED" (Some sid)
         (Some (patientId req)) (Some (uuid4 env 0)) [] ;;
       Return (RespInvitation "Invitation sent" (uuid4 env 0) INVITED))%coro
      (expire_stale_invitations sid env st).
Proof.
  intros Hs Hon. unfold serve, handler, start_call.
  cbn [run bind await fst snd db_schedules_find_one]. rewrite Hs.
  cbn [run bind or_raise]. rewrite Hon. reflexivity.
Qed.

(** [C4]: an invitation on a schedule that is ONLINE first turns every
    INVITED session of the schedule created more than 60 seconds before the
    request into EXPIRED with [endedAt] set, whatever the answer; it is
    rejected for an active call only if one is left after that sweep; and
    when the only active sessions of the schedule were such stale
    invitations and the patient is READY, the new INVITED session is
    created. *)
Theorem start_call_sweeps_before_check sid req user env st sch :
  find_one (schedule_of_doctor sid (u_id user)) (schedules st) = Some sch ->
  sch_status sch = ONLINE ->
  let st' := fst (serve (StartCall sid req user) env st) in
  let answer := snd (serve (StartCall sid req user) env st) in
  (forall i c,
      nth_error (call_sessions st) i = Some c ->
      cs_scheduleId c = sid -> cs_status c = INVITED ->
      cs_createdAt c < now env 0 - sixty_seconds ->
      nth_error (call_sessions st') i
      = Some (set_cs_status_endedAt EXPIRED (now env 1) c))
  /\ (answer = inl CallAlreadyActive <->
      exists c, In c (call_sessions st)
                /\ active_in_schedule sid c = true
                /\ stale_invitation sid (now env 0 - sixty_seconds) c = false)
  /\ ((forall c, In c (call_sessions st) ->
                 active_in_schedule sid c = true ->
                 stale_invitation sid (now env 0 - sixty_seconds) c = true) ->
      forall q,
        find_one (entry_of sid (patientId req)) (queue_entries st) = Some q ->
        qe_status q = READY ->
        answer = inr (RespInvitation "Invitation sent" (uuid4 env 0) INVITED)
        /\ In {| cs_id := uuid4 env 0; cs_scheduleId := sid;
                 cs_doctorId := u_id user; cs_patientId := patientId req;
                 cs_status := INVITED; cs_createdAt := now env 2;
                 cs_confirmedAt := None; cs_endedAt := None;
                 cs_doctorPeerId := None; cs_patientPeerId := None |}
             (call_sessions st')).
Proof.
  intros Hs Hon st' answer. subst st' answer.
  rewrite (start_call_online _ _ _ _ _ _ Hs Hon).
  unfold expire_stale_invitations. run_step.
  pose proof (no_active_after_sweep sid (now env 0 - sixty_seconds)
                (now env 1) (call_sessions st)) as Hsweep.
  set (swept := update_many _ _ (call_sessions st)) in *.
  assert (Hstale : forall i c,
             nth_error (call_sessions st) i = Some c ->
             cs_scheduleId c = sid -> cs_status c = INVITED ->
             cs_createdAt c < now env 0 - sixty_seconds ->
             nth_error swept i
             = Some (set_cs_status_endedAt EXPIRED (now env 1) c)).
  { intros i c Hi H1 H2 H3. subst swept.
    rewrite (nth_error_update_many _ _ _ _ _ Hi).
    unfold stale_invitation. apply Z.ltb_lt in H3.
    rewrite H1, H2, H3, String.eqb_refl. reflexivity. }
  destruct (find_one (active_in_schedule sid) swept) as [a|] eqn:Hact.
  - (* another call is still active *)
    run_step. split; [|split].
    + auto.
    + split; [intros _|reflexivity].
      destruct (all_stale_or_blocking sid (now env 0 - sixty_seconds)
                  (call_sessions st)) as [H|H]; [|exact H].
      apply Hsweep in H. discriminate H.
    + intros H. apply Hsweep in H. discriminate H.
  - (* no active call is left *)
    assert (Hall := proj1 Hsweep eq_refl).
    assert (Hno : ~ exists c, In c (call_sessions st)
                /\ active_in_schedule sid c = true
                /\ stale_invitation sid (now env 0 - sixty_seconds) c = false).
    { intros (c & Hin & Hc & Hn). rewrite (Hall c Hin Hc) in Hn.
      discriminate. }
    run_step.
    destruct (find_one (entry_of sid (patientId req)) (queue_entries st))
      as [q|] eqn:Hq; run_step.
    + destruct (QueueStatus_eqb (qe_status q) READY) eqn:Hr; run_step.
      * split; [|split].
        -- intros i c Hi H1 H2 H3. apply nth_error_insert_one. eauto.
        -- split; [discriminate | intros H; contradiction].
        -- intros _ q' Hq' _. split; [reflexivity|].
           unfold insert_one. apply in_or_app. right. now left.
      * split; [auto|]. split.
        -- split; [discriminate | intros H; contradiction].
        -- intros _ q' Hq' Hr'. inversion Hq'; subst.
           rewrite Hr' in Hr. discriminate.
    + split; [auto|]. split.
      * split; [discriminate | intros H; contradiction].
      * intros _ q' Hq'. discriminate.
Qed.

Lemma start_call_sweeps_before_check_witness :
  let req := {| patientId := "patient-1" |} in
  let env := env_at 70000000 "a" in
  (find_one (schedule_of_doctor "sched-1" (u_id dr_sarah))
     (schedules john_invited) = Some (morning ONLINE)
   /\ sch_status (morning ONLINE) = ONLINE)
  /\ nth_error
       (call_sessions
          (fst (serve (StartCall "sched-1" req dr_sarah) env john_invited))) 0
     = Some (call "call-1" "patient-1" EXPIRED 0 (Some 70000000)).
Proof.
  split; [split; reflexivity|].
  exact (proj1
    (start_call_sweeps_before_check "sched-1" {| patientId := "patient-1" |}
       dr_sarah (env_at 70000000 "a") john_invited (morning ONLINE)
       eq_refl eq_refl)
    0%nat (call "call-1" "patient-1" INVITED 0 None)
    eq_refl eq_refl eq_refl eq_refl).
Defined.

(** ** Rejections of an invitation for the patient's queue entry *)

(** [C8], as amended: once the schedule is ONLINE and no call is active after
    the sweep, an invitation for a patient whose queue entry is not READY is
    rejected with 400 "Patient is not ready", and an invitation for a patient
    with no queue entry with 404 "Patient not in queue", a different error. *)
Theorem start_call_patient_rejections sid req user env st sch :
  find_one (schedule_of_doctor sid (u_id user)) (schedules st) = Some sch ->
  sch_status sch = ONLINE ->
  find_one (active_in_schedule sid)
    (call_sessions (expire_stale_invitations sid env st)) = None ->
  let answer := snd (serve (StartCall sid req user) env st) in
  (forall q,
      find_one (entry_of sid (patientId req)) (queue_entries st) = Some q ->
      qe_status q <> READY -> answer = inl PatientNotReady)
  /\ (find_one (entry_of sid (patientId req)) (queue_entries st) = None ->
      answer = inl PatientNotInQueue)
  /\ status_code PatientNotReady = 400
  /\ status_code PatientNotInQueue = 404
  /\ PatientNotInQueue <> PatientNotReady.
Proof.
  intros Hs Hon Hnone answer. subst answer.
  rewrite (start_call_online _ _ _ _ _ _ Hs Hon).
  cbn [run bind await fst snd db_call_sessions_find_one].
  rewrite Hnone. run_step. unfold expire_stale_invitations. run_step.
  split; [|split].
  - intros q Hq Hr. rewrite Hq. run_step.
    destruct (QueueStatus_eqb (qe_status q) READY) eqn:E.
    + apply QueueStatus_eqb_eq in E. contradiction.
    + reflexivity.
  - intros Hq. rewrite Hq. reflexivity.
  - repeat split; try reflexivity. discriminate.
Qed.

Lemma start_call_patient_rejections_witness :
  let req := {| patientId := "patient-9" |} in
  let env := env_at 1000000 "a" in
  (find_one (schedule_of_doctor "sched-1" (u_id dr_sarah))
     (schedules two_ready) = Some (morning ONLINE)
   /\ sch_status (morning ONLINE) = ONLINE
   /\ find_one (active_in_schedule "sched-1")
        (call_sessions (expire_stale_invitations "sched-1" env two_ready))
      = None)
  /\ snd (serve (StartCall "sched-1" req dr_sarah) env two_ready)
     = inl PatientNotInQueue.
Proof.
  split; [repeat split|].
  exact (proj1 (proj2
    (start_call_patient_rejections "sched-1" {| patientId := "patient-9" |}
       dr_sarah (env_at 1000000 "a") two_ready (morning ONLINE)
       eq_refl eq_refl eq_refl)) eq_refl).
Defined.

(** [C8], as stated, fails: with the practice online and no call active, an
    invitation for a patient who has no queue entry is answered 404
    "Patient not in queue", not the 400 "Patient is not ready" that a
    patient who is only waiting gets. *)
Lemma start_call_not_in_queue_is_not_found :
  let env := env_at 1000000 "a" in
  find_one (entry_of "sched-1" "patient-9") (queue_entries two_ready) = None
  /\ snd (serve (StartCall "sched-1" {| patientId := "patient-9" |} dr_sarah)
            env two_ready) = inl (HTTP 404 "Patient not in queue")
  /\ snd (serve (StartCall "sched-1" {| patientId := "patient-9" |} dr_sarah)
            env two_ready) <> inl PatientNotReady
  /\ snd (serve (StartCall "sched-1" {| patientId := "patient-1" |} dr_sarah)
            env john_declined) = inl PatientNotReady.
Proof.
  split; [reflexivity|]. split; [reflexivity|]. split; [|reflexivity].
  vm_compute. discriminate.
Qed.

(** ** Readiness toggles *)

Section CollectionTwice.
Context {D : Type}.
Implicit Types (flt : D -> bool) (patch : D -> D) (coll : list D).

Lemma update_one_twice flt patch patch' coll d :
  find_one flt coll = Some d ->
  flt (patch d) = true ->
  update_one flt patch' (update_one flt patch coll)
  = update_one flt (fun x => patch' (patch x)) coll.
Proof.
  unfold find_one. induction coll as [|x rest IH]; cbn; [discriminate|].
  intros Hf Hp. destruct (flt x) eqn:Hx.
  - inversion Hf; subst. cbn. now rewrite Hp.
  - cbn. rewrite Hx. f_equal. now apply IH.
Qed.

Lemma update_one_fixed flt patch coll d :
  find_one flt coll = Some d -> patch d = d ->
  update_one flt patch coll = coll.
Proof.
  unfold find_one. induction coll as [|x rest IH]; cbn; [discriminate|].
  intros Hf Hp. destruct (flt x) eqn:Hx.
  - inversion Hf; subst. now rewrite Hp.
  - f_equal. now apply IH.
Qed.
End CollectionTwice.

(** What [toggle_ready] does to an entry that is WAITING or READY. *)
Lemma toggle_ready_accepted sid req user env st q :
  find_one (entry_of sid (u_id user)) (queue_entries st) = Some q ->
  qe_status q = WAITING \/ qe_status q = READY ->
  serve (ToggleReady sid req user) env st
  = ({| schedules := schedules st;
        queue_entries :=
          update_one (entry_of sid (u_id user))
            (set_qe_status_isReady
               (if isReady req then READY else WAITING) (isReady req))
            (queue_entries st);
        call_sessions := call_sessions st;
        audit_logs :=
          insert_one
            {| al_id := uuid4 env 0; al_actorUserId := u_id user;
               al_actionType := "READY_TOGGLED";
               al_scheduleId := Some sid; al_patientId := Some (u_id user);
               al_callSessionId := None; al_timestamp := now env 0;
               al_metadata := [("isReady", isReady req)] |}
            (audit_logs st) |},
     inr (RespReady "Ready status updated" (isReady req)
            (if isReady req then READY else WAITING))).
Proof.
  intros Hq Hs. run_handler. rewrite Hq. run_step.
  destruct Hs as [-> | ->]; reflexivity.
Qed.

(** [C9]: for a queue entry that is WAITING or READY, [toggle_ready] with
    [isReady] true followed by [toggle_ready] with [isReady] false is
    accepted twice. After the first request the entry has status READY and
    [isReady] true; after the second it has status WAITING and [isReady]
    false. Its other fields, the other queue entries, the schedules and the
    call sessions are as they were, and an entry that was WAITING and not
    ready is back exactly where it started. *)
Theorem toggle_ready_round_trip sid user env env' st q :
  find_one (entry_of sid (u_id user)) (queue_entries st) = Some q ->
  qe_status q = WAITING \/ qe_status q = READY ->
  let first := serve (ToggleReady sid {| isReady := true |} user) env st in
  let second :=
    serve (ToggleReady sid {| isReady := false |} user) env' (fst first) in
  snd first = inr (RespReady "Ready status updated" true READY)
  /\ (exists q1,
         find_one (entry_of sid (u_id user)) (queue_entries (fst first))
         = Some q1
         /\ qe_status q1 = READY /\ qe_isReady q1 = true /\ same_entry q q1)
  /\ snd second = inr (RespReady "Ready status updated" false WAITING)
  /\ (exists q2,
         find_one (entry_of sid (u_id user)) (queue_entries (fst second))
         = Some q2
         /\ qe_status q2 = WAITING /\ qe_isReady q2 = false
         /\ same_entry q q2)
  /\ (forall i x, nth_error (queue_entries st) i = Some x -> x <> q ->
                  nth_error (queue_entries (fst second)) i = Some x)
  /\ schedules (fst second) = schedules st
  /\ call_sessions (fst second) = call_sessions st
  /\ (qe_status q = WAITING -> qe_isReady q = false ->
      queue_entries (fst second) = queue_entries st).
Proof.
  intros Hq Hs first second. subst second first.
  rewrite (toggle_ready_accepted _ {| isReady := true |} _ _ _ _ Hq Hs).
  cbn [fst snd isReady queue_entries].
  assert (Hq1 : find_one (entry_of sid (u_id user))
                  (update_one (entry_of sid (u_id user))
                     (set_qe_status_isReady READY true) (queue_entries st))
                = Some (set_qe_status_isReady READY true q))
    by (apply cascaded_entry_found; auto).
  match goal with
  | |- context [serve _ env' ?s] =>
      rewrite (toggle_ready_accepted _ {| isReady := false |} _ env' s _ Hq1
                 (or_intror eq_refl))
  end.
  cbn [fst snd isReady queue_entries schedules call_sessions].
  assert (Htwice :
            update_one (entry_of sid (u_id user))
              (set_qe_status_isReady WAITING false)
              (update_one (entry_of sid (u_id user))
                 (set_qe_status_isReady READY true) (queue_entries st))
            = update_one (entry_of sid (u_id user))
                (set_qe_status_isReady WAITING false) (queue_entries st)).
  { rewrite (update_one_twice _ _ _ _ q Hq); [reflexivity|].
    apply find_some in Hq. exact (proj2 Hq). }
  rewrite Htwice.
  split; [reflexivity|]. split.
  { exists (set_qe_status_isReady READY true q).
    split; [exact Hq1 | repeat split]. }
  split; [reflexivity|]. split.
  { exists (set_qe_status_isReady WAITING false q).
    split; [apply cascaded_entry_found; auto | repeat split]. }
  split.
  { intros i x Hi Hne. now apply (nth_error_update_one_other _ _ _ _ _ q). }
  split; [reflexivity|]. split; [reflexivity|].
  intros Hw Hr. apply (update_one_fixed _ _ _ q Hq).
  destruct q; cbn in *. subst. reflexivity.
Qed.

Lemma toggle_ready_round_trip_witness :
  let env := env_at 1000000 "a" in
  let env' := env_at 2000000 "b" in
  let first := serve (ToggleReady "sched-1" {| isReady := true |} john) env
                 john_declined in
  let second := serve (ToggleReady "sched-1" {| isReady := false |} john)
                  env' (fst first) in
  let back := serve (ToggleReady "sched-1" {| isReady := false |} john) env'
                two_ready in
  (find_one (entry_of "sched-1" (u_id john)) (queue_entries john_declined)
   = Some (entry "q-1" "patient-1" 1 WAITING false)
   /\ (WAITING = WAITING \/ WAITING = READY))
  /\ (exists q1,
         find_one (entry_of "sched-1" (u_id john)) (queue_entries (fst first))
         = Some q1 /\ qe_status q1 = READY /\ qe_isReady q1 = true)
  /\ queue_entries (fst first) = [entry "q-1" "patient-1" 1 READY true]
  /\ queue_entries (fst second) = [entry "q-1" "patient-1" 1 WAITING false]
  /\ queue_entries (fst back)
     = [entry "q-1" "patient-1" 1 WAITING false;
        entry "q-2" "patient-2" 2 READY true].
Proof.
  split; [split; [reflexivity | left; reflexivity]|].
  split; [|repeat split; reflexivity].
  destruct (proj1 (proj2
    (toggle_ready_round_trip "sched-1" john (env_at 1000000 "a")
       (env_at 2000000 "b") john_declined
       (entry "q-1" "patient-1" 1 WAITING false)
       eq_refl (or_introl eq_refl)))) as (q1 & Hf & Hs & Hr & _).
  exists q1. repeat split; assumption.
Defined.

(** ** Joining the queue *)

Lemma max_of_bound l :
  match max_of l with
  | Some m => Forall (fun n => n <= m) l
  | None => l = []
  end.
Proof.
  unfold max_of. induction l as [|x rest IH]; cbn [fold_right]; [reflexivity|].
  destruct (fold_right _ None rest) as [m|].
  - constructor; [lia|]. eapply Forall_impl; [|exact IH]. cbn. lia.
  - subst. constructor; [lia | constructor].
Qed.

(** The descending sort of [join_queue] returns an entry that carries the
    largest queue number of the schedule. *)
Lemma find_one_desc_max {D : Type} (key : D -> Z) flt (coll : list D) :
  option_map key (find_one_desc key flt coll)
  = max_of (map key (filter flt coll)).
Proof.
  unfold max_of.
  induction coll as [|x rest IH]; cbn [find_one_desc filter]; [reflexivity|].
  destruct (flt x); [|exact IH]. cbn [map fold_right]. rewrite <- IH.
  destruct (find_one_desc key flt rest) as [b|]; cbn [option_map];
    [|reflexivity].
  destruct (Z.ltb_spec (key x) (key b)); cbn [option_map]; f_equal; lia.
Qed.

Lemma StronglySorted_snoc l x :
  StronglySorted Z.lt l -> Forall (fun n => n < x) l ->
  StronglySorted Z.lt (l ++ [x]).
Proof.
  induction 1 as [|y rest Hs IH Hy]; cbn; intros Hx.
  - repeat constructor.
  - inversion Hx; subst. constructor; [now apply IH|].
    apply Forall_app. split; [exact Hy | repeat constructor; assumption].
Qed.

Lemma StronglySorted_NoDup l : StronglySorted Z.lt l -> NoDup l.
Proof.
  induction 1 as [|y rest Hs IH Hy]; constructor; [|exact IH].
  intros Hin. rewrite Forall_forall in Hy. specialize (Hy y Hin). lia.
Qed.

Lemma queue_numbers_insert sid (e : queue_entry) entries :
  queue_numbers sid (insert_one e entries)
  = (queue_numbers sid entries
     ++ (if entry_in_schedule sid e then [qe_queueNumber e] else []))%list.
Proof.
  unfold queue_numbers. rewrite filter_insert_one, map_app.
  destruct (entry_in_schedule sid e); reflexivity.
Qed.

Lemma queue_numbers_update_one sid flt patch entries :
  (forall d, qe_scheduleId (patch d) = qe_scheduleId d) ->
  (forall d, qe_queueNumber (patch d) = qe_queueNumber d) ->
  queue_numbers sid (update_one flt patch entries) = queue_numbers sid entries.
Proof.
  intros H1 H2. unfold queue_numbers, entry_in_schedule.
  induction entries as [|x rest IH]; cbn; [reflexivity|].
  destruct (flt x); cbn.
  - rewrite H1. destruct (String.eqb (qe_scheduleId x) sid); cbn;
      [rewrite H2|]; reflexivity.
  - destruct (String.eqb (qe_scheduleId x) sid); cbn; [f_equal|]; exact IH.
Qed.

Lemma next_queue_number_desc sid entries :
  match find_one_desc qe_queueNumber (entry_in_schedule sid) entries with
  | Some last => qe_queueNumber last + 1
  | None => 1
  end = next_queue_number sid entries.
Proof.
  unfold next_queue_number, max_queue_number, queue_numbers. rewrite <- find_one_desc_max.
  destruct (find_one_desc _ _ entries); reflexivity.
Qed.


Lemma join_queue_run sid user env st :
  serve (JoinQueue sid user) env st
  = match find_one (schedule_by_id sid) (schedules st) with
    | None => (st, inl ScheduleNotFound)
    | Some _ =>
        if is_some (find_one (entry_of sid (u_id user)) (queue_entries st))
        then (st, inl AlreadyQueued)
        else
          ({| schedules := schedules st;
              queue_entries :=
                insert_one (joined_entry sid user env st) (queue_entries st);
              call_sessions := call_sessions st;
              audit_logs :=
                insert_one
                  {| al_id := uuid4 env 1; al_actorUserId := u_id user;
                     al_actionType := "QUEUE_JOINED";
                     al_scheduleId := Some sid;
                     al_patientId := Some (u_id user);
                     al_callSessionId := None; al_timestamp := now env 1;
                     al_metadata := [] |}
                  (audit_logs st) |},
           inr (RespJoined "Joined queue"
                  (next_queue_number sid (queue_entries st)) (uuid4 env 0)))
    end.
Proof.
  run_handler. destruct (find_one (schedule_by_id sid) (schedules st));
    run_step; [|reflexivity].
  destruct (find_one (entry_of sid (u_id user)) (queue_entries st));
    run_step; [reflexivity|].
  unfold joined_entry. rewrite <- next_queue_number_desc. reflexivity.
Qed.

(** Appending the next number keeps the numbers of every schedule
    increasing. *)
Lemma joined_entry_increasing sid user env st :
  queue_numbers_increasing st ->
  forall s,
    StronglySorted Z.lt
      (queue_numbers s
         (insert_one (joined_entry sid user env st) (queue_entries st))).
Proof.
  intros Hinc s. rewrite queue_numbers_insert.
  unfold entry_in_schedule. cbn [joined_entry qe_scheduleId qe_queueNumber].
  destruct (String.eqb_spec sid s) as [->|Hne].
  - apply StronglySorted_snoc; [apply Hinc|].
    unfold next_queue_number, max_queue_number.
    pose proof (max_of_bound (queue_numbers s (queue_entries st))) as Hb.
    destruct (max_of (queue_numbers s (queue_entries st))) as [m|].
    + eapply Forall_impl; [|exact Hb]. cbn. lia.
    + rewrite Hb. constructor.
  - rewrite app_nil_r. apply Hinc.
Qed.

Lemma join_queue_keeps_increasing sid user env st :
  queue_numbers_increasing st ->
  queue_numbers_increasing (fst (serve (JoinQueue sid user) env st)).
Proof.
  intros Hinc s. rewrite join_queue_run.
  destruct (find_one (schedule_by_id sid) (schedules st)); [|apply Hinc].
  destruct (find_one (entry_of sid (u_id user)) (queue_entries st));
    cbn [is_some fst queue_entries]; [apply Hinc|].
  now apply joined_entry_increasing.
Qed.

(** [C7], as amended: when joins are served one at a time, [join_queue]
    answers 404 "Schedule not found" when the schedule does not exist and
    400 "Already in queue" when the patient has an entry for it; otherwise
    it appends a WAITING, not ready entry whose queue number is the largest
    number of the schedule plus one, or 1 for an empty queue. Queue numbers
    that were strictly increasing in admission order for every schedule,
    hence distinct, still are after the request. *)
Theorem join_queue_numbering sid user env st :
  queue_numbers_increasing st ->
  queue_entries_have_schedules st ->
  let st' := fst (serve (JoinQueue sid user) env st) in
  let answer := snd (serve (JoinQueue sid user) env st) in
  (find_one (schedule_by_id sid) (schedules st) = None ->
   answer = inl ScheduleNotFound /\ st' = st)
  /\ (find_one (entry_of sid (u_id user)) (queue_entries st) <> None ->
      answer = inl AlreadyQueued /\ st' = st)
  /\ (find_one (schedule_by_id sid) (schedules st) <> None ->
      find_one (entry_of sid (u_id user)) (queue_entries st) = None ->
      answer = inr (RespJoined "Joined queue"
                      (next_queue_number sid (queue_entries st))
                      (uuid4 env 0))
      /\ queue_entries st'
         = (queue_entries st
            ++ [{| qe_id := uuid4 env 0; qe_scheduleId := sid;
                   qe_patientId := u_id user;
                   qe_queueNumber :=
                     match max_queue_number sid (queue_entries st) with
                     | Some m => m + 1
                     | None => 1
                     end;
                   qe_status := WAITING; qe_isReady := false;
                   qe_joinedAt := now env 0 |}])%list)
  /\ queue_numbers_increasing st'
  /\ (forall s, NoDup (queue_numbers s (queue_entries st'))).
Proof.
  intros Hinc Hwf st' answer. subst st' answer.
  pose proof (join_queue_keeps_increasing sid user env st Hinc) as Hkeep.
  rewrite join_queue_run in *.
  split; [|split; [|split; [|split]]].
  - intros Hs. rewrite Hs. split; reflexivity.
  - intros He.
    destruct (find_one (entry_of sid (u_id user)) (queue_entries st))
      as [q|] eqn:Hq; [|congruence].
    apply find_some in Hq. destruct Hq as [Hin Hq].
    specialize (Hwf q Hin). unfold entry_of in Hq.
    apply andb_prop in Hq. destruct Hq as [Hq _].
    apply String.eqb_eq in Hq. rewrite Hq in Hwf.
    destruct (find_one (schedule_by_id sid) (schedules st)); [|congruence].
    split; reflexivity.
  - intros Hs He. rewrite He.
    destruct (find_one (schedule_by_id sid) (schedules st)); [|congruence].
    cbn [is_some fst snd queue_entries]. split; reflexivity.
  - exact Hkeep.
  - intros s. apply StronglySorted_NoDup, Hkeep.
Qed.

Lemma join_queue_numbering_witness :
  let env := env_at 1000000 "a" in
  (queue_numbers_increasing two_ready
   /\ queue_entries_have_schedules two_ready)
  /\ snd (serve (JoinQueue "sched-1" {| u_id := "patient-3";
                                        u_name := "Michael Brown" |})
            env two_ready)
     = inr (RespJoined "Joined queue" 3 "a0").
Proof.
  assert (H1 : queue_numbers_increasing two_ready).
  { intros s. unfold queue_numbers, two_ready, entry_in_schedule, entry.
    cbn [queue_entries filter qe_scheduleId].
    destruct (String.eqb "sched-1" s); cbn.
    - repeat constructor.
    - constructor. }
  assert (H2 : queue_entries_have_schedules two_ready).
  { intros q [<-|[<-|[]]]; discriminate. }
  split; [split; assumption|].
  exact (proj1 (proj1 (proj2 (proj2
    (join_queue_numbering "sched-1"
       {| u_id := "patient-3"; u_name := "Michael Brown" |}
       (env_at 1000000 "a") two_ready H1 H2)))
    ltac:(discriminate) eq_refl)).
Defined.

(** [C7], as stated, fails: two joins of the same schedule whose database
    calls interleave (each reads the last queue number before the other
    inserts) are both answered "Joined queue" with number 3, and the queue
    of the schedule then carries the numbers 1, 2, 3, 3, which are neither
    distinct nor strictly increasing; served one after the other, the joins
    get 3 and 4. *)
Lemma concurrent_joins_break_unique_numbers :
  let u3 := {| u_id := "patient-3"; u_name := "Michael Brown" |} in
  let u4 := {| u_id := "patient-4"; u_name := "Jessica Wilson" |} in
  let first := join_queue "sched-1" u3 (env_at 1000000 "a") in
  let second := join_queue "sched-1" u4 (env_at 2000000 "b") in
  let final := run_interleaved join_race_turns first second two_ready in
  queue_numbers_increasing two_ready
  /\ queue_entries_have_schedules two_ready
  /\ queue_numbers "sched-1" (queue_entries two_ready) = [1; 2]
  /\ snd (fst final) = Return (RespJoined "Joined queue" 3 "a0")
  /\ snd final = Return (RespJoined "Joined queue" 3 "b0")
  /\ queue_numbers "sched-1" (queue_entries (fst (fst final))) = [1; 2; 3; 3]
  /\ ~ NoDup (queue_numbers "sched-1" (queue_entries (fst (fst final))))
  /\ ~ queue_numbers_increasing (fst (fst final))
  /\ queue_numbers "sched-1"
       (queue_entries (fst (run second (fst (run first two_ready)))))
     = [1; 2; 3; 4].
Proof.
  cbv zeta.
  split.
  { intros s. unfold queue_numbers, two_ready, entry_in_schedule, entry.
    cbn [queue_entries filter qe_scheduleId].
    destruct (String.eqb "sched-1" s); cbn.
    - repeat constructor.
    - constructor. }
  split; [intros q [<-|[<-|[]]]; discriminate|].
  split; [reflexivity|]. split; [reflexivity|]. split; [reflexivity|].
  split; [reflexivity|].
  split; [|split; [|reflexivity]].
  - intros H. vm_compute in H.
    inversion H as [|? ? _ H1]; subst.
    inversion H1 as [|? ? _ H2]; subst.
    inversion H2 as [|? ? Hn _]; subst.
    apply Hn. left. reflexivity.
  - intros H. specialize (H "sched-1"). vm_compute in H.
    inversion H as [|? ? H1 _]; subst.
    inversion H1 as [|? ? H2 _]; subst.
    inversion H2 as [|? ? _ Hall]; subst.
    inversion Hall as [|? ? Hlt _]; subst. discriminate Hlt.
Qed.

(** ** Invariants of every store the coordinator reaches *)

Section CollectionMembers.
Context {D : Type}.
Implicit Types (flt : D -> bool) (patch : D -> D) (coll : list D).

Lemma in_update_one flt patch coll d :
  In d (update_one flt patch coll) ->
  exists d0, In d0 coll /\ (d = d0 \/ d = patch d0).
Proof.
  induction coll as [|x rest IH]; cbn; [intros []|].
  destruct (flt x); cbn.
  - intros [<-|Hin]; [exists x; auto | exists d; auto].
  - intros [<-|Hin]; [exists x; auto|].
    destruct (IH Hin) as (d0 & H0 & Hd). exists d0. auto.
Qed.

Lemma found_update_one flt flt' patch coll :
  (forall d, flt' (patch d) = flt' d) ->
  find_one flt' coll <> None ->
  find_one flt' (update_one flt patch coll) <> None.
Proof.
  unfold find_one. intros Hp.
  induction coll as [|x rest IH]; cbn; [auto|].
  destruct (flt x); cbn.
  - rewrite Hp. destruct (flt' x); [intros _; discriminate | auto].
  - destruct (flt' x); [intros _; discriminate | auto].
Qed.

Lemma found_insert_one flt' coll d :
  find_one flt' coll <> None -> find_one flt' (insert_one d coll) <> None.
Proof.
  unfold find_one, insert_one.
  induction coll as [|x rest IH]; cbn; [congruence|].
  destruct (flt' x); [intros _; discriminate | auto].
Qed.
End CollectionMembers.

(** No request changes a queue number or the admission order: the numbers of
    every schedule stay strictly increasing. *)
Lemma serve_keeps_queue_numbers_increasing o env st :
  queue_numbers_increasing st ->
  queue_numbers_increasing (fst (serve o env st)).
Proof.
  intros Hinc. destruct o; try (now apply join_queue_keeps_increasing).
  all: run_all; intros sid0; run_step;
    rewrite ?queue_numbers_update_one by reflexivity; apply Hinc.
Qed.

(** [X30]: every queue entry belongs to a schedule of the store, after any
    request, if it did before: schedules are never removed and
    [join_queue] admits patients to existing schedules only. *)
Lemma serve_keeps_queue_entries_have_schedules o env st :
  queue_entries_have_schedules st ->
  queue_entries_have_schedules (fst (serve o env st)).
Proof.
  intros Hwf. unfold queue_entries_have_schedules in *.
  destruct o; run_all; run_step; auto.
  all: try (intros x Hx; apply found_update_one; [reflexivity | auto]; fail).
  all: try (intros x Hx; apply found_insert_one; auto; fail).
  all: try (intros x Hx; apply in_update_one in Hx;
            destruct Hx as (x0 & Hin & [-> | ->]); cbn; auto; fail).
  (* join_queue *)
  intros x Hx. unfold insert_one in Hx. apply in_app_or in Hx.
  destruct Hx as [Hx|[<-|[]]]; [auto|].
  cbn [qe_scheduleId]. congruence.
Qed.

(** [X29]: every request other than [confirm_call], [end_call_doctor] and
    [end_call_patient] keeps [isReady] true exactly for the entries whose
    status is READY: [join_queue], [toggle_ready] and [decline_call] write
    [status] and [isReady] together, and the other requests leave the queue
    entries alone. *)
Lemma serve_keeps_queue_consistent o env st :
  match o with
  | ConfirmCall _ _ | EndCallDoctor _ _ | EndCallPatient _ _ => False
  | _ => True
  end ->
  queue_consistent st ->
  queue_consistent (fst (serve o env st)).
Proof.
  intros Hop Hc. unfold queue_consistent in *.
  destruct o; try contradiction; run_all; run_step; auto.
  - (* join_queue *)
    unfold insert_one. apply Forall_app. split; [exact Hc|].
    repeat constructor; cbn; discriminate.
  - (* toggle_ready *)
    apply Forall_forall. intros x Hx. apply in_update_one in Hx.
    destruct Hx as (x0 & Hin & [-> | ->]).
    + rewrite Forall_forall in Hc. auto.
    + unfold ready_consistent. cbn. destruct (isReady request);
        split; congruence.
  - (* decline_call *)
    apply Forall_forall. intros x Hx. apply in_update_one in Hx.
    destruct Hx as (x0 & Hin & [-> | ->]).
    + rewrite Forall_forall in Hc. auto.
    + unfold ready_consistent. cbn. split; discriminate.
Qed.

(** ** Practice sessions *)

Lemma find_schedule_by_id_unique (flt : schedule -> bool) id scheds s :
  NoDup (map sch_id scheds) ->
  (forall c, flt c = true -> sch_id c = id) ->
  find_one flt scheds = Some s ->
  find_one (schedule_by_id id) scheds = Some s.
Proof.
  unfold find_one, schedule_by_id. intros Hnd Hid.
  induction scheds as [|x rest IH]; cbn; [discriminate|].
  inversion Hnd as [|? ? Hx Hrest]; subst.
  destruct (flt x) eqn:Hfx.
  - intros E; inversion E; subst. rewrite (Hid _ Hfx), String.eqb_refl.
    reflexivity.
  - intros Hf. destruct (String.eqb_spec (sch_id x) id) as [E|E].
    + exfalso. apply Hx. apply find_some in Hf. destruct Hf as [Hin Hfs].
      rewrite E, <- (Hid _ Hfs). now apply in_map.
    + now apply IH.
Qed.

Lemma schedule_of_doctor_id id p c :
  schedule_of_doctor id p c = true -> sch_id c = id.
Proof.
  unfold schedule_of_doctor. intros H. apply andb_prop in H.
  now apply String.eqb_eq.
Qed.

(** The schedule a doctor's request found is the one [update_one] patches. *)
Lemma patched_schedule_found sid uid st sch s :
  unique_schedule_ids st ->
  find_one (schedule_of_doctor sid uid) (schedules st) = Some sch ->
  find_one (schedule_of_doctor sid uid)
    (update_one (schedule_by_id sid) (set_sch_status s) (schedules st))
  = Some (set_sch_status s sch).
Proof.
  intros Hids Hs. apply find_update_one; [|exact Hs|].
  - eapply find_schedule_by_id_unique; [exact Hids| |exact Hs].
    intros c. apply schedule_of_doctor_id.
  - apply find_some in Hs. exact (proj2 Hs).
Qed.

(** [X1]: for a schedule of the calling doctor, [start_practice] is accepted
    exactly when the schedule is UPCOMING. The schedule then has status
    ONLINE and its id, doctor, date and times as before; every other
    schedule, the queue and the call sessions are as they were. A schedule
    that is ONLINE is answered 400 "Practice already started", one that is
    COMPLETED 400 "Practice already completed", and the store stays as it
    was. *)
Theorem start_practice_only_from_upcoming sid user env st sch :
  unique_schedule_ids st ->
  find_one (schedule_of_doctor sid (u_id user)) (schedules st) = Some sch ->
  let st' := fst (serve (StartPractice sid user) env st) in
  let answer := snd (serve (StartPractice sid user) env st) in
  (answered_ok answer <-> sch_status sch = UPCOMING)
  /\ (sch_status sch = UPCOMING ->
      answer = inr (RespPractice "Practice started" ONLINE)
      /\ (exists sch',
             find_one (schedule_of_doctor sid (u_id user)) (schedules st')
             = Some sch'
             /\ sch_status sch' = ONLINE
             /\ sch_id sch' = sch_id sch
             /\ sch_doctorId sch' = sch_doctorId sch
             /\ sch_date sch' = sch_date sch
             /\ sch_startTime sch' = sch_startTime sch
             /\ sch_endTime sch' = sch_endTime sch)
      /\ List.length (schedules st') = List.length (schedules st)
      /\ (forall i c, nth_error (schedules st) i = Some c -> c <> sch ->
                      nth_error (schedules st') i = Some c)
      /\ queue_entries st' = queue_entries st
      /\ call_sessions st' = call_sessions st)
  /\ (sch_status sch = ONLINE ->
      answer = inl (HTTP 400 "Practice already started") /\ st' = st)
  /\ (sch_status sch = COMPLETED ->
      answer = inl (HTTP 400 "Practice already completed") /\ st' = st).
Proof.
  intros Hids Hs st' answer. subst st' answer.
  assert (Hid : find_one (schedule_by_id sid) (schedules st) = Some sch).
  { eapply find_schedule_by_id_unique; [exact Hids| |exact Hs].
    intros c. apply schedule_of_doctor_id. }
  run_handler. rewrite Hs. run_step.
  destruct (sch_status sch) eqn:Hst; cbn [ScheduleStatus_eqb]; run_step.
  - split; [split; [reflexivity | intros _; eexists; reflexivity]|].
    split; [|split; discriminate].
    intros _. split; [reflexivity|].
    split.
    { exists (set_sch_status ONLINE sch).
      split; [apply patched_schedule_found; assumption | repeat split]. }
    split; [apply length_update_one|].
    split; [|split; reflexivity].
    intros i c Hi Hne.
    now apply (nth_error_update_one_other _ _ _ _ _ sch).
  - split; [split; [intros [a Ha]; discriminate | discriminate]|].
    split; [discriminate|]. split; [|discriminate].
    intros _. split; reflexivity.
  - split; [split; [intros [a Ha]; discriminate | discriminate]|].
    split; [discriminate|]. split; [discriminate|].
    intros _. split; reflexivity.
Qed.

Lemma start_practice_only_from_upcoming_witness :
  let evening :=
    {| sch_id := "sched-2"; sch_doctorId := "doctor-1";
       sch_date := "2024-01-02"; sch_startTime := "18:00";
       sch_endTime := "20:00"; sch_status := UPCOMING |} in
  let st := {| schedules := [evening; morning UPCOMING];
               queue_entries := []; call_sessions := [];
               audit_logs := [] |} in
  let st' := fst (serve (StartPractice "sched-1" dr_sarah) (env_at 0 "a") st)
  in
  (unique_schedule_ids st
   /\ find_one (schedule_of_doctor "sched-1" (u_id dr_sarah)) (schedules st)
      = Some (morning UPCOMING))
  /\ snd (serve (StartPractice "sched-1" dr_sarah) (env_at 0 "a") st)
     = inr (RespPractice "Practice started" ONLINE)
  /\ (exists sch',
         find_one (schedule_of_doctor "sched-1" (u_id dr_sarah))
           (schedules st') = Some sch'
         /\ sch_status sch' = ONLINE)
  /\ schedules st' = [evening; morning ONLINE].
Proof.
  cbv zeta.
  match goal with
  | |- (unique_schedule_ids ?s /\ _) /\ _ =>
      assert (H1 : unique_schedule_ids s)
  end.
  { unfold unique_schedule_ids. cbn. repeat constructor.
    - intros [H|[]]. discriminate H.
    - intros []. }
  split; [split; [exact H1 | reflexivity]|].
  destruct (proj1 (proj2
    (start_practice_only_from_upcoming "sched-1" dr_sarah (env_at 0 "a")
       _ _ H1 eq_refl)) eq_refl) as (Ha & (sch' & Hf & Hst & _) & _).
  split; [exact Ha|].
  split; [exists sch'; split; assumption | reflexivity].
Defined.


(** [X2]: no request takes a schedule back in its life cycle or removes it.
    With distinct schedule identifiers (and a fresh one for a schedule that
    is created), every schedule of the store is, after any request, at the
    same position with the same identifier and doctor, and its status is the
    same or a later one in the order UPCOMING, ONLINE, COMPLETED; schedule
    identifiers stay distinct. *)
Theorem schedule_status_never_goes_back o env st :
  unique_schedule_ids st ->
  draws_fresh_schedule_id o env st ->
  let st' := fst (serve o env st) in
  unique_schedule_ids st'
  /\ forall i s,
       nth_error (schedules st) i = Some s ->
       exists s',
         nth_error (schedules st') i = Some s'
         /\ sch_id s' = sch_id s
         /\ sch_doctorId s' = sch_doctorId s
         /\ (status_rank (sch_status s) <= status_rank (sch_status s'))%nat.
Proof.
  intros Hids Hfresh st'. subst st'.
  assert (Hsame : forall i s, nth_error (schedules st) i = Some s ->
            exists s', nth_error (schedules st) i = Some s'
              /\ sch_id s' = sch_id s /\ sch_doctorId s' = sch_doctorId s
              /\ (status_rank (sch_status s)
                  <= status_rank (sch_status s'))%nat).
  { intros i s Hi. exists s. auto. }
  destruct o; run_all; (split; [unfold unique_schedule_ids in *; run_step;
    rewrite ?update_one_map by reflexivity; auto | run_step; auto]).
  - (* create_schedule *)
    unfold insert_one. rewrite map_app. cbn. apply NoDup_app.
    repeat split; auto.
    + constructor; [intros []|constructor].
    + intros x Hx [<-|[]]. exact (Hfresh Hx).
  - intros i s Hi. exists s. split; [now apply nth_error_insert_one | auto].
  - (* start_practice *)
    intros i s0 Hi.
    destruct (nth_error_update_one (schedule_by_id schedule_id)
                (set_sch_status ONLINE) _ _ _ Hi) as [H|[Hf H]].
    + exists s0. auto.
    + exists (set_sch_status ONLINE s0). repeat split; auto.
      assert (Hs : find_one (schedule_by_id schedule_id) (schedules st)
                   = Some s).
      { eapply find_schedule_by_id_unique; [exact Hids| |eassumption].
        intros c. apply schedule_of_doctor_id. }
      rewrite Hs in Hf. inversion Hf; subst.
      destruct (sch_status s0); cbn in *; try discriminate; lia.
  - (* end_practice *)
    intros i s0 Hi.
    destruct (nth_error_update_one (schedule_by_id schedule_id)
                (set_sch_status COMPLETED) _ _ _ Hi) as [H|[Hf H]].
    + exists s0. auto.
    + exists (set_sch_status COMPLETED s0). repeat split; auto.
      destruct (sch_status s0); cbn; lia.
Qed.

Lemma schedule_status_never_goes_back_witness :
  let st := {| schedules := [morning COMPLETED]; queue_entries := [];
               call_sessions := []; audit_logs := [] |} in
  (unique_schedule_ids st
   /\ draws_fresh_schedule_id (StartPractice "sched-1" dr_sarah)
        (env_at 0 "a") st)
  /\ unique_schedule_ids
       (fst (serve (StartPractice "sched-1" dr_sarah) (env_at 0 "a") st)).
Proof.
  assert (H1 : unique_schedule_ids
                 {| schedules := [morning COMPLETED]; queue_entries := [];
                    call_sessions := []; audit_logs := [] |})
    by (repeat constructor; intros []).
  split; [split; [exact H1 | exact I]|].
  exact (proj1 (schedule_status_never_goes_back
                  (StartPractice "sched-1" dr_sarah) (env_at 0 "a") _ H1 I)).
Defined.

(** What [end_practice] does for a schedule of the calling doctor. *)
Lemma end_practice_run sid user env st sch :
  find_one (schedule_of_doctor sid (u_id user)) (schedules st) = Some sch ->
  serve (EndPractice sid user) env st
  = ({| schedules :=
          update_one (schedule_by_id sid) (set_sch_status COMPLETED)
            (schedules st);
        queue_entries := queue_entries st;
        call_sessions :=
          update_many (active_in_schedule sid)
            (set_cs_status_endedAt ENDED (now env 0)) (call_sessions st);
        audit_logs :=
          insert_one
            {| al_id := uuid4 env 0; al_actorUserId := u_id user;
               al_actionType := "PRACTICE_ENDED";
               al_scheduleId := Some sid; al_patientId := None;
               al_callSessionId := None; al_timestamp := now env 1;
               al_metadata := [] |}
            (audit_logs st) |},
     inr (RespPractice "Practice ended" COMPLETED)).
Proof. intros Hs. run_handler. rewrite Hs. reflexivity. Qed.




(** [X4]: once the doctor has ended the practice of a schedule, with distinct
    schedule identifiers, that doctor's later [start_call] on it is answered
    400 "Practice not online" and a later [start_practice] 400 "Practice
    already completed"; neither changes the store. *)
Theorem ended_practice_stays_closed sid user env env' req st sch :
  unique_schedule_ids st ->
  find_one (schedule_of_doctor sid (u_id user)) (schedules st) = Some sch ->
  let ended := fst (serve (EndPractice sid user) env st) in
  serve (StartCall sid req user) env' ended = (ended, inl PracticeNotOnline)
  /\ serve (StartPractice sid user) env' ended
     = (ended, inl (HTTP 400 "Practice already completed")).
Proof.
  intros Hids Hs ended. subst ended.
  rewrite (end_practice_run _ _ _ _ _ Hs). cbn [fst].
  pose proof (patched_schedule_found sid (u_id user) st sch COMPLETED
                Hids Hs) as Hc.
  split; run_handler; rewrite Hc; reflexivity.
Qed.

Lemma ended_practice_stays_closed_witness :
  let ended := fst (serve (EndPractice "sched-1" dr_sarah)
                      (env_at 7000000 "a") john_invited) in
  (unique_schedule_ids john_invited
   /\ find_one (schedule_of_doctor "sched-1" (u_id dr_sarah))
        (schedules john_invited) = Some (morning ONLINE))
  /\ serve (StartCall "sched-1" {| patientId := "patient-1" |} dr_sarah)
       (env_at 8000000 "b") ended
     = (ended, inl PracticeNotOnline).
Proof.
  assert (H1 : unique_schedule_ids john_invited)
    by (repeat constructor; intros []).
  split; [split; [exact H1 | reflexivity]|].
  exact (proj1
    (ended_practice_stays_closed "sched-1" dr_sarah (env_at 7000000 "a")
       (env_at 8000000 "b") {| patientId := "patient-1" |} john_invited
       (morning ONLINE) H1 eq_refl)).
Defined.

(** ** Declining, activating and peer identifiers *)

Lemma decline_call_invited id user env st s :
  find_one (call_of_patient id (u_id user)) (call_sessions st) = Some s ->
  cs_status s = INVITED ->
  serve (DeclineCall id user) env st
  = ({| schedules := schedules st;
        queue_entries :=
          update_one (entry_of (cs_scheduleId s) (u_id user))
            (set_qe_status_isReady WAITING false) (queue_entries st);
        call_sessions :=
          update_one (call_by_id id)
            (set_cs_status_endedAt DECLINED (now env 0)) (call_sessions st);
        audit_logs :=
          insert_one
            {| al_id := uuid4 env 0; al_actorUserId := u_id user;
               al_actionType := "CALL_DECLINED";
               al_scheduleId := Some (cs_scheduleId s);
               al_patientId := Some (u_id user);
               al_callSessionId := Some id;
               al_timestamp := now env 1; al_metadata := [] |}
            (audit_logs st) |},
     inr (RespMessage "Call declined")).
Proof.
  intros Hs Hinv. run_handler. rewrite Hs. run_step. rewrite Hinv.
  reflexivity.
Qed.





(** [X7]: [activate_call] answers 404 when no session has the identifier,
    403 "Not authorized" when the caller is neither its doctor nor its
    patient, 400 with the current status when the session is not CONFIRMED,
    and leaves the store as it was in all three cases. Otherwise the session
    with that identifier has status ACTIVE afterwards and its other fields
    as before; every call session with another identifier, the schedules,
    the queue and the audit log are as they were. *)
Theorem activate_call_only_from_confirmed id user env st :
  let st' := fst (serve (ActivateCall id user) env st) in
  let answer := snd (serve (ActivateCall id user) env st) in
  (find_one (call_by_id id) (call_sessions st) = None ->
   answer = inl (HTTP 404 "Call session not found") /\ st' = st)
  /\ forall s,
       find_one (call_by_id id) (call_sessions st) = Some s ->
       (u_id user <> cs_doctorId s -> u_id user <> cs_patientId s ->
        answer = inl (HTTP 403 "Not authorized") /\ st' = st)
       /\ (u_id user = cs_doctorId s \/ u_id user = cs_patientId s ->
           cs_status s <> CONFIRMED ->
           answer = inl (HTTP 400 ("Cannot activate call in status: "
                                   ++ CallSessionStatus_str (cs_status s)))
           /\ st' = st)
       /\ (u_id user = cs_doctorId s \/ u_id user = cs_patientId s ->
           cs_status s = CONFIRMED ->
           answer = inr (RespMessage "Call activated")
           /\ (exists s',
                  find_one (call_by_id id) (call_sessions st') = Some s'
                  /\ cs_status s' = ACTIVE
                  /\ same_call s s'
                  /\ cs_confirmedAt s' = cs_confirmedAt s
                  /\ cs_endedAt s' = cs_endedAt s
                  /\ cs_doctorPeerId s' = cs_doctorPeerId s
                  /\ cs_patientPeerId s' = cs_patientPeerId s)
           /\ List.length (call_sessions st')
              = List.length (call_sessions st)
           /\ (forall i c, nth_error (call_sessions st) i = Some c ->
                           cs_id c <> id ->
                           nth_error (call_sessions st') i = Some c)
           /\ schedules st' = schedules st
           /\ queue_entries st' = queue_entries st
           /\ audit_logs st' = audit_logs st).
Proof.
  intros st' answer. subst st' answer. run_handler. split.
  - intros Hn. rewrite Hn. split; reflexivity.
  - intros s Hs. rewrite Hs. run_step.
    destruct (String.eqb_spec (u_id user) (cs_doctorId s)) as [Hd|Hd];
      destruct (String.eqb_spec (u_id user) (cs_patientId s)) as [Hp|Hp];
      cbn [negb andb]; run_step.
    4: { split; [intros _ _; split; reflexivity|].
         split; intros [H|H]; contradiction. }
    all: split; [intros H1 H2; contradiction|].
    all: destruct (CallSessionStatus_eqb (cs_status s) CONFIRMED) eqn:E;
      cbn [negb]; run_step.
    all: try (apply CallSessionStatus_eqb_eq in E; split;
              [intros _ Hc; contradiction|];
              intros _ _; split; [reflexivity|];
              split;
              [exists (set_cs_status ACTIVE s);
               split; [|repeat split];
               apply find_update_one; [exact Hs | exact Hs |];
               apply find_some in Hs; exact (proj2 Hs)|];
              split; [apply length_update_one|];
              split; [|repeat split; reflexivity];
              intros i c Hi Hne;
              apply nth_error_update_one_unmatched; [exact Hi|];
              unfold call_by_id; now apply String.eqb_neq).
    all: split; [intros _ _; split; reflexivity|].
    all: intros _ Hc; rewrite Hc in E; discriminate.
Qed.

Lemma activate_call_only_from_confirmed_witness :
  let st' := fst (serve (ActivateCall "call-1" dr_sarah) (env_at 6000000 "a")
                    john_confirmed) in
  nth_error (call_sessions john_confirmed) 1
  = Some {| cs_id := "call-1"; cs_scheduleId := "sched-1";
            cs_doctorId := "doctor-1"; cs_patientId := "patient-1";
            cs_status := CONFIRMED; cs_createdAt := 2000000;
            cs_confirmedAt := Some 5000000; cs_endedAt := None;
            cs_doctorPeerId := None; cs_patientPeerId := None |}
  /\ snd (serve (ActivateCall "call-1" dr_sarah) (env_at 6000000 "a")
            john_confirmed)
     = inr (RespMessage "Call activated")
  /\ (exists s',
         find_one (call_by_id "call-1") (call_sessions st') = Some s'
         /\ cs_status s' = ACTIVE)
  /\ call_sessions st'
     = [call "call-0" "patient-2" ENDED 0 (Some 1000000);
        {| cs_id := "call-1"; cs_scheduleId := "sched-1";
           cs_doctorId := "doctor-1"; cs_patientId := "patient-1";
           cs_status := ACTIVE; cs_createdAt := 2000000;
           cs_confirmedAt := Some 5000000; cs_endedAt := None;
           cs_doctorPeerId := None; cs_patientPeerId := None |}]
  /\ snd (serve (ActivateCall "call-0" dr_sarah) (env_at 6000000 "a")
            john_confirmed)
     = inl (HTTP 400 "Cannot activate call in status: ENDED").
Proof.
  split; [reflexivity|].
  destruct (proj2 (proj2
    (proj2 (activate_call_only_from_confirmed "call-1" dr_sarah
              (env_at 6000000 "a") john_confirmed) _ eq_refl))
    (or_introl eq_refl) eq_refl) as (Ha & (s' & Hf & Hst & _) & _).
  split; [exact Ha|].
  split; [exists s'; split; assumption|].
  split; [reflexivity|].
  exact (proj1 (proj1 (proj2
    (proj2 (activate_call_only_from_confirmed "call-0" dr_sarah
              (env_at 6000000 "a") john_confirmed) _ eq_refl))
    (or_introl eq_refl) ltac:(discriminate))).
Defined.

(** The two peer identifiers of a session can be set in either order. *)
Lemma update_one_commute (flt : call_session -> bool) p1 p2 calls :
  (forall c, flt (p1 c) = flt c) ->
  (forall c, flt (p2 c) = flt c) ->
  (forall c, p1 (p2 c) = p2 (p1 c)) ->
  update_one flt p1 (update_one flt p2 calls)
  = update_one flt p2 (update_one flt p1 calls).
Proof.
  intros H1 H2 Hc. induction calls as [|x rest IH]; cbn; [reflexivity|].
  destruct (flt x) eqn:Hx; cbn.
  - rewrite H1, H2, Hx, Hc. reflexivity.
  - rewrite Hx. f_equal. exact IH.
Qed.

(** [X8]: the peer identifiers are stored whatever the status of the
    session. For a call session found for both its doctor and its patient,
    [set_doctor_peer_id] and [set_patient_peer_id] are both accepted; the
    session then has the doctor's peer identifier and the patient's peer
    identifier of the two requests, its status and its other fields are as
    before, every call session with another identifier is as it was, and
    the two requests leave the same call sessions in either order. Queue,
    schedules and audit log are untouched. *)
Theorem peer_ids_set_in_any_status id doctor patient reqd reqp env env' st s :
  unique_call_ids st ->
  find_one (call_of_doctor id (u_id doctor)) (call_sessions st) = Some s ->
  find_one (call_of_patient id (u_id patient)) (call_sessions st) = Some s ->
  let d_first := fst (serve (SetDoctorPeerId id reqd doctor) env st) in
  let both := fst (serve (SetPatientPeerId id reqp patient) env' d_first) in
  let p_first := fst (serve (SetPatientPeerId id reqp patient) env' st) in
  let both' := fst (serve (SetDoctorPeerId id reqd doctor) env p_first) in
  snd (serve (SetDoctorPeerId id reqd doctor) env st)
  = inr (RespMessage "Peer ID set")
  /\ snd (serve (SetPatientPeerId id reqp patient) env' d_first)
     = inr (RespMessage "Peer ID set")
  /\ (exists s1,
         find_one (call_by_id id) (call_sessions d_first) = Some s1
         /\ cs_doctorPeerId s1 = Some (peerId reqd)
         /\ cs_patientPeerId s1 = cs_patientPeerId s)
  /\ (exists s2,
         find_one (call_by_id id) (call_sessions both) = Some s2
         /\ cs_doctorPeerId s2 = Some (peerId reqd)
         /\ cs_patientPeerId s2 = Some (peerId reqp)
         /\ cs_status s2 = cs_status s
         /\ same_call s s2
         /\ cs_confirmedAt s2 = cs_confirmedAt s
         /\ cs_endedAt s2 = cs_endedAt s)
  /\ (forall i c, nth_error (call_sessions st) i = Some c -> cs_id c <> id ->
                  nth_error (call_sessions both) i = Some c)
  /\ call_sessions both' = call_sessions both
  /\ queue_entries both = queue_entries st
  /\ schedules both = schedules st
  /\ audit_logs both = audit_logs st.
Proof.
  intros Hids Hd Hp d_first both p_first both'.
  assert (Hid : find_one (call_by_id id) (call_sessions st) = Some s).
  { eapply find_by_id_unique; [exact Hids| |exact Hp].
    intros c. apply call_of_patient_id. }
  assert (Hd1 : forall p, find_one (call_of_patient id (u_id patient))
                  (update_one (call_by_id id) (set_cs_doctorPeerId p)
                     (call_sessions st))
                = Some (set_cs_doctorPeerId p s)).
  { intros p. apply find_update_one; [exact Hid | exact Hp|].
    apply find_some in Hp. exact (proj2 Hp). }
  assert (Hp1 : forall p, find_one (call_of_doctor id (u_id doctor))
                  (update_one (call_by_id id) (set_cs_patientPeerId p)
                     (call_sessions st))
                = Some (set_cs_patientPeerId p s)).
  { intros p. apply find_update_one; [exact Hid | exact Hd|].
    apply find_some in Hd. exact (proj2 Hd). }
  assert (Hd2 : find_one (call_by_id id)
                  (update_one (call_by_id id)
                     (set_cs_doctorPeerId (peerId reqd)) (call_sessions st))
                = Some (set_cs_doctorPeerId (peerId reqd) s)).
  { apply find_update_one; [exact Hid | exact Hid|].
    apply find_some in Hid. exact (proj2 Hid). }
  subst d_first both p_first both'. run_handler. rewrite Hd, Hp. run_step.
  rewrite Hd1, Hp1. run_step.
  split; [reflexivity|]. split; [reflexivity|].
  split.
  { exists (set_cs_doctorPeerId (peerId reqd) s).
    split; [exact Hd2 | split; reflexivity]. }
  split.
  { exists (set_cs_patientPeerId (peerId reqp)
              (set_cs_doctorPeerId (peerId reqd) s)).
    split; [|repeat split].
    apply find_update_one; [exact Hd2 | exact Hd2 |].
    apply find_some in Hid. exact (proj2 Hid). }
  split.
  { intros i c Hi Hne.
    assert (Hc : call_by_id id c = false)
      by (unfold call_by_id; now apply String.eqb_neq).
    apply nth_error_update_one_unmatched; [|exact Hc].
    apply nth_error_update_one_unmatched; [exact Hi | exact Hc]. }
  split; [|repeat split; reflexivity].
  apply update_one_commute; reflexivity.
Qed.

Lemma peer_ids_set_in_any_status_witness :
  let reqd := {| peerId := "peer-d" |} in
  let reqp := {| peerId := "peer-p" |} in
  let d_first := fst (serve (SetDoctorPeerId "call-1" reqd dr_sarah)
                        (env_at 1 "a") john_declined) in
  let both := fst (serve (SetPatientPeerId "call-1" reqp john)
                     (env_at 2 "b") d_first) in
  (unique_call_ids john_declined
   /\ find_one (call_of_doctor "call-1" (u_id dr_sarah))
        (call_sessions john_declined)
      = Some (call "call-1" "patient-1" DECLINED 0 (Some 5000000))
   /\ find_one (call_of_patient "call-1" (u_id john))
        (call_sessions john_declined)
      = Some (call "call-1" "patient-1" DECLINED 0 (Some 5000000)))
  /\ snd (serve (SetDoctorPeerId "call-1" reqd dr_sarah) (env_at 1 "a")
            john_declined)
     = inr (RespMessage "Peer ID set")
  /\ (exists s2,
         find_one (call_by_id "call-1") (call_sessions both) = Some s2
         /\ cs_doctorPeerId s2 = Some "peer-d"
         /\ cs_patientPeerId s2 = Some "peer-p"
         /\ cs_status s2 = DECLINED)
  /\ call_sessions both
     = [{| cs_id := "call-1"; cs_scheduleId := "sched-1";
           cs_doctorId := "doctor-1"; cs_patientId := "patient-1";
           cs_status := DECLINED; cs_createdAt := 0;
           cs_confirmedAt := None; cs_endedAt := Some 5000000;
           cs_doctorPeerId := Some "peer-d";
           cs_patientPeerId := Some "peer-p" |}].
Proof.
  assert (H1 : unique_call_ids john_declined)
    by (repeat constructor; intros []).
  split; [split; [exact H1 | split; reflexivity]|].
  destruct (peer_ids_set_in_any_status "call-1" dr_sarah john
              {| peerId := "peer-d" |} {| peerId := "peer-p" |}
              (env_at 1 "a") (env_at 2 "b") john_declined _ H1
              eq_refl eq_refl)
    as (Ha & _ & _ & (s2 & Hf & Hdp & Hpp & Hst & _) & _).
  split; [exact Ha|].
  split; [exists s2; repeat split; assumption | reflexivity].
Defined.

(** ** Consultations from invitation to the next invitation *)

Section CollectionSingle.
Context {D : Type}.
Implicit Types (flt P : D -> bool) (patch : D -> D) (coll : list D).

(** When at most one document satisfies [P] and [update_one] takes it out of
    [P], none is left. *)
Lemma filter_update_one_last P flt patch coll d :
  (List.length (filter P coll) <= 1)%nat ->
  find_one flt coll = Some d ->
  P d = true -> P (patch d) = false ->
  filter P (update_one flt patch coll) = [].
Proof.
  unfold find_one. induction coll as [|x rest IH]; cbn; [discriminate|].
  intros Hlen Hf Hd Hp. destruct (flt x) eqn:Hx.
  - inversion Hf; subst. rewrite Hd in Hlen. cbn in *. rewrite Hp.
    destruct (filter P rest); [reflexivity | cbn in Hlen; lia].
  - cbn. destruct (P x) eqn:HPx.
    + exfalso. apply find_some in Hf. destruct Hf as [Hin _].
      assert (Hin' : In d (filter P rest)) by (apply filter_In; auto).
      cbn in Hlen. destruct (filter P rest); [destruct Hin' | cbn in Hlen; lia].
    + now apply IH.
Qed.

Lemma filter_nil_find P coll : filter P coll = [] -> find_one P coll = None.
Proof.
  unfold find_one. induction coll as [|x rest IH]; cbn; [reflexivity|].
  destruct (P x); [discriminate | exact IH].
Qed.
End CollectionSingle.

Lemma swept_keeps_none sid t t' calls :
  filter (active_in_schedule sid) calls = [] ->
  find_one (active_in_schedule sid)
    (update_many (stale_invitation sid t) (set_cs_status_endedAt EXPIRED t')
       calls) = None.
Proof.
  intros Hnone. apply no_active_after_sweep. intros c Hin Hc.
  assert (Hc' : In c (filter (active_in_schedule sid) calls))
    by (apply filter_In; auto).
  rewrite Hnone in Hc'. destruct Hc'.
Qed.

(** What [start_call] does when it gets through all its checks. *)
Lemma start_call_accepted sid req user env st sch q :
  find_one (schedule_of_doctor sid (u_id user)) (schedules st) = Some sch ->
  sch_status sch = ONLINE ->
  find_one (active_in_schedule sid)
    (call_sessions (expire_stale_invitations sid env st)) = None ->
  find_one (entry_of sid (patientId req)) (queue_entries st) = Some q ->
  qe_status q = READY ->
  serve (StartCall sid req user) env st
  = ({| schedules := schedules st;
        queue_entries := queue_entries st;
        call_sessions :=
          insert_one
            {| cs_id := uuid4 env 0; cs_scheduleId := sid;
               cs_doctorId := u_id user; cs_patientId := patientId req;
               cs_status := INVITED; cs_createdAt := now env 2;
               cs_confirmedAt := None; cs_endedAt := None;
               cs_doctorPeerId := None; cs_patientPeerId := None |}
            (call_sessions (expire_stale_invitations sid env st));
        audit_logs :=
          insert_one
            {| al_id := uuid4 env 1; al_actorUserId := u_id user;
               al_actionType := "CALL_INVITED";
               al_scheduleId := Some sid;
               al_patientId := Some (patientId req);
               al_callSessionId := Some (uuid4 env 0);
               al_timestamp := now env 3; al_metadata := [] |}
            (audit_logs st) |},
     inr (RespInvitation "Invitation sent" (uuid4 env 0) INVITED)).
Proof.
  intros Hs Hon Hnone Hq Hr.
  rewrite (start_call_online _ _ _ _ _ _ Hs Hon).
  cbn [run bind await fst snd db_call_sessions_find_one].
  rewrite Hnone. unfold expire_stale_invitations in *. run_step.
  rewrite Hq. run_step. rewrite Hr. reflexivity.
Qed.

(** An accepted invitation went through all the checks of [start_call]. *)
Lemma start_call_accepted_inv sid req user env st r :
  snd (serve (StartCall sid req user) env st) = inr r ->
  exists sch q,
    find_one (schedule_of_doctor sid (u_id user)) (schedules st) = Some sch
    /\ sch_status sch = ONLINE
    /\ find_one (active_in_schedule sid)
         (call_sessions (expire_stale_invitations sid env st)) = None
    /\ find_one (entry_of sid (patientId req)) (queue_entries st) = Some q
    /\ qe_status q = READY.
Proof.
  intros H. unfold expire_stale_invitations. run_all; try discriminate.
  match goal with
  | Hs : find_one (schedule_of_doctor _ _) _ = Some ?s,
    Hq : find_one (entry_of _ _) _ = Some ?e |- _ => exists s, e
  end.
  repeat match goal with
         | Hb : negb _ = false |- _ => apply negb_false_iff in Hb
         end.
  repeat split; auto.
  - now apply ScheduleStatus_eqb_eq.
  - destruct (find_one (active_in_schedule sid) _); [discriminate|reflexivity].
  - now apply QueueStatus_eqb_eq.
Qed.

(** [X6]: a declined invitation frees the schedule. In a store that obeys the
    single active call rule, once the patient has declined the INVITED
    session and set ready again, the doctor's next invitation of that patient
    on the same ONLINE schedule is accepted, and the new INVITED session is
    then the only active one of the schedule. *)
Theorem declined_patient_invited_again
  id patient doctor env1 env2 env3 st s sch q :
  single_active_call st ->
  unique_call_ids st ->
  find_one (call_of_patient id (u_id patient)) (call_sessions st) = Some s ->
  cs_status s = INVITED ->
  find_one (schedule_of_doctor (cs_scheduleId s) (u_id doctor)) (schedules st)
  = Some sch ->
  sch_status sch = ONLINE ->
  find_one (entry_of (cs_scheduleId s) (u_id patient)) (queue_entries st)
  = Some q ->
  let sid := cs_scheduleId s in
  let declined := fst (serve (DeclineCall id patient) env1 st) in
  let ready :=
    fst (serve (ToggleReady sid {| isReady := true |} patient) env2
           declined) in
  let invite := StartCall sid {| patientId := u_id patient |} doctor in
  count_active sid (call_sessions declined) = 0%nat
  /\ snd (serve invite env3 ready)
     = inr (RespInvitation "Invitation sent" (uuid4 env3 0) INVITED)
  /\ count_active sid (call_sessions (fst (serve invite env3 ready))) = 1%nat.
Proof.
  intros Hone Hids Hs Hinv Hsch Hon Hq sid declined ready invite.
  subst declined ready invite.
  assert (Hid : find_one (call_by_id id) (call_sessions st) = Some s).
  { eapply find_by_id_unique; [exact Hids| |exact Hs].
    intros c. apply call_of_patient_id. }
  assert (Hfree : filter (active_in_schedule sid)
                    (update_one (call_by_id id)
                       (set_cs_status_endedAt DECLINED (now env1 0))
                       (call_sessions st)) = []).
  { apply (filter_update_one_last _ _ _ _ s); auto.
    - apply Hone.
    - unfold active_in_schedule, sid. now rewrite String.eqb_refl, Hinv.
    - unfold active_in_schedule. cbn. apply andb_false_r. }
  rewrite (decline_call_invited _ _ _ _ _ Hs Hinv). cbn [fst call_sessions].
  split; [unfold count_active; now rewrite Hfree|].
  assert (Hq1 : find_one (entry_of sid (u_id patient))
                  (update_one (entry_of sid (u_id patient))
                     (set_qe_status_isReady WAITING false) (queue_entries st))
                = Some (set_qe_status_isReady WAITING false q))
    by (apply cascaded_entry_found; auto).
  match goal with
  | |- context [serve (ToggleReady _ _ _) env2 ?d] =>
      rewrite (toggle_ready_accepted sid {| isReady := true |} patient env2 d
                 _ Hq1 (or_introl eq_refl))
  end.
  cbn [fst isReady].
  match goal with
  | |- context [serve (StartCall _ _ _) env3 ?d] =>
      rewrite (start_call_accepted sid {| patientId := u_id patient |} doctor
                 env3 d sch
                 (set_qe_status_isReady READY true
                    (set_qe_status_isReady WAITING false q)))
  end.
  - cbn [fst snd call_sessions]. split; [reflexivity|].
    unfold count_active, expire_stale_invitations. run_step.
    rewrite filter_insert_one, length_app.
    rewrite (filter_absent _ _ (swept_keeps_none sid _ _ _ Hfree)).
    unfold active_in_schedule. cbn. now rewrite String.eqb_refl.
  - exact Hsch.
  - exact Hon.
  - unfold expire_stale_invitations. run_step.
    now apply swept_keeps_none.
  - cbn [queue_entries patientId]. apply cascaded_entry_found; auto.
  - reflexivity.
Qed.

Lemma declined_patient_invited_again_witness :
  (single_active_call john_invited /\ unique_call_ids john_invited
   /\ find_one (call_of_patient "call-1" (u_id john))
        (call_sessions john_invited)
      = Some (call "call-1" "patient-1" INVITED 0 None)
   /\ find_one (schedule_of_doctor "sched-1" (u_id dr_sarah))
        (schedules john_invited) = Some (morning ONLINE)
   /\ find_one (entry_of "sched-1" (u_id john)) (queue_entries john_invited)
      = Some (entry "q-1" "patient-1" 1 READY true))
  /\ snd (serve (StartCall "sched-1" {| patientId := "patient-1" |} dr_sarah)
            (env_at 3000000 "c")
            (fst (serve (ToggleReady "sched-1" {| isReady := true |} john)
                    (env_at 2000000 "b")
                    (fst (serve (DeclineCall "call-1" john)
                            (env_at 1000000 "a") john_invited)))))
     = inr (RespInvitation "Invitation sent" "c0" INVITED).
Proof.
  assert (H1 : single_active_call john_invited).
  { intros sid. unfold count_active, john_invited.
    cbn [call_sessions filter].
    destruct (active_in_schedule sid _); cbn; lia. }
  assert (H2 : unique_call_ids john_invited)
    by (repeat constructor; intros []).
  split; [repeat split; assumption|].
  exact (proj1 (proj2
    (declined_patient_invited_again "call-1" john dr_sarah
       (env_at 1000000 "a") (env_at 2000000 "b") (env_at 3000000 "c")
       john_invited _ (morning ONLINE) _ H1 H2 eq_refl eq_refl eq_refl
       eq_refl eq_refl))).
Defined.

Lemma end_call_doctor_run id user env st s :
  find_one (call_of_doctor id (u_id user)) (call_sessions st) = Some s ->
  serve (EndCallDoctor id user) env st
  = ({| schedules := schedules st;
        queue_entries :=
          update_one (entry_of (cs_scheduleId s) (cs_patientId s))
            (set_qe_status DONE) (queue_entries st);
        call_sessions :=
          update_one (call_by_id id)
            (set_cs_status_endedAt ENDED (now env 0)) (call_sessions st);
        audit_logs :=
          insert_one
            {| al_id := uuid4 env 0; al_actorUserId := u_id user;
               al_actionType := "CALL_ENDED";
               al_scheduleId := Some (cs_scheduleId s);
               al_patientId := Some (cs_patientId s);
               al_callSessionId := Some id;
               al_timestamp := now env 1; al_metadata := [] |}
            (audit_logs st) |},
     inr (RespMessage "Call ended")).
Proof. intros Hs. run_handler. rewrite Hs. reflexivity. Qed.

(** [X9]: on the store [end_call_doctor] leaves, the queue entry of the
    session's patient has status DONE, with its other fields and the other
    queue entries as they were. A [toggle_ready] of the patient served on
    that store is answered 400 "Consultation already completed" and changes
    nothing; a [start_call] for that patient on that schedule served on that
    store is not accepted, whoever sends it, and leaves the queue entries as
    they are. This holds for the request served next only: a later
    [decline_call] of another invitation puts the entry back to WAITING. *)
Theorem ended_patient_is_done id doctor patient env env' env'' req st s q :
  find_one (call_of_doctor id (u_id doctor)) (call_sessions st) = Some s ->
  find_one (entry_of (cs_scheduleId s) (cs_patientId s)) (queue_entries st)
  = Some q ->
  u_id patient = cs_patientId s ->
  let sid := cs_scheduleId s in
  let ended := fst (serve (EndCallDoctor id doctor) env st) in
  (exists q',
      find_one (entry_of sid (cs_patientId s)) (queue_entries ended)
      = Some q'
      /\ qe_status q' = DONE
      /\ qe_isReady q' = qe_isReady q
      /\ same_entry q q')
  /\ (forall i x, nth_error (queue_entries st) i = Some x -> x <> q ->
                  nth_error (queue_entries ended) i = Some x)
  /\ serve (ToggleReady sid req patient) env' ended
     = (ended, inl (HTTP 400 "Consultation already completed"))
  /\ forall doctor',
       ~ answered_ok
           (snd (serve (StartCall sid {| patientId := cs_patientId s |}
                          doctor') env'' ended))
       /\ queue_entries
            (fst (serve (StartCall sid {| patientId := cs_patientId s |}
                           doctor') env'' ended))
          = queue_entries ended.
Proof.
  intros Hs Hq Hp sid ended. subst ended sid.
  rewrite (end_call_doctor_run _ _ _ _ _ Hs). cbn [fst queue_entries].
  assert (Hdone : find_one (entry_of (cs_scheduleId s) (cs_patientId s))
                    (update_one (entry_of (cs_scheduleId s) (cs_patientId s))
                       (set_qe_status DONE) (queue_entries st))
                  = Some (set_qe_status DONE q))
    by (apply cascaded_entry_found; auto).
  split.
  { exists (set_qe_status DONE q). split; [exact Hdone | repeat split]. }
  split.
  { intros i x Hi Hne. now apply (nth_error_update_one_other _ _ _ _ _ q). }
  split.
  - run_handler. rewrite Hp, Hdone. reflexivity.
  - intros doctor'. split.
    + intros [r Hr]. apply start_call_accepted_inv in Hr.
      destruct Hr as (sch & q' & _ & _ & _ & Hq' & Hready).
      cbn [queue_entries patientId] in Hq'.
      rewrite Hdone in Hq'. inversion Hq'; subst. discriminate Hready.
    + run_all; reflexivity.
Qed.

Lemma ended_patient_is_done_witness :
  let ended := fst (serve (EndCallDoctor "call-1" dr_sarah)
                      (env_at 5000000 "a") john_invited) in
  let ready := ToggleReady "sched-1" {| isReady := true |} john in
  let invite := StartCall "sched-1" {| patientId := "patient-1" |} dr_sarah in
  let revived :=
    serve_all [(invite, env_at 1000000 "a");
               (DeclineCall "a0" john, env_at 2000000 "b");
               (ready, env_at 3000000 "c");
               (invite, env_at 4000000 "d");
               (EndCallDoctor "a0" dr_sarah, env_at 5000000 "e");
               (DeclineCall "d0" john, env_at 6000000 "f");
               (ready, env_at 7000000 "g")] two_ready in
  (find_one (call_of_doctor "call-1" (u_id dr_sarah))
     (call_sessions john_invited)
   = Some (call "call-1" "patient-1" INVITED 0 None)
   /\ find_one (entry_of "sched-1" "patient-1") (queue_entries john_invited)
      = Some (entry "q-1" "patient-1" 1 READY true)
   /\ u_id john = "patient-1")
  /\ (exists q',
         find_one (entry_of "sched-1" "patient-1") (queue_entries ended)
         = Some q' /\ qe_status q' = DONE)
  /\ queue_entries ended = [entry "q-1" "patient-1" 1 DONE true]
  /\ serve ready (env_at 6000000 "b") ended
     = (ended, inl (HTTP 400 "Consultation already completed"))
  /\ snd (serve invite (env_at 7000000 "c") ended)
     = inl PatientNotReady
  /\ snd (serve invite (env_at 8000000 "h") revived)
     = inr (RespInvitation "Invitation sent" "h0" INVITED).
Proof.
  split; [repeat split|].
  destruct (ended_patient_is_done "call-1" dr_sarah john (env_at 5000000 "a")
       (env_at 6000000 "b") (env_at 7000000 "c") {| isReady := true |}
       john_invited (call "call-1" "patient-1" INVITED 0 None)
       (entry "q-1" "patient-1" 1 READY true) eq_refl eq_refl eq_refl)
    as ((q' & Hf & Hd & _) & _ & Ht & _).
  split; [exists q'; split; assumption|].
  split; [reflexivity|].
  split; [exact Ht|].
  split; reflexivity.
Defined.

(** [X10]: an invitation that is not yet 60 seconds old blocks the next one.
    After an accepted [start_call], a further [start_call] of the same doctor
    on the schedule, for any patient, whose clock reads no more than 60
    seconds after the first session's [createdAt], is answered 400 "Another
    call is already active" and creates no session. *)
Theorem fresh_invitation_blocks sid req req' user env env' st r :
  snd (serve (StartCall sid req user) env st) = inr r ->
  now env' 0 - sixty_seconds <= now env 2 ->
  let invited := fst (serve (StartCall sid req user) env st) in
  snd (serve (StartCall sid req' user) env' invited) = inl CallAlreadyActive
  /\ List.length
       (call_sessions (fst (serve (StartCall sid req' user) env' invited)))
     = List.length (call_sessions invited).
Proof.
  intros Hok Hfresh invited. subst invited.
  destruct (start_call_accepted_inv _ _ _ _ _ _ Hok)
    as (sch & q & Hs & Hon & Hnone & Hq & Hr).
  rewrite (start_call_accepted _ _ _ _ _ _ _ Hs Hon Hnone Hq Hr).
  cbn [fst].
  match goal with
  | |- context [serve (StartCall sid req' user) env' ?d] =>
      rewrite (start_call_online sid req' user env' d sch Hs Hon)
  end.
  unfold expire_stale_invitations at 1 3. run_step.
  match goal with
  | |- context [find_one (active_in_schedule sid) ?l] =>
      destruct (find_one (active_in_schedule sid) l) eqn:Hact
  end.
  - run_step. split; [reflexivity | apply length_update_many].
  - exfalso. rewrite no_active_after_sweep in Hact.
    specialize (Hact
      {| cs_id := uuid4 env 0; cs_scheduleId := sid;
         cs_doctorId := u_id user; cs_patientId := patientId req;
         cs_status := INVITED; cs_createdAt := now env 2;
         cs_confirmedAt := None; cs_endedAt := None;
         cs_doctorPeerId := None; cs_patientPeerId := None |}).
    unfold insert_one, active_in_schedule, stale_invitation in Hact.
    cbn [cs_scheduleId cs_status cs_createdAt in_active_set
         CallSessionStatus_eqb] in Hact.
    rewrite String.eqb_refl in Hact. cbn [andb] in Hact.
    assert (E : (now env 2 <? now env' 0 - sixty_seconds) = true).
    { apply Hact; [|reflexivity]. apply in_or_app. right. now left. }
    apply Z.ltb_lt in E. lia.
Qed.

Lemma fresh_invitation_blocks_witness :
  let first := StartCall "sched-1" {| patientId := "patient-1" |} dr_sarah in
  let second := StartCall "sched-1" {| patientId := "patient-2" |} dr_sarah in
  (snd (serve first (env_at 1000000 "a") two_ready)
   = inr (RespInvitation "Invitation sent" "a0" INVITED)
   /\ now (env_at 61000000 "b") 0 - sixty_seconds
      <= now (env_at 1000000 "a") 2)
  /\ snd (serve second (env_at 61000000 "b")
            (fst (serve first (env_at 1000000 "a") two_ready)))
     = inl CallAlreadyActive.
Proof.
  assert (H : now (env_at 61000000 "b") 0 - sixty_seconds
              <= now (env_at 1000000 "a") 2) by (vm_compute; discriminate).
  split; [split; [reflexivity | exact H]|].
  exact (proj1
    (fresh_invitation_blocks "sched-1" {| patientId := "patient-1" |}
       {| patientId := "patient-2" |} dr_sarah (env_at 1000000 "a")
       (env_at 61000000 "b") two_ready _ eq_refl H)).
Defined.

(** ** What no request does *)

(** [X11]: the audit log only grows, and only for accepted requests. A
    rejected request leaves the audit log as it was; an accepted one appends
    exactly one entry whose actor is the requesting user, except
    [set_doctor_peer_id], [set_patient_peer_id] and [activate_call], which
    are not logged at all. *)
Theorem audit_log_append_only o env st :
  let st' := fst (serve o env st) in
  let answer := snd (serve o env st) in
  (forall e, answer = inl e -> audit_logs st' = audit_logs st)
  /\ (forall r, answer = inr r ->
      if logged o
      then exists a, audit_logs st' = (audit_logs st ++ [a])%list
                     /\ al_actorUserId a = u_id (requester o)
      else audit_logs st' = audit_logs st).
Proof.
  intros st' answer. subst st' answer.
  destruct o; run_all;
    (split; [intros e He | intros r Hr]); try discriminate;
    cbn [logged requester]; unfold insert_one;
    try reflexivity; try (eexists; split; reflexivity).
Qed.

Section CollectionKept.
Context {D : Type} (R : D -> D -> Prop).
Hypothesis R_refl : forall d, R d d.
Implicit Types (flt : D -> bool) (patch : D -> D) (coll : list D).

Lemma kept_update_one flt patch coll i d :
  (forall x, R x (patch x)) ->
  nth_error coll i = Some d ->
  exists d', nth_error (update_one flt patch coll) i = Some d' /\ R d d'.
Proof.
  intros Hp Hi.
  destruct (nth_error_update_one flt patch coll i d Hi) as [H|[_ H]];
    eauto.
Qed.

Lemma kept_update_many flt patch coll i d :
  (forall x, R x (patch x)) ->
  nth_error coll i = Some d ->
  exists d', nth_error (update_many flt patch coll) i = Some d' /\ R d d'.
Proof.
  intros Hp Hi. rewrite (nth_error_update_many _ _ _ _ _ Hi).
  destruct (flt d); eauto.
Qed.

Lemma kept_insert_one coll coll' x i d :
  (forall j y, nth_error coll j = Some y ->
               exists y', nth_error coll' j = Some y' /\ R y y') ->
  nth_error coll i = Some d ->
  exists d', nth_error (insert_one x coll') i = Some d' /\ R d d'.
Proof.
  intros H Hi. destruct (H i d Hi) as (d' & Hd' & HR).
  exists d'. split; [now apply nth_error_insert_one | exact HR].
Qed.
End CollectionKept.

Lemma same_entry_refl q : same_entry q q.
Proof. repeat split. Qed.

Lemma same_call_refl c : same_call c c.
Proof. repeat split. Qed.

(** [X12]: no request deletes or moves a queue entry or a call session, or
    rewrites what identifies it. After any request, every queue entry is at
    the position it had, with the same identifier, schedule, patient, queue
    number and joining time, and every call session is at its position with
    the same identifier, schedule, doctor, patient and creation time. *)
Theorem records_are_never_deleted o env st :
  let st' := fst (serve o env st) in
  (forall i q, nth_error (queue_entries st) i = Some q ->
               exists q', nth_error (queue_entries st') i = Some q'
                          /\ same_entry q q')
  /\ (forall i c, nth_error (call_sessions st) i = Some c ->
                  exists c', nth_error (call_sessions st') i = Some c'
                             /\ same_call c c').
Proof.
  intros st'. subst st'.
  assert (Hq0 : forall i q, nth_error (queue_entries st) i = Some q ->
                  exists q', nth_error (queue_entries st) i = Some q'
                             /\ same_entry q q')
    by (intros i q Hi; exists q; split; [exact Hi | apply same_entry_refl]).
  assert (Hc0 : forall i c, nth_error (call_sessions st) i = Some c ->
                  exists c', nth_error (call_sessions st) i = Some c'
                             /\ same_call c c')
    by (intros i c Hi; exists c; split; [exact Hi | apply same_call_refl]).
  destruct o; run_all; (split; [intros i x Hi | intros i x Hi]);
    run_step; auto.
  all: try (apply (kept_update_one _ same_entry_refl); auto;
            intros y; repeat split; fail).
  all: try (apply (kept_update_one _ same_call_refl); auto;
            intros y; repeat split; fail).
  all: try (apply (kept_update_many _ same_call_refl); auto;
            intros y; repeat split; fail).
  - (* start_call: sweep, then insert *)
    eapply (kept_insert_one same_call); [|exact Hi].
    intros j y Hj. apply (kept_update_many _ same_call_refl); auto.
    intros z; repeat split.
  - (* join_queue *)
    eapply (kept_insert_one same_entry); [|exact Hi]. auto.
Qed.

Lemma absent_pair sid uid entries :
  find_one (entry_of sid uid) entries = None ->
  ~ In (sid, uid) (map (fun q => (qe_scheduleId q, qe_patientId q)) entries).
Proof.
  unfold find_one, entry_of. induction entries as [|x rest IH]; cbn;
    [intros _ []|].
  destruct (String.eqb_spec (qe_scheduleId x) sid) as [E1|E1];
    destruct (String.eqb_spec (qe_patientId x) uid) as [E2|E2]; cbn;
    try discriminate; intros Hf [E|Hin]; try (now apply IH);
    inversion E; congruence.
Qed.

(** [X13]: a patient never has two entries in the queue of one schedule.
    If the pairs of schedule and patient of the queue entries are distinct
    before a request, they are distinct after it, whatever the request. *)
Theorem queue_pairs_stay_unique o env st :
  unique_queue_pairs st ->
  unique_queue_pairs (fst (serve o env st)).
Proof.
  intros Hu. unfold unique_queue_pairs in *.
  destruct o; run_all; run_step;
    rewrite ?update_one_map by reflexivity; auto.
  (* join_queue *)
  unfold insert_one. rewrite map_app. cbn. apply NoDup_app.
  repeat split; auto.
  - constructor; [intros []|constructor].
  - intros x Hx [<-|[]]. revert Hx. apply absent_pair.
    destruct (find_one (entry_of schedule_id (u_id user)) (queue_entries st));
      [discriminate | reflexivity].
Qed.

Lemma queue_pairs_stay_unique_witness :
  unique_queue_pairs two_ready
  /\ unique_queue_pairs
       (fst (serve (JoinQueue "sched-1" john) (env_at 1 "a") two_ready)).
Proof.
  assert (H : unique_queue_pairs two_ready).
  { unfold unique_queue_pairs. cbn. repeat constructor.
    - intros [E|[]]. discriminate E.
    - intros []. }
  split; [exact H|].
  exact (queue_pairs_stay_unique (JoinQueue "sched-1" john) (env_at 1 "a")
           two_ready H).
Defined.

(** ** Queue numbers *)

Lemma first_numbers_succ n :
  first_numbers (S n) = (first_numbers n ++ [Z.of_nat n + 1])%list.
Proof.
  unfold first_numbers. rewrite seq_S, map_app. cbn [map Nat.add].
  repeat f_equal. lia.
Qed.

Lemma max_of_snoc l x :
  Forall (fun n => n < x) l -> max_of (l ++ [x]) = Some x.
Proof.
  unfold max_of. induction 1 as [|y rest Hy Hrest IH]; cbn [app fold_right];
    [reflexivity|].
  rewrite IH. f_equal. lia.
Qed.

Lemma max_of_first_numbers n :
  max_of (first_numbers n)
  = match n with O => None | S _ => Some (Z.of_nat n) end.
Proof.
  destruct n as [|n]; [reflexivity|].
  rewrite first_numbers_succ, max_of_snoc; [f_equal; lia|].
  unfold first_numbers. apply Forall_forall. intros x Hx.
  apply in_map_iff in Hx. destruct Hx as (k & <- & Hk).
  apply in_seq in Hk. lia.
Qed.

Lemma serve_keeps_queue_numbers_gapless o env st :
  queue_numbers_gapless st ->
  queue_numbers_gapless (fst (serve o env st)).
Proof.
  intros Hg. unfold queue_numbers_gapless in *.
  destruct o.
  7: { (* join_queue *)
    rewrite join_queue_run.
    destruct (find_one (schedule_by_id schedule_id) (schedules st));
      [|exact Hg].
    destruct (find_one (entry_of schedule_id (u_id user)) (queue_entries st));
      cbn [is_some fst queue_entries]; [exact Hg|].
    intros k. rewrite queue_numbers_insert.
    unfold entry_in_schedule.
    cbn [joined_entry qe_scheduleId qe_queueNumber].
    destruct (String.eqb_spec schedule_id k) as [->|Hne].
    - rewrite length_app. cbn [List.length]. rewrite Nat.add_1_r.
      rewrite first_numbers_succ, <- Hg. f_equal. f_equal.
      unfold next_queue_number, max_queue_number. rewrite (Hg k) at 1.
      rewrite max_of_first_numbers.
      destruct (List.length (queue_numbers k (queue_entries st)));
        [reflexivity | lia].
    - rewrite app_nil_r. apply Hg. }
  all: run_all; intros sid0; run_step;
    rewrite ?queue_numbers_update_one by reflexivity; apply Hg.
Qed.

(** [X14]: queue numbers are handed out 1, 2, 3, ... per schedule. Starting
    from a store where the queue numbers of every schedule are 1 to n in
    admission order (the empty store is one), they still are after any
    sequence of requests served one after another: the n-th patient admitted
    to a schedule holds number n, and no request renumbers the queue. *)
Theorem queue_numbers_count_from_one requests st :
  queue_numbers_gapless st ->
  queue_numbers_gapless (serve_all requests st).
Proof.
  revert st. induction requests as [|[o env] rest IH]; intros st Hg;
    cbn [serve_all]; [exact Hg|].
  apply IH. now apply serve_keeps_queue_numbers_gapless.
Qed.

Lemma queue_numbers_count_from_one_witness :
  queue_numbers_gapless empty_store
  /\ queue_numbers_gapless (serve_all consultation_confirmed empty_store).
Proof.
  assert (H : queue_numbers_gapless empty_store) by (intros s; reflexivity).
  split; [exact H|].
  exact (queue_numbers_count_from_one consultation_confirmed empty_store H).
Defined.

(** [X15]: [toggle_ready] is idempotent. For a queue entry that is WAITING
    or READY, sending the same readiness twice is accepted twice with the
    same answer and leaves the queue entries that sending it once leaves. *)
Theorem toggle_ready_twice sid req user env env' st q :
  find_one (entry_of sid (u_id user)) (queue_entries st) = Some q ->
  qe_status q = WAITING \/ qe_status q = READY ->
  let once := serve (ToggleReady sid req user) env st in
  let twice := serve (ToggleReady sid req user) env' (fst once) in
  snd twice = snd once
  /\ answered_ok (snd once)
  /\ queue_entries (fst twice) = queue_entries (fst once)
  /\ call_sessions (fst twice) = call_sessions st
  /\ schedules (fst twice) = schedules st.
Proof.
  intros Hq Hs once twice. subst twice once.
  rewrite (toggle_ready_accepted _ req _ _ _ _ Hq Hs).
  cbn [fst snd queue_entries].
  set (patch := set_qe_status_isReady
                  (if isReady req then READY else WAITING) (isReady req)).
  assert (Hq1 : find_one (entry_of sid (u_id user))
                  (update_one (entry_of sid (u_id user)) patch
                     (queue_entries st)) = Some (patch q))
    by (apply cascaded_entry_found; auto).
  assert (Hs1 : qe_status (patch q) = WAITING \/ qe_status (patch q) = READY)
    by (subst patch; cbn; destruct (isReady req); auto).
  match goal with
  | |- context [serve _ env' ?s] =>
      rewrite (toggle_ready_accepted _ req _ env' s _ Hq1 Hs1)
  end.
  cbn [fst snd queue_entries call_sessions schedules].
  split; [reflexivity|]. split; [eexists; reflexivity|].
  split; [|split; reflexivity].
  fold patch. rewrite (update_one_twice _ _ _ _ q Hq).
  - generalize (queue_entries st). intros l.
    induction l as [|x rest IH]; cbn; [reflexivity|].
    destruct (entry_of sid (u_id user) x); [|f_equal; exact IH].
    reflexivity.
  - apply find_some in Hq. exact (proj2 Hq).
Qed.

Lemma toggle_ready_twice_witness :
  let req := {| isReady := true |} in
  (find_one (entry_of "sched-1" (u_id john)) (queue_entries john_declined)
   = Some (entry "q-1" "patient-1" 1 WAITING false)
   /\ (WAITING = WAITING \/ WAITING = READY))
  /\ queue_entries
       (fst (serve (ToggleReady "sched-1" req john) (env_at 2 "b")
               (fst (serve (ToggleReady "sched-1" req john) (env_at 1 "a")
                       john_declined))))
     = queue_entries
         (fst (serve (ToggleReady "sched-1" req john) (env_at 1 "a")
                 john_declined)).
Proof.
  split; [split; [reflexivity | left; reflexivity]|].
  exact (proj1 (proj2 (proj2
    (toggle_ready_twice "sched-1" {| isReady := true |} john (env_at 1 "a")
       (env_at 2 "b") john_declined _ eq_refl (or_introl eq_refl))))).
Defined.

(** [X16]: two [join_queue] requests whose database calls interleave get the
    same queue number. When both requests have read the last queue number of
    the schedule before either inserts, both are answered "Joined queue"
    with the number a single join would get, and the queue of the schedule
    ends with two entries carrying that number; the queue numbers are then
    no longer strictly increasing. *)
Theorem interleaved_joins_share_a_number sid u1 u2 env1 env2 st sch :
  find_one (schedule_by_id sid) (schedules st) = Some sch ->
  find_one (entry_of sid (u_id u1)) (queue_entries st) = None ->
  find_one (entry_of sid (u_id u2)) (queue_entries st) = None ->
  let n := next_queue_number sid (queue_entries st) in
  let final :=
    run_interleaved join_race_turns (join_queue sid u1 env1)
      (join_queue sid u2 env2) st in
  snd (fst final) = Return (RespJoined "Joined queue" n (uuid4 env1 0))
  /\ snd final = Return (RespJoined "Joined queue" n (uuid4 env2 0))
  /\ queue_entries (fst (fst final))
     = (queue_entries st
        ++ [joined_entry sid u2 env2 st; joined_entry sid u1 env1 st])%list
  /\ ~ queue_numbers_increasing (fst (fst final)).
Proof.
  intros Hs H1 H2 n final. subst final n.
  unfold join_race_turns, join_queue.
  cbn [run_interleaved step bind await fst snd db_schedules_find_one
       db_queue_entries_find_one db_queue_entries_find_one_desc].
  rewrite Hs.
  cbn [run_interleaved step bind await or_raise fst snd
       db_queue_entries_find_one]. rewrite H1.
  cbn [run_interleaved step bind await or_raise raise_if is_some fst snd
       db_queue_entries_find_one db_queue_entries_find_one_desc
       db_schedules_find_one]. rewrite Hs.
  cbn [run_interleaved step bind await or_raise raise_if is_some fst snd
       db_queue_entries_find_one]. rewrite H2.
  cbn [run_interleaved step bind await or_raise raise_if is_some fst snd
       log_audit db_queue_entries_find_one db_queue_entries_find_one_desc
       db_schedules_find_one db_queue_entries_insert_one
       db_audit_logs_insert_one with_queue_entries with_audit_logs
       schedules queue_entries call_sessions audit_logs].
  rewrite !next_queue_number_desc.
  split; [reflexivity|]. split; [reflexivity|].
  assert (E : insert_one
                {| qe_id := uuid4 env1 0; qe_scheduleId := sid;
                   qe_patientId := u_id u1;
                   qe_queueNumber := next_queue_number sid (queue_entries st);
                   qe_status := WAITING; qe_isReady := false;
                   qe_joinedAt := now env1 0 |}
                (insert_one
                   {| qe_id := uuid4 env2 0; qe_scheduleId := sid;
                      qe_patientId := u_id u2;
                      qe_queueNumber :=
                        next_queue_number sid (queue_entries st);
                      qe_status := WAITING; qe_isReady := false;
                      qe_joinedAt := now env2 0 |} (queue_entries st))
              = (queue_entries st
                 ++ [joined_entry sid u2 env2 st;
                     joined_entry sid u1 env1 st])%list).
  { unfold insert_one, joined_entry. now rewrite <- app_assoc. }
  rewrite E. split; [reflexivity|].
  intros Hinc. specialize (Hinc sid). unfold queue_numbers in Hinc.
  cbn [fst snd queue_entries with_audit_logs with_queue_entries] in Hinc.
  rewrite filter_app, map_app in Hinc.
  unfold entry_in_schedule at 2 in Hinc.
  cbn [filter joined_entry qe_scheduleId] in Hinc.
  rewrite String.eqb_refl in Hinc. cbn [map qe_queueNumber] in Hinc.
  revert Hinc. generalize (next_queue_number sid (queue_entries st)).
  generalize (map qe_queueNumber
                (filter (entry_in_schedule sid) (queue_entries st))).
  intros l z. induction l as [|x rest IH]; cbn; intros Hinc.
  - inversion Hinc as [|? ? _ Hall]. inversion Hall. lia.
  - inversion Hinc. auto.
Qed.

Lemma interleaved_joins_share_a_number_witness :
  let u3 := {| u_id := "patient-3"; u_name := "Michael Brown" |} in
  let u4 := {| u_id := "patient-4"; u_name := "Jessica Wilson" |} in
  (find_one (schedule_by_id "sched-1") (schedules two_ready)
   = Some (morning ONLINE)
   /\ find_one (entry_of "sched-1" (u_id u3)) (queue_entries two_ready) = None
   /\ find_one (entry_of "sched-1" (u_id u4)) (queue_entries two_ready)
      = None)
  /\ map qe_queueNumber
       (queue_entries
          (fst (fst (run_interleaved join_race_turns
                       (join_queue "sched-1" u3 (env_at 1 "a"))
                       (join_queue "sched-1" u4 (env_at 2 "b")) two_ready))))
     = [1; 2; 3; 3].
Proof.
  split; [repeat split|].
  exact (f_equal (map qe_queueNumber) (proj1 (proj2 (proj2
    (interleaved_joins_share_a_number "sched-1"
       {| u_id := "patient-3"; u_name := "Michael Brown" |}
       {| u_id := "patient-4"; u_name := "Jessica Wilson" |}
       (env_at 1 "a") (env_at 2 "b") two_ready (morning ONLINE)
       eq_refl eq_refl eq_refl))))).
Defined.

(** ** Sorted listings *)

Section SortingFacts.
Context {D : Type} (le : D -> D -> bool).
Hypothesis le_total : forall a b, le a b = true \/ le b a = true.

Lemma insert_sorted_perm x l : Permutation (insert_sorted le x l) (x :: l).
Proof.
  induction l as [|y rest IH]; cbn; [reflexivity|].
  destruct (le x y); [reflexivity|].
  rewrite IH. apply perm_swap.
Qed.

Lemma sort_by_perm l : Permutation (sort_by le l) l.
Proof.
  induction l as [|x rest IH]; cbn; [reflexivity|].
  rewrite insert_sorted_perm. now constructor.
Qed.

Lemma insert_sorted_sorted x l :
  Sorted (fun a b => le a b = true) l ->
  Sorted (fun a b => le a b = true) (insert_sorted le x l).
Proof.
  induction 1 as [|y rest Hs IH Hy]; cbn; [repeat constructor|].
  destruct (le x y) eqn:Hxy.
  - constructor; [constructor; assumption | constructor; exact Hxy].
  - constructor; [exact IH|].
    destruct rest as [|z rest']; cbn.
    + constructor. destruct (le_total x y); congruence.
    + destruct (le x z); constructor.
      * destruct (le_total x y); congruence.
      * inversion Hy; assumption.
Qed.

Lemma sort_by_sorted l : Sorted (fun a b => le a b = true) (sort_by le l).
Proof.
  induction l as [|x rest IH]; cbn; [constructor|].
  now apply insert_sorted_sorted.
Qed.

Lemma Sorted_firstn (R : D -> D -> Prop) n l :
  Sorted R l -> Sorted R (firstn n l).
Proof.
  revert n. induction l as [|x rest IH]; intros [|n] Hs; cbn;
    try constructor.
  - apply IH. now inversion Hs.
  - inversion Hs as [|? ? _ Hhd]; subst.
    destruct rest as [|y rest']; destruct n; cbn; constructor.
    now inversion Hhd.
Qed.

(** A list that is already in order is left as it is. *)
Lemma sort_by_ordered l :
  StronglySorted (fun a b => le a b = true) l -> sort_by le l = l.
Proof.
  induction 1 as [|x rest Hs IH Hx]; cbn; [reflexivity|].
  rewrite IH. destruct rest as [|y rest']; cbn; [reflexivity|].
  inversion Hx as [|? ? Hxy _]; subst. now rewrite Hxy.
Qed.
End SortingFacts.

Lemma by_date_total a b : by_date a b = true \/ by_date b a = true.
Proof. apply String.leb_total. Qed.

Lemma by_date_startTime_total a b :
  by_date_startTime a b = true \/ by_date_startTime b a = true.
Proof.
  unfold by_date_startTime.
  rewrite (String.compare_antisym (sch_date a) (sch_date b)).
  destruct (String.compare (sch_date b) (sch_date a)); cbn; auto.
  apply String.leb_total.
Qed.

Lemma in_firstn {D : Type} n (l : list D) x : In x (firstn n l) -> In x l.
Proof.
  intros H. rewrite <- (firstn_skipn n l). apply in_or_app. now left.
Qed.

Lemma in_find_sorted {D : Type} (le : D -> D -> bool) flt (coll : list D) x :
  In x (find_sorted le flt coll) -> In x coll /\ flt x = true.
Proof.
  unfold find_sorted. intros H. apply in_firstn in H.
  apply (Permutation_in _ (sort_by_perm le _)) in H.
  now apply filter_In in H.
Qed.

(** [X21]: [get_doctor_schedules] lists schedules of the calling doctor
    only, each under the doctor's own name, in ascending order of date and
    at most 100 of them; when the doctor has no more than 100 schedules the
    list holds exactly those, each as often as the store does. The store is
    not changed. *)
Theorem get_doctor_schedules_lists_own user st :
  exists listed,
    run (get_doctor_schedules user) st
    = (st, inr (map (fun s => {| dsr_schedule := s;
                                 dsr_doctorName := u_name user |}) listed))
    /\ Forall (fun s => sch_doctorId s = u_id user /\ In s (schedules st))
         listed
    /\ Sorted (fun a b => String.leb (sch_date a) (sch_date b) = true) listed
    /\ (List.length listed <= 100)%nat
    /\ ((List.length
           (filter (fun s => String.eqb (sch_doctorId s) (u_id user))
              (schedules st)) <= 100)%nat ->
        Permutation listed
          (filter (fun s => String.eqb (sch_doctorId s) (u_id user))
             (schedules st))).
Proof.
  exists (find_sorted by_date
            (fun s => String.eqb (sch_doctorId s) (u_id user)) (schedules st)).
  split; [reflexivity|]. split.
  { apply Forall_forall. intros s Hs. apply in_find_sorted in Hs.
    destruct Hs as [Hin Hd]. apply String.eqb_eq in Hd. auto. }
  split.
  { unfold find_sorted. apply Sorted_firstn.
    apply (sort_by_sorted by_date by_date_total). }
  split; [unfold find_sorted; apply firstn_le_length|].
  intros Hlen. unfold find_sorted. rewrite firstn_all2.
  - apply sort_by_perm.
  - rewrite (Permutation_length (sort_by_perm by_date _)). exact Hlen.
Qed.

(** [X22]: [get_available_schedules] lists only schedules dated [today] or
    later, at most 100 of them, ordered by date and, within a date, by start
    time; a doctor missing from the users collection is shown as "Unknown".
    The store is not changed. *)
Theorem get_available_schedules_lists_upcoming users today user st :
  exists listed,
    run (get_available_schedules users today user) st
    = (st, inr (map (fun s =>
                       {| dsr_schedule := s;
                          dsr_doctorName :=
                            user_name users (sch_doctorId s) "Unknown" |})
                  listed))
    /\ Forall (fun s => String.leb today (sch_date s) = true
                        /\ In s (schedules st)) listed
    /\ Sorted (fun a b =>
                 String.ltb (sch_date a) (sch_date b) = true
                 \/ (sch_date a = sch_date b
                     /\ String.leb (sch_startTime a) (sch_startTime b) = true))
         listed
    /\ (List.length listed <= 100)%nat.
Proof.
  exists (find_sorted by_date_startTime
            (fun s => String.leb today (sch_date s)) (schedules st)).
  split; [reflexivity|]. split.
  { apply Forall_forall. intros s Hs. apply in_find_sorted in Hs. tauto. }
  split; [|unfold find_sorted; apply firstn_le_length].
  unfold find_sorted. apply Sorted_firstn.
  pose proof (sort_by_sorted by_date_startTime by_date_startTime_total
                (filter (fun s => String.leb today (sch_date s))
                   (schedules st))) as Hs.
  revert Hs. generalize (sort_by by_date_startTime
                           (filter (fun s => String.leb today (sch_date s))
                              (schedules st))).
  assert (Hle : forall a b, by_date_startTime a b = true ->
            String.ltb (sch_date a) (sch_date b) = true
            \/ (sch_date a = sch_date b
                /\ String.leb (sch_startTime a) (sch_startTime b) = true)).
  { intros a b. unfold by_date_startTime, String.ltb.
    destruct (String.compare (sch_date a) (sch_date b)) eqn:E;
      [|auto|discriminate].
    apply String.compare_eq_iff in E. auto. }
  intros l. induction 1 as [|x rest Hs IH Hx]; constructor; auto.
  destruct Hx; constructor; auto.
Qed.

(** ** The queue as the doctor sees it *)

Lemma increasing_ordered (l : list queue_entry) :
  StronglySorted Z.lt (map qe_queueNumber l) ->
  StronglySorted (fun a b => by_queueNumber a b = true) l.
Proof.
  induction l as [|x rest IH]; cbn; intros H; [constructor|].
  inversion H as [|? ? Hs Hx]; subst. constructor; [now apply IH|].
  rewrite Forall_map in Hx. eapply Forall_impl; [|exact Hx].
  cbn. intros a Ha. unfold by_queueNumber. apply Z.leb_le. lia.
Qed.

(** [X17]: the doctor sees the queue in admission order. For a schedule of
    the calling doctor whose queue numbers are strictly increasing in
    admission order, [get_queue] returns the entries of that schedule in the
    order the patients joined, cut after the first 100, each with the
    patient's name or "Unknown"; for a schedule that is not the caller's it
    answers 404 "Schedule not found". The store is not changed. *)
Theorem get_queue_in_admission_order users sid user st :
  queue_numbers_increasing st ->
  (forall sch,
      find_one (schedule_of_doctor sid (u_id user)) (schedules st) = Some sch ->
      run (get_queue users sid user) st
      = (st, inr (map (queue_entry_response users)
                    (firstn 100
                       (filter (entry_in_schedule sid) (queue_entries st))))))
  /\ (find_one (schedule_of_doctor sid (u_id user)) (schedules st) = None ->
      run (get_queue users sid user) st
      = (st, inl (HTTP 404 "Schedule not found"))).
Proof.
  intros Hinc. unfold get_queue. run_step. split.
  - intros sch Hs. rewrite Hs. run_step.
    unfold db_queue_entries_find_sorted, find_sorted. cbn [fst snd].
    rewrite sort_by_ordered; [reflexivity|].
    apply increasing_ordered, Hinc.
  - intros Hs. rewrite Hs. reflexivity.
Qed.

Lemma get_queue_in_admission_order_witness :
  queue_numbers_increasing two_ready
  /\ run (get_queue [] "sched-1" dr_sarah) two_ready
     = (two_ready,
        inr (map (queue_entry_response [])
               (firstn 100
                  (filter (entry_in_schedule "sched-1")
                     (queue_entries two_ready))))).
Proof.
  assert (H1 : queue_numbers_increasing two_ready).
  { intros s. unfold queue_numbers, two_ready, entry_in_schedule, entry.
    cbn [queue_entries filter qe_scheduleId].
    destruct (String.eqb "sched-1" s); cbn.
    - repeat constructor.
    - constructor. }
  split; [exact H1|].
  exact (proj1 (get_queue_in_admission_order [] "sched-1" dr_sarah two_ready
                  H1) (morning ONLINE) eq_refl).
Defined.

(** ** What patients and doctors read back *)

Lemma next_queue_number_gapless sid st :
  queue_numbers_gapless st ->
  next_queue_number sid (queue_entries st)
  = Z.of_nat (List.length (filter (entry_in_schedule sid) (queue_entries st)))
    + 1.
Proof.
  intros Hg. unfold next_queue_number, max_queue_number.
  rewrite (Hg sid), max_of_first_numbers.
  unfold queue_numbers. rewrite length_map.
  destruct (List.length (filter (entry_in_schedule sid) (queue_entries st)));
    [reflexivity | lia].
Qed.

Lemma find_one_insert_absent {D : Type} (flt : D -> bool) coll d :
  find_one flt coll = None -> flt d = true ->
  find_one flt (insert_one d coll) = Some d.
Proof.
  unfold find_one, insert_one. induction coll as [|x rest IH]; cbn.
  - intros _ ->. reflexivity.
  - destruct (flt x); [discriminate | exact IH].
Qed.

Lemma find_one_insert_present {D : Type} (flt : D -> bool) coll d x :
  find_one flt coll = Some x -> find_one flt (insert_one d coll) = Some x.
Proof.
  unfold find_one, insert_one. induction coll as [|y rest IH]; cbn;
    [discriminate|].
  destruct (flt y); [auto | exact IH].
Qed.

(** [X18]: what a patient reads back after joining. After an accepted
    [join_queue], in a store whose queue numbers count from one,
    [get_schedule_detail] shows that patient the entry just created, and
    [totalInQueue] is both one more than the number of entries the schedule
    had and the patient's own queue number. *)
Theorem schedule_detail_after_join users sid user env st r :
  queue_numbers_gapless st ->
  snd (serve (JoinQueue sid user) env st) = inr r ->
  let joined := fst (serve (JoinQueue sid user) env st) in
  exists sch,
    find_one (schedule_by_id sid) (schedules st) = Some sch
    /\ run (get_schedule_detail users sid user) joined
       = (joined,
          inr {| sd_schedule :=
                   {| dsr_schedule := sch;
                      dsr_doctorName :=
                        user_name users (sch_doctorId sch) "Unknown" |};
                 sd_queueEntry := Some (joined_entry sid user env st);
                 sd_totalInQueue :=
                   qe_queueNumber (joined_entry sid user env st) |})
    /\ qe_queueNumber (joined_entry sid user env st)
       = Z.of_nat (List.length (filter (entry_in_schedule sid)
                                  (queue_entries st))) + 1.
Proof.
  intros Hg Hok joined. subst joined. rewrite join_queue_run in *.
  destruct (find_one (schedule_by_id sid) (schedules st)) as [sch|] eqn:Hs;
    [|discriminate].
  destruct (find_one (entry_of sid (u_id user)) (queue_entries st)) eqn:He;
    cbn [is_some fst snd] in *; [discriminate|].
  exists sch. split; [reflexivity|].
  pose proof (next_queue_number_gapless sid st Hg) as Hn.
  split; [|exact Hn].
  unfold get_schedule_detail. run_step. rewrite Hs. run_step.
  unfold db_queue_entries_count_documents. cbn [fst snd queue_entries].
  rewrite (find_one_insert_absent _ _ _ He).
  - rewrite filter_insert_one, length_app.
    unfold entry_in_schedule at 2. cbn [joined_entry qe_scheduleId].
    rewrite String.eqb_refl. cbn [List.length].
    change (qe_queueNumber (joined_entry sid user env st)
            = Z.of_nat (List.length (filter (entry_in_schedule sid)
                                       (queue_entries st))) + 1) in Hn.
    fold (joined_entry sid user env st). rewrite Hn.
    repeat f_equal. lia.
  - unfold entry_of. cbn. now rewrite !String.eqb_refl.
Qed.

Lemma schedule_detail_after_join_witness :
  let emily := {| u_id := "patient-3"; u_name := "Michael Brown" |} in
  (queue_numbers_gapless two_ready
   /\ snd (serve (JoinQueue "sched-1" emily) (env_at 1 "a") two_ready)
      = inr (RespJoined "Joined queue" 3 "a0"))
  /\ qe_queueNumber (joined_entry "sched-1" emily (env_at 1 "a") two_ready)
     = Z.of_nat (List.length (filter (entry_in_schedule "sched-1")
                                (queue_entries two_ready))) + 1.
Proof.
  assert (H1 : queue_numbers_gapless two_ready).
  { intros s. unfold queue_numbers, two_ready, entry_in_schedule, entry.
    cbn [queue_entries filter qe_scheduleId].
    destruct (String.eqb "sched-1" s); reflexivity. }
  split; [split; [exact H1 | reflexivity]|].
  destruct (schedule_detail_after_join [] "sched-1"
              {| u_id := "patient-3"; u_name := "Michael Brown" |}
              (env_at 1 "a") two_ready _ H1 eq_refl) as (sch & _ & _ & H).
  exact H.
Defined.

(** [X19]: an accepted invitation is what the patient's polling finds. After
    an accepted [start_call] for a patient who had no other INVITED session
    left after the sweep, [get_pending_invitation] of that patient returns
    the new session, its schedule and its doctor, with the doctor's name or
    "Doctor". *)
Theorem invitation_becomes_pending users sid req doctor patient env st r :
  snd (serve (StartCall sid req doctor) env st) = inr r ->
  u_id patient = patientId req ->
  find_one (invited_patient (patientId req))
    (call_sessions (expire_stale_invitations sid env st)) = None ->
  let invited := fst (serve (StartCall sid req doctor) env st) in
  run (get_pending_invitation users patient) invited
  = (invited,
     inr (Some {| pi_callSessionId := uuid4 env 0; pi_scheduleId := sid;
                  pi_doctorId := u_id doctor;
                  pi_doctorName := user_name users (u_id doctor) "Doctor" |})).
Proof.
  intros Hok Hp Hnone invited. subst invited.
  destruct (start_call_accepted_inv _ _ _ _ _ _ Hok)
    as (sch & q & Hs & Hon & Hact & Hq & Hr).
  rewrite (start_call_accepted _ _ _ _ _ _ _ Hs Hon Hact Hq Hr).
  cbn [fst]. unfold get_pending_invitation. run_step. rewrite Hp.
  rewrite (find_one_insert_absent _ _ _ Hnone); [reflexivity|].
  unfold invited_patient. cbn. now rewrite String.eqb_refl.
Qed.

Lemma invitation_becomes_pending_witness :
  let req := {| patientId := "patient-1" |} in
  let invited := fst (serve (StartCall "sched-1" req dr_sarah)
                        (env_at 1000000 "a") two_ready) in
  (snd (serve (StartCall "sched-1" req dr_sarah) (env_at 1000000 "a")
          two_ready) = inr (RespInvitation "Invitation sent" "a0" INVITED)
   /\ u_id john = patientId req
   /\ find_one (invited_patient (patientId req))
        (call_sessions
           (expire_stale_invitations "sched-1" (env_at 1000000 "a")
              two_ready)) = None)
  /\ run (get_pending_invitation [] john) invited
     = (invited,
        inr (Some {| pi_callSessionId := "a0"; pi_scheduleId := "sched-1";
                     pi_doctorId := "doctor-1"; pi_doctorName := "Doctor" |})).
Proof.
  split; [repeat split|].
  exact (invitation_becomes_pending [] "sched-1"
           {| patientId := "patient-1" |} dr_sarah john (env_at 1000000 "a")
           two_ready _ eq_refl eq_refl eq_refl).
Defined.

(** [X20]: an answered invitation is no longer pending. When the patient's
    only INVITED session is confirmed or declined by the patient,
    [get_pending_invitation] of that patient reports no invitation. *)
Theorem answered_invitation_not_pending users id patient env st s :
  unique_call_ids st ->
  find_one (call_of_patient id (u_id patient)) (call_sessions st) = Some s ->
  cs_status s = INVITED ->
  (List.length (filter (invited_patient (u_id patient)) (call_sessions st))
   <= 1)%nat ->
  snd (run (get_pending_invitation users patient)
         (fst (serve (ConfirmCall id patient) env st))) = inr None
  /\ snd (run (get_pending_invitation users patient)
            (fst (serve (DeclineCall id patient) env st))) = inr None.
Proof.
  intros Hids Hs Hinv Hone.
  assert (Hid : find_one (call_by_id id) (call_sessions st) = Some s).
  { eapply find_by_id_unique; [exact Hids| |exact Hs].
    intros c. apply call_of_patient_id. }
  assert (Hp : invited_patient (u_id patient) s = true).
  { apply find_some in Hs. destruct Hs as [_ Hs].
    unfold call_of_patient in Hs. apply andb_prop in Hs.
    unfold invited_patient. rewrite (proj2 Hs), Hinv. reflexivity. }
  assert (Hgone : forall patch,
             invited_patient (u_id patient) (patch s) = false ->
             find_one (invited_patient (u_id patient))
               (update_one (call_by_id id) patch (call_sessions st)) = None).
  { intros patch Hpatch. apply filter_nil_find.
    now apply (filter_update_one_last _ _ _ _ s). }
  rewrite (confirm_call_invited _ _ _ _ _ Hs Hinv).
  rewrite (decline_call_invited _ _ _ _ _ Hs Hinv).
  unfold get_pending_invitation. run_step.
  rewrite !Hgone; [split; reflexivity | |];
    unfold invited_patient; cbn; apply andb_false_r.
Qed.

Lemma answered_invitation_not_pending_witness :
  (unique_call_ids john_invited
   /\ find_one (call_of_patient "call-1" (u_id john))
        (call_sessions john_invited)
      = Some (call "call-1" "patient-1" INVITED 0 None)
   /\ (List.length (filter (invited_patient (u_id john))
                      (call_sessions john_invited)) <= 1)%nat)
  /\ snd (run (get_pending_invitation [] john)
            (fst (serve (ConfirmCall "call-1" john) (env_at 5000000 "a")
                    john_invited))) = inr None.
Proof.
  assert (H1 : unique_call_ids john_invited)
    by (repeat constructor; intros []).
  assert (H2 : (List.length (filter (invited_patient (u_id john))
                               (call_sessions john_invited)) <= 1)%nat)
    by (vm_compute; lia).
  split; [repeat split; assumption|].
  exact (proj1
    (answered_invitation_not_pending [] "call-1" john (env_at 5000000 "a")
       john_invited _ H1 eq_refl eq_refl H2)).
Defined.

(** With distinct identifiers, a query by identifier and one more condition
    finds the session with that identifier or nothing. *)
Lemma find_by_id_and id (P : call_session -> bool) calls s :
  NoDup (map cs_id calls) ->
  find_one (call_by_id id) calls = Some s ->
  find_one (fun c => call_by_id id c && P c) calls
  = if P s then Some s else None.
Proof.
  unfold find_one, call_by_id. intros Hnd.
  induction calls as [|x rest IH]; cbn; [discriminate|].
  inversion Hnd as [|? ? Hx Hrest]; subst.
  destruct (String.eqb_spec (cs_id x) id) as [E|E]; cbn.
  - intros H; inversion H; subst. destruct (P s) eqn:HP; [reflexivity|].
    clear IH.
    match goal with
    | |- find ?f rest = None => destruct (find f rest) eqn:Hf
    end; [|reflexivity].
    exfalso. apply find_some in Hf. destruct Hf as [Hin Hc].
    apply andb_prop in Hc. destruct Hc as [Hc _].
    apply String.eqb_eq in Hc. apply Hx. rewrite <- Hc. now apply in_map.
  - auto.
Qed.

(** [X23]: a call session is read by its parties only. With distinct
    call-session identifiers, for the session that carries an identifier:
    [get_call_session_doctor] and [get_call_session_status] answer exactly
    its doctor, [get_call_session_patient] exactly its patient, and
    [get_call_session] exactly those two, returning that session; every
    other caller gets 404, or 403 "Not authorized" from
    [get_call_session]. *)
Theorem call_session_read_by_parties_only users id user st s :
  unique_call_ids st ->
  find_one (call_by_id id) (call_sessions st) = Some s ->
  (u_id user = cs_doctorId s ->
   snd (run (get_call_session_doctor id user) st)
   = inr (call_session_response s)
   /\ answered_ok (snd (run (get_call_session_status users id user) st)))
  /\ (u_id user <> cs_doctorId s ->
      snd (run (get_call_session_doctor id user) st)
      = inl (HTTP 404 "Call session not found")
      /\ snd (run (get_call_session_status users id user) st)
         = inl (HTTP 404 "Call session not found"))
  /\ (u_id user = cs_patientId s ->
      snd (run (get_call_session_patient id user) st)
      = inr (call_session_response s))
  /\ (u_id user <> cs_patientId s ->
      snd (run (get_call_session_patient id user) st)
      = inl (HTTP 404 "Call session not found"))
  /\ (u_id user = cs_doctorId s \/ u_id user = cs_patientId s ->
      snd (run (get_call_session users id user) st)
      = inr {| csd_session := s;
               csd_doctorName := user_name users (cs_doctorId s) "Unknown";
               csd_patientName :=
                 user_name users (cs_patientId s) "Unknown" |})
  /\ (u_id user <> cs_doctorId s -> u_id user <> cs_patientId s ->
      snd (run (get_call_session users id user) st)
      = inl (HTTP 403 "Not authorized")).
Proof.
  intros Hids Hs.
  pose proof (find_by_id_and id
                (fun c => String.eqb (cs_doctorId c) (u_id user)) _ s
                Hids Hs) as Hd.
  pose proof (find_by_id_and id
                (fun c => String.eqb (cs_patientId c) (u_id user)) _ s
                Hids Hs) as Hp.
  change (find_one (call_of_doctor id (u_id user)) (call_sessions st)
          = if String.eqb (cs_doctorId s) (u_id user) then Some s else None)
    in Hd.
  change (find_one (call_of_patient id (u_id user)) (call_sessions st)
          = if String.eqb (cs_patientId s) (u_id user) then Some s else None)
    in Hp.
  unfold get_call_session_doctor, get_call_session_status,
    get_call_session_patient, get_call_session.
  run_step. rewrite Hd, Hp, Hs. run_step.
  rewrite (String.eqb_sym (u_id user) (cs_doctorId s)).
  rewrite (String.eqb_sym (u_id user) (cs_patientId s)).
  destruct (String.eqb_spec (cs_doctorId s) (u_id user)) as [Ed|Ed];
    destruct (String.eqb_spec (cs_patientId s) (u_id user)) as [Ep|Ep];
    cbn [negb andb]; run_step;
    repeat split; try reflexivity; try congruence;
    try (eexists; reflexivity);
    try (intros [H|H]; congruence);
    intros; congruence.
Qed.

Lemma call_session_read_by_parties_only_witness :
  (unique_call_ids john_invited
   /\ find_one (call_by_id "call-1") (call_sessions john_invited)
      = Some (call "call-1" "patient-1" INVITED 0 None))
  /\ snd (run (get_call_session_patient "call-1" dr_sarah) john_invited)
     = inl (HTTP 404 "Call session not found").
Proof.
  assert (H1 : unique_call_ids john_invited)
    by (repeat constructor; intros []).
  split; [split; [exact H1 | reflexivity]|].
  exact (proj1 (proj2 (proj2 (proj2
    (call_session_read_by_parties_only [] "call-1" dr_sarah john_invited _
       H1 eq_refl)))) ltac:(discriminate)).
Defined.

(** ** Socket.IO connection registry *)

Section DictFacts.
Context {V : Type}.
Implicit Types (d : list (string * V)) (k : string) (v : V).

Lemma dict_get_set k v d : dict_get k (dict_set k v d) = Some v.
Proof.
  unfold dict_get, find_one. induction d as [|[k' v'] rest IH]; cbn.
  - now rewrite String.eqb_refl.
  - destruct (String.eqb k' k) eqn:E; cbn.
    + now rewrite String.eqb_refl.
    + now rewrite E.
Qed.

Lemma dict_get_set_other k k' v d :
  k' <> k -> dict_get k' (dict_set k v d) = dict_get k' d.
Proof.
  intros Hne. unfold dict_get, find_one.
  induction d as [|[k0 v0] rest IH]; cbn.
  - apply String.eqb_neq in Hne. rewrite String.eqb_sym in Hne.
    now rewrite Hne.
  - destruct (String.eqb k0 k) eqn:E; cbn.
    + apply String.eqb_eq in E. subst k0.
      apply String.eqb_neq in Hne. rewrite String.eqb_sym in Hne.
      now rewrite Hne.
    + destruct (String.eqb k0 k'); [reflexivity | exact IH].
Qed.

Lemma dict_get_del k d : dict_get k (dict_del k d) = None.
Proof.
  unfold dict_get, dict_del, find_one.
  induction d as [|[k' v'] rest IH]; cbn; [reflexivity|].
  destruct (String.eqb k' k) eqn:E; cbn; [exact IH|]. now rewrite E.
Qed.

Lemma dict_get_del_other k k' d :
  k' <> k -> dict_get k' (dict_del k d) = dict_get k' d.
Proof.
  intros Hne. unfold dict_get, dict_del, find_one.
  induction d as [|[k0 v0] rest IH]; cbn; [reflexivity|].
  destruct (String.eqb k0 k) eqn:E; cbn.
  - apply String.eqb_eq in E. subst k0.
    apply String.eqb_neq in Hne. rewrite String.eqb_sym in Hne.
    now rewrite Hne.
  - destruct (String.eqb k0 k'); [reflexivity | exact IH].
Qed.

Lemma dict_set_set k v v' d : dict_set k v (dict_set k v' d) = dict_set k v d.
Proof.
  induction d as [|[k' w] rest IH]; cbn.
  - now rewrite String.eqb_refl.
  - destruct (String.eqb k' k) eqn:E; cbn.
    + now rewrite String.eqb_refl.
    + rewrite E. now rewrite IH.
Qed.

Lemma dict_set_same k v d : dict_get k d = Some v -> dict_set k v d = d.
Proof.
  unfold dict_get, find_one. induction d as [|[k' w] rest IH]; cbn;
    [discriminate|].
  destruct (String.eqb_spec k' k) as [->|Hne]; cbn.
  - intros H; inversion H; reflexivity.
  - intros H. now rewrite IH.
Qed.

Lemma dict_del_set_absent k v d :
  dict_get k d = None -> dict_del k (dict_set k v d) = d.
Proof.
  unfold dict_get, dict_del, find_one.
  induction d as [|[k' w] rest IH]; cbn.
  - now rewrite String.eqb_refl.
  - destruct (String.eqb k' k) eqn:E; cbn; [discriminate|].
    intros H. rewrite E. cbn. now rewrite IH.
Qed.
End DictFacts.

Lemma filter_out_appended sid (l : list string) :
  ~ In sid l ->
  filter (fun s => negb (String.eqb s sid)) (l ++ [sid]) = l.
Proof.
  intros Hn. rewrite filter_app. cbn. rewrite String.eqb_refl. cbn.
  rewrite app_nil_r. induction l as [|x rest IH]; cbn; [reflexivity|].
  destruct (String.eqb_spec x sid) as [->|Hne]; cbn.
  - exfalso. apply Hn. now left.
  - f_equal. apply IH. intros H. apply Hn. now right.
Qed.

(** [X24]: authenticating a socket and disconnecting it is a round trip.
    For a socket that was not connected and not listed for the user, in a
    registry without empty socket lists, a successful [authenticate] followed
    by [disconnect] gives back the registry as it was, in both dictionaries;
    the user's entry is deleted again if the socket was the user's only
    one. *)
Theorem authenticate_disconnect_round_trip
  decode_token sid token user_id role reg :
  token <> "" ->
  decode_token token = inr (user_id, role) ->
  user_id <> "" ->
  dict_get sid (connected_users reg) = None ->
  ~ In sid (sids_of user_id reg) ->
  no_empty_sids reg ->
  snd (authenticate decode_token sid (Some token) reg)
  = authenticated sid user_id role
  /\ disconnect sid (fst (authenticate decode_token sid (Some token) reg))
     = reg.
Proof.
  intros Ht Hd Hu Hc Hs Hne. unfold authenticate.
  apply String.eqb_neq in Ht. rewrite Ht, Hd. cbn [fst snd].
  split; [reflexivity|]. unfold disconnect. cbn [connected_users user_sids].
  rewrite dict_get_set. apply String.eqb_neq in Hu. rewrite Hu.
  cbn [negb andb]. unfold sids_of in *. unfold dict_mem.
  cbn [user_sids].
  destruct (dict_get user_id (user_sids reg)) as [l|] eqn:Hl;
    cbn [is_some negb].
  - rewrite Hl, !dict_get_set. cbn [is_some].
    rewrite (filter_out_appended _ _ Hs), dict_set_set.
    rewrite (dict_set_same _ _ _ Hl).
    rewrite (dict_del_set_absent _ _ _ Hc).
    destruct l as [|x l']; [exfalso; exact (Hne user_id Hl)|].
    destruct reg; reflexivity.
  - rewrite !dict_get_set. cbn [is_some app].
    cbn [filter]. rewrite String.eqb_refl. cbn [negb].
    rewrite !dict_set_set, (dict_del_set_absent _ _ _ Hl).
    rewrite (dict_del_set_absent _ _ _ Hc).
    destruct reg; reflexivity.
Qed.

Lemma authenticate_disconnect_round_trip_witness :
  let decode := fun _ : string =>
    inr ("patient-1", "PATIENT") : HTTPException + (string * string) in
  let reg := {| connected_users := [("sid-1", ("doctor-1", "DOCTOR"))];
                user_sids := [("doctor-1", ["sid-1"])] |} in
  ("token" <> "" /\ "patient-1" <> ""
   /\ dict_get "sid-2" (connected_users reg) = None
   /\ ~ In "sid-2" (sids_of "patient-1" reg)
   /\ no_empty_sids reg)
  /\ disconnect "sid-2" (fst (authenticate decode "sid-2" (Some "token") reg))
     = reg.
Proof.
  assert (H1 : "token" <> "") by discriminate.
  assert (H2 : "patient-1" <> "") by discriminate.
  assert (H3 : ~ In "sid-2"
                 (sids_of "patient-1"
                    {| connected_users := [("sid-1", ("doctor-1", "DOCTOR"))];
                       user_sids := [("doctor-1", ["sid-1"])] |}))
    by (intros []).
  assert (H4 : no_empty_sids
                 {| connected_users := [("sid-1", ("doctor-1", "DOCTOR"))];
                    user_sids := [("doctor-1", ["sid-1"])] |}).
  { intros u. unfold dict_get, find_one. cbn [user_sids find fst].
    destruct (String.eqb "doctor-1" u); cbn; discriminate. }
  split; [repeat split; assumption|].
  exact (proj2
    (authenticate_disconnect_round_trip
       (fun _ => inr ("patient-1", "PATIENT")) "sid-2" "token" "patient-1"
       "PATIENT"
       {| connected_users := [("sid-1", ("doctor-1", "DOCTOR"))];
          user_sids := [("doctor-1", ["sid-1"])] |}
       H1 eq_refl H2 eq_refl H3 H4)).
Defined.

Lemma not_in_filter_out sid (l : list string) :
  ~ In sid (filter (fun s => negb (String.eqb s sid)) l).
Proof.
  intros H. apply filter_In in H. destruct H as [_ H].
  now rewrite String.eqb_refl in H.
Qed.

(** [X25]: [disconnect] cleans up after the socket. For a socket connected
    under a user identifier, after [disconnect] the socket is no longer in
    [connected_users], [emit_to_user] for that user sends nothing to it, the
    user is not left with an empty list of sockets, and the sockets of
    every other user are as they were. A socket that is not connected
    leaves the registry untouched. *)
Theorem disconnect_cleans_up {P : Type} sid user_id role reg event (data : P) :
  dict_get sid (connected_users reg) = Some (user_id, role) ->
  user_id <> "" ->
  let reg' := disconnect sid reg in
  dict_get sid (connected_users reg') = None
  /\ ~ In (sid, event, data) (emit_to_user reg' user_id event data)
  /\ dict_get user_id (user_sids reg') <> Some []
  /\ (forall other, other <> user_id ->
                    dict_get other (user_sids reg')
                    = dict_get other (user_sids reg)).
Proof.
  intros Hc Hu reg'. subst reg'. unfold disconnect. rewrite Hc.
  apply String.eqb_neq in Hu. rewrite Hu. cbn [negb andb].
  cbn [connected_users user_sids]. split; [apply dict_get_del|].
  unfold emit_to_user, sids_of, dict_mem. cbn [user_sids].
  destruct (dict_get user_id (user_sids reg)) as [l|] eqn:Hl; cbn [is_some].
  - destruct (filter (fun s => negb (String.eqb s sid)) l) as [|x rest]
      eqn:Hf.
    + rewrite dict_get_del. cbn [is_some]. split; [intros []|].
      split; [discriminate|].
      intros other Ho. rewrite dict_get_del_other by exact Ho.
      now apply dict_get_set_other.
    + rewrite dict_get_set. cbn [is_some]. split.
      * intros H. apply in_map_iff in H. destruct H as (s & E & Hin).
        inversion E; subst. rewrite <- Hf in Hin.
        exact (not_in_filter_out _ _ Hin).
      * split; [discriminate|].
        intros other Ho. now apply dict_get_set_other.
  - rewrite Hl. cbn [is_some]. split; [intros []|].
    split; [discriminate | reflexivity].
Qed.

Lemma disconnect_cleans_up_witness :
  let reg := {| connected_users := [("sid-1", ("doctor-1", "DOCTOR"))];
                user_sids := [("doctor-1", ["sid-1"])] |} in
  (dict_get "sid-1" (connected_users reg) = Some ("doctor-1", "DOCTOR")
   /\ "doctor-1" <> "")
  /\ dict_get "sid-1" (connected_users (disconnect "sid-1" reg)) = None.
Proof.
  assert (H : "doctor-1" <> "") by discriminate.
  split; [split; [reflexivity | exact H]|].
  exact (proj1
    (disconnect_cleans_up "sid-1" "doctor-1" "DOCTOR"
       {| connected_users := [("sid-1", ("doctor-1", "DOCTOR"))];
          user_sids := [("doctor-1", ["sid-1"])] |} "call_invitation" tt
       eq_refl H)).
Defined.

Lemma authenticate_accepted decode_token sid token user_id role reg :
  token <> "" ->
  decode_token token = inr (user_id, role) ->
  authenticate decode_token sid (Some token) reg
  = ({| connected_users :=
          dict_set sid (user_id, role) (connected_users reg);
        user_sids :=
          dict_set user_id (sids_of user_id reg ++ [sid])%list
            (user_sids reg) |},
     authenticated sid user_id role).
Proof.
  intros Ht Hd. unfold authenticate, sids_of, dict_mem.
  apply String.eqb_neq in Ht. rewrite Ht, Hd.
  destruct (dict_get user_id (user_sids reg)) as [l|] eqn:Hl;
    cbn [is_some negb].
  - now rewrite Hl.
  - now rewrite dict_get_set, dict_set_set.
Qed.

(** [X26]: each successful [authenticate] of a socket adds it once more to
    the user's sockets, also when it is already there: [emit_to_user] then
    sends every event to the sockets the user had, in the same order, and
    once more to this socket, so a socket that authenticates twice receives
    every event twice. The sockets of other users are unchanged. *)
Theorem authenticate_appends_socket {P : Type}
  decode_token sid token user_id role reg event (data : P) :
  token <> "" ->
  decode_token token = inr (user_id, role) ->
  let reg' := fst (authenticate decode_token sid (Some token) reg) in
  emit_to_user reg' user_id event data
  = (emit_to_user reg user_id event data ++ [(sid, event, data)])%list
  /\ emit_to_user
       (fst (authenticate decode_token sid (Some token) reg'))
       user_id event data
     = (emit_to_user reg user_id event data
        ++ [(sid, event, data); (sid, event, data)])%list
  /\ (forall other, other <> user_id ->
                    emit_to_user reg' other event data
                    = emit_to_user reg other event data).
Proof.
  intros Ht Hd reg'. subst reg'.
  rewrite !(authenticate_accepted _ _ _ _ _ _ Ht Hd). cbn [fst].
  assert (Hemit : forall r : registry,
             emit_to_user r user_id event data
             = map (fun s => (s, event, data)) (sids_of user_id r)).
  { intros r. unfold emit_to_user, sids_of, dict_mem.
    destruct (dict_get user_id (user_sids r)); reflexivity. }
  assert (Hsids : forall cu us l,
             sids_of user_id {| connected_users := cu;
                                user_sids := dict_set user_id l us |} = l).
  { intros cu us l. unfold sids_of. cbn [user_sids].
    now rewrite dict_get_set. }
  rewrite !Hemit, !Hsids, !map_app, <- app_assoc. cbn [map app].
  split; [reflexivity|]. split; [reflexivity|].
  intros other Ho. unfold emit_to_user, sids_of, dict_mem.
  cbn [user_sids]. now rewrite dict_get_set_other.
Qed.

Lemma authenticate_appends_socket_witness :
  let decode := fun _ : string =>
    inr ("patient-1", "PATIENT") : HTTPException + (string * string) in
  let reg := {| connected_users := []; user_sids := [] |} in
  "token" <> ""
  /\ emit_to_user
       (fst (authenticate decode "sid-1" (Some "token")
               (fst (authenticate decode "sid-1" (Some "token") reg))))
       "patient-1" "call_invitation" tt
     = [("sid-1", "call_invitation", tt); ("sid-1", "call_invitation", tt)].
Proof.
  assert (H : "token" <> "") by discriminate.
  split; [exact H|].
  exact (proj1 (proj2
    (authenticate_appends_socket (fun _ => inr ("patient-1", "PATIENT"))
       "sid-1" "token" "patient-1" "PATIENT"
       {| connected_users := []; user_sids := [] |} "call_invitation" tt
       H eq_refl))).
Defined.

(** [X27]: a socket that authenticates again as another user stays listed
    for the first one. After [authenticate] of a socket as one user and then
    as a different user, [disconnect] removes it from the second user's
    sockets only: [emit_to_user] for the first user still sends to the
    disconnected socket. *)
Theorem reauthenticated_socket_stays_listed {P : Type}
  decode_token sid token1 token2 user1 role1 user2 role2 reg event (data : P) :
  token1 <> "" -> token2 <> "" ->
  decode_token token1 = inr (user1, role1) ->
  decode_token token2 = inr (user2, role2) ->
  user1 <> user2 ->
  let first := fst (authenticate decode_token sid (Some token1) reg) in
  let second := fst (authenticate decode_token sid (Some token2) first) in
  dict_get sid (connected_users (disconnect sid second)) = None
  /\ In (sid, event, data)
       (emit_to_user (disconnect sid second) user1 event data).
Proof.
  intros Ht1 Ht2 Hd1 Hd2 Hne first second. subst second first.
  rewrite (authenticate_accepted _ _ _ _ _ _ Ht1 Hd1). cbn [fst].
  rewrite (authenticate_accepted _ _ _ _ _ _ Ht2 Hd2). cbn [fst].
  unfold disconnect. cbn [connected_users user_sids].
  rewrite dict_get_set. split.
  { destruct (negb (String.eqb user2 "") && _); cbn [connected_users];
      apply dict_get_del. }
  assert (Hkeep : forall us,
             dict_get user1 us
             = Some (sids_of user1 reg ++ [sid])%list ->
             In (sid, event, data)
               (emit_to_user {| connected_users :=
                                  dict_del sid
                                    (dict_set sid (user2, role2)
                                       (dict_set sid (user1, role1)
                                          (connected_users reg)));
                                user_sids := us |} user1 event data)).
  { intros us Hus. unfold emit_to_user, sids_of, dict_mem.
    cbn [user_sids]. rewrite Hus. cbn [is_some].
    apply in_map_iff. exists sid. split; [reflexivity|].
    apply in_or_app. right. now left. }
  assert (H1 : dict_get user1
                 (dict_set user2
                    (sids_of user2
                       {| connected_users :=
                            dict_set sid (user1, role1) (connected_users reg);
                          user_sids :=
                            dict_set user1 (sids_of user1 reg ++ [sid])%list
                              (user_sids reg) |} ++ [sid])%list
                    (dict_set user1 (sids_of user1 reg ++ [sid])%list
                       (user_sids reg)))
               = Some (sids_of user1 reg ++ [sid])%list).
  { rewrite dict_get_set_other by exact Hne. apply dict_get_set. }
  destruct (negb (String.eqb user2 "") && _); [|now apply Hkeep].
  match goal with
  | |- context [match ?l with [] => _ | _ :: _ => _ end] => destruct l
  end; apply Hkeep.
  - rewrite dict_get_del_other by exact Hne.
    rewrite dict_get_set_other by exact Hne. exact H1.
  - rewrite dict_get_set_other by exact Hne. exact H1.
Qed.

Lemma reauthenticated_socket_stays_listed_witness :
  let decode := fun t : string =>
    if String.eqb t "t1" then inr ("patient-1", "PATIENT")
    else inr ("patient-2", "PATIENT") : HTTPException + (string * string) in
  let reg := {| connected_users := []; user_sids := [] |} in
  ("t1" <> "" /\ "t2" <> "" /\ "patient-1" <> "patient-2")
  /\ In ("sid-1", "call_invitation", tt)
       (emit_to_user
          (disconnect "sid-1"
             (fst (authenticate decode "sid-1" (Some "t2")
                     (fst (authenticate decode "sid-1" (Some "t1") reg)))))
          "patient-1" "call_invitation" tt).
Proof.
  assert (H1 : "t1" <> "") by discriminate.
  assert (H2 : "t2" <> "") by discriminate.
  assert (H3 : "patient-1" <> "patient-2") by discriminate.
  split; [repeat split; assumption|].
  exact (proj2
    (reauthenticated_socket_stays_listed
       (fun t => if String.eqb t "t1" then inr ("patient-1", "PATIENT")
                 else inr ("patient-2", "PATIENT"))
       "sid-1" "t1" "t2" "patient-1" "PATIENT" "patient-2" "PATIENT"
       {| connected_users := []; user_sids := [] |} "call_invitation" tt
       H1 H2 eq_refl eq_refl H3)).
Defined.

(** ** Seed data *)

(** [X28]: [seed_data] leaves a store the coordinator can start from,
    whatever the database held before: three UPCOMING schedules of the one
    doctor, the five patients WAITING and not ready in the queue of the first
    schedule with the numbers 1 to 5, no call session and no audit entry. The
    seeded store obeys the single active call rule and has consistent
    readiness flags, gapless and increasing queue numbers and entries that
    belong to a schedule of the store; its schedule identifiers and queue
    pairs are distinct if the identifiers drawn for the schedules and for the
    patients are. *)
Theorem seed_data_establishes_invariants hash_password strftime env db :
  let seeded := snd (fst (seed_data hash_password strftime env db)) in
  fst (seed_data hash_password strftime env db)
  = fst (seed_data hash_password strftime env ([], empty_store))
  /\ map sch_status (schedules seeded) = [UPCOMING; UPCOMING; UPCOMING]
  /\ Forall (fun s => sch_doctorId s = uuid4 env 0) (schedules seeded)
  /\ map (fun q => (qe_scheduleId q, qe_queueNumber q, qe_status q,
                    qe_isReady q)) (queue_entries seeded)
     = map (fun n => (uuid4 env 6, n, WAITING, false)) [1; 2; 3; 4; 5]
  /\ call_sessions seeded = [] /\ audit_logs seeded = []
  /\ single_active_call seeded /\ unique_call_ids seeded
  /\ queue_consistent seeded
  /\ queue_numbers_gapless seeded /\ queue_numbers_increasing seeded
  /\ queue_entries_have_schedules seeded
  /\ (NoDup [uuid4 env 6; uuid4 env 7; uuid4 env 8] ->
      unique_schedule_ids seeded)
  /\ (NoDup [uuid4 env 1; uuid4 env 2; uuid4 env 3; uuid4 env 4;
             uuid4 env 5] ->
      unique_queue_pairs seeded).
Proof.
  intros seeded. subst seeded. unfold seed_data.
  cbn [fst snd patient_names List.length seq combine map nth Nat.add
       schedules queue_entries call_sessions audit_logs sch_id sch_status
       sch_doctorId ud_id Z.of_nat].
  split; [reflexivity|]. split; [reflexivity|].
  split; [repeat constructor|]. split; [reflexivity|].
  split; [reflexivity|]. split; [reflexivity|].
  split; [intros sid; cbn; lia|]. split; [constructor|].
  split; [repeat constructor; cbn; discriminate|].
  assert (Hnum : forall sid,
             queue_numbers sid
               [ {| qe_id := uuid4 env 9; qe_scheduleId := uuid4 env 6;
                    qe_patientId := uuid4 env 1; qe_queueNumber := 0 + 1;
                    qe_status := WAITING; qe_isReady := false;
                    qe_joinedAt := now env 7 |};
                 {| qe_id := uuid4 env 10; qe_scheduleId := uuid4 env 6;
                    qe_patientId := uuid4 env 2;
                    qe_queueNumber := Z.pos (Pos.of_succ_nat 0) + 1;
                    qe_status := WAITING; qe_isReady := false;
                    qe_joinedAt := now env 8 |};
                 {| qe_id := uuid4 env 11; qe_scheduleId := uuid4 env 6;
                    qe_patientId := uuid4 env 3;
                    qe_queueNumber := Z.pos (Pos.of_succ_nat 1) + 1;
                    qe_status := WAITING; qe_isReady := false;
                    qe_joinedAt := now env 9 |};
                 {| qe_id := uuid4 env 12; qe_scheduleId := uuid4 env 6;
                    qe_patientId := uuid4 env 4;
                    qe_queueNumber := Z.pos (Pos.of_succ_nat 2) + 1;
                    qe_status := WAITING; qe_isReady := false;
                    qe_joinedAt := now env 10 |};
                 {| qe_id := uuid4 env 13; qe_scheduleId := uuid4 env 6;
                    qe_patientId := uuid4 env 5;
                    qe_queueNumber := Z.pos (Pos.of_succ_nat 3) + 1;
                    qe_status := WAITING; qe_isReady := false;
                    qe_joinedAt := now env 11 |} ]
             = if String.eqb (uuid4 env 6) sid then [1; 2; 3; 4; 5] else []).
  { intros sid. unfold queue_numbers, entry_in_schedule.
    cbn [filter qe_scheduleId].
    destruct (String.eqb (uuid4 env 6) sid); reflexivity. }
  split.
  { intros sid. rewrite Hnum.
    destruct (String.eqb (uuid4 env 6) sid); reflexivity. }
  split.
  { intros sid. rewrite Hnum.
    destruct (String.eqb (uuid4 env 6) sid); [|constructor].
    repeat (constructor; [|repeat constructor; lia]). constructor. }
  split.
  { intros q Hq. unfold find_one, schedule_by_id.
    cbn [schedules queue_entries] in *.
    repeat (destruct Hq as [<-|Hq]; [cbn; now rewrite String.eqb_refl|]).
    destruct Hq. }
  split.
  { intros H. exact H. }
  intros H. unfold unique_queue_pairs. cbn [queue_entries map
    qe_scheduleId qe_patientId].
  apply (NoDup_map_inv (@snd string string)). exact H.
Qed.

Lemma serve_keeps_queue_consistent_witness :
  let o := ToggleReady "sched-1" {| isReady := true |} john in
  queue_consistent john_declined
  /\ queue_consistent (fst (serve o (env_at 1 "a") john_declined)).
Proof.
  assert (H : queue_consistent john_declined).
  { repeat constructor; cbn; discriminate. }
  split; [exact H|].
  exact (serve_keeps_queue_consistent
           (ToggleReady "sched-1" {| isReady := true |} john) (env_at 1 "a")
           john_declined I H).
Defined.

Lemma serve_keeps_queue_entries_have_schedules_witness :
  let o := JoinQueue "sched-1" {| u_id := "patient-3";
                                  u_name := "Michael Brown" |} in
  queue_entries_have_schedules two_ready
  /\ queue_entries_have_schedules (fst (serve o (env_at 1 "a") two_ready)).
Proof.
  assert (H : queue_entries_have_schedules two_ready).
  { intros q [<-|[<-|[]]]; discriminate. }
  split; [exact H|].
  exact (serve_keeps_queue_entries_have_schedules
           (JoinQueue "sched-1" {| u_id := "patient-3";
                                   u_name := "Michael Brown" |})
           (env_at 1 "a") two_ready H).
Defined.
